(** * Minesweeper board engine: a shallow embedding of [minesweeper/game.py]

    The Python class [Minesweeper] owns two 8x8 grids (a content grid of
    integers and a visibility grid of enum values), a phase and a counter of
    safe cells.  Its methods are embedded as computations of a small
    state-and-exception monad over a record of the instance attributes.
    Python's list subscripts are modelled with their end-relative negative
    indices and their [IndexError], and every grid subscript a method
    evaluates is recorded in a trace, so that statements about which cells a
    method touches can be made.  The handlers of the window in
    [frontend/app.py] are embedded over the same engine, with the texts of
    the widgets as their state. *)

From Stdlib Require Import ZArith String Lia.
From stdpp Require Import base list gmap pretty.

Local Open Scope Z_scope.

(** ** enums.py *)

Inductive GameState : Set := PLAYING | GAME_OVER | WON.
Inductive CellVisibility : Set := HIDDEN | REVEALED | FLAGGED.

#[global] Instance GameState_eq_dec : EqDecision GameState.
Proof. solve_decision. Defined.
#[global] Instance CellVisibility_eq_dec : EqDecision CellVisibility.
Proof. solve_decision. Defined.

(** ** Python lists *)

Module PyList.

(** [l[i]] for a list of length [len]: indices [0 .. len-1] are taken as
    they are, [-len .. -1] count from the end, anything else raises
    IndexError (here: [None]). *)
Definition index (len : nat) (i : Z) : option nat :=
  if decide (0 ≤ i) then
    if decide (i < Z.of_nat len) then Some (Z.to_nat i) else None
  else
    if decide (- Z.of_nat len ≤ i) then Some (Z.to_nat (Z.of_nat len + i))
    else None.

Definition getitem {A} (l : list A) (i : Z) : option A :=
  match index (length l) i with
  | Some n => l !! n
  | None => None
  end.

Definition setitem {A} (l : list A) (i : Z) (v : A) : option (list A) :=
  match index (length l) i with
  | Some n => Some (<[n := v]> l)
  | None => None
  end.

(** [range(n)] *)
Definition range (n : Z) : list Z := map Z.of_nat (seq 0 (Z.to_nat n)).

(** [g[r][c]] and [g[r][c] = v] on a list of lists; the rows are distinct
    list objects (each is built by its own comprehension). *)
Definition getitem2 {A} (g : list (list A)) (r c : Z) : option A :=
  match getitem g r with
  | Some line => getitem line c
  | None => None
  end.

Definition setitem2 {A} (g : list (list A)) (r c : Z) (v : A)
  : option (list (list A)) :=
  match index (length g) r with
  | Some n =>
      match g !! n with
      | Some line =>
          match setitem line c v with
          | Some line' => Some (<[n := line']> g)
          | None => None
          end
      | None => None
      end
  | None => None
  end.

End PyList.

(** ** The instance attributes of [Minesweeper] *)

Record Minesweeper : Type := mkMinesweeper {
  rows : Z;
  cols : Z;
  number_mines : Z;
  content_grid : list (list Z);
  visibility_grid : list (list CellVisibility);
  game_state : GameState;
  counter_safe_cells : Z;
  preset_mines : option (list (Z * Z))
}.

Definition set_content_grid (g : list (list Z)) (s : Minesweeper) :=
  mkMinesweeper (rows s) (cols s) (number_mines s) g (visibility_grid s)
    (game_state s) (counter_safe_cells s) (preset_mines s).
Definition set_visibility_grid (g : list (list CellVisibility)) (s : Minesweeper) :=
  mkMinesweeper (rows s) (cols s) (number_mines s) (content_grid s) g
    (game_state s) (counter_safe_cells s) (preset_mines s).
Definition set_game_state (p : GameState) (s : Minesweeper) :=
  mkMinesweeper (rows s) (cols s) (number_mines s) (content_grid s)
    (visibility_grid s) p (counter_safe_cells s) (preset_mines s).
Definition set_counter_safe_cells (n : Z) (s : Minesweeper) :=
  mkMinesweeper (rows s) (cols s) (number_mines s) (content_grid s)
    (visibility_grid s) (game_state s) n (preset_mines s).

(** Class attributes. *)
Definition neighbour_cells_coordinates : list (Z * Z) :=
  [(-1, 0); (1, 0); (0, -1); (0, 1); (-1, -1); (-1, 1); (1, -1); (1, 1)].
Definition MINE : Z := -1.

(** ** Exceptions, traces and the method monad *)

Inductive exn : Set :=
| RuntimeError (msg : string)
| ValueError (msg : string)
| IndexError (msg : string).

Inductive outcome (A : Type) : Type :=
| Return (a : A)
| Raise (e : exn).
Arguments Return {A} a.
Arguments Raise {A} e.

Inductive grid_name : Set := Content | Visibility.

(** One evaluation of [self.<grid>[row][col]], as a load or as a store. *)
Record access : Set := Access { acc_grid : grid_name; acc_row : Z; acc_col : Z }.

(** A method body: from the attributes before the call to what the call
    does (returns or raises), the attributes after it, and the subscripts
    it evaluated.  A raised exception keeps the attributes as they are at
    the [raise], as in Python. *)
Definition M (A : Type) : Type :=
  Minesweeper → outcome A * Minesweeper * list access.

Definition ret {A} (a : A) : M A := λ s, (Return a, s, []).
Definition raise {A} (e : exn) : M A := λ s, (Raise e, s, []).
Definition bind {A B} (m : M A) (f : A → M B) : M B := λ s,
  match m s with
  | (Return a, s1, t1) => let '(r, s2, t2) := f a s1 in (r, s2, t1 ++ t2)
  | (Raise e, s1, t1) => (Raise e, s1, t1)
  end.

Notation "'let*' x ':=' m 'in' f" := (bind m (λ x, f))
  (at level 10, x name, m at level 100, f at level 200).
Notation "m '>>' f" := (bind m (λ _, f))
  (at level 100, f at level 200, right associativity).

Definition result {A} (r : outcome A * Minesweeper * list access) := r.1.1.
Definition after {A} (r : outcome A * Minesweeper * list access) := r.1.2.
Definition trace {A} (r : outcome A * Minesweeper * list access) := r.2.

(** [self.x] and [self.x = v] *)
Definition attr {A} (f : Minesweeper → A) : M A := λ s, (Return (f s), s, []).
Definition assign (upd : Minesweeper → Minesweeper) : M unit :=
  λ s, (Return tt, upd s, []).

Definition index_error : exn := IndexError "list index out of range".

(** [self.content_grid[row][col]] *)
Definition load_content (row col : Z) : M Z := λ s,
  match PyList.getitem2 (content_grid s) row col with
  | Some v => (Return v, s, [Access Content row col])
  | None => (Raise index_error, s, [Access Content row col])
  end.

(** [self.content_grid[row][col] = v] *)
Definition store_content (row col : Z) (v : Z) : M unit := λ s,
  match PyList.setitem2 (content_grid s) row col v with
  | Some g => (Return tt, set_content_grid g s, [Access Content row col])
  | None => (Raise index_error, s, [Access Content row col])
  end.

(** [self.visibility_grid[row][col]] *)
Definition load_visibility (row col : Z) : M CellVisibility := λ s,
  match PyList.getitem2 (visibility_grid s) row col with
  | Some v => (Return v, s, [Access Visibility row col])
  | None => (Raise index_error, s, [Access Visibility row col])
  end.

(** [self.visibility_grid[row][col] = v] *)
Definition store_visibility (row col : Z) (v : CellVisibility) : M unit := λ s,
  match PyList.setitem2 (visibility_grid s) row col v with
  | Some g => (Return tt, set_visibility_grid g s, [Access Visibility row col])
  | None => (Raise index_error, s, [Access Visibility row col])
  end.

(** [for x in l: body], with the local variables the body updates threaded
    as [acc]. *)
Fixpoint for_each {A L} (l : list A) (body : A → L → M L) (acc : L) : M L :=
  match l with
  | [] => ret acc
  | x :: l' => let* acc' := body x acc in for_each l' body acc'
  end.

(** ** The methods of [Minesweeper] *)

Definition get_game_state : M GameState := attr game_state.

Definition get_mines_count : M Z := attr number_mines.

Definition _check_bounds (row col : Z) : M bool :=
  let* nrows := attr rows in
  let* ncols := attr cols in
  if (row >=? 0) && (row <? nrows) && ((col >=? 0) && (col <? ncols))
  then ret true
  else ret false.

Definition _check_for_mine (row col : Z) : M bool :=
  let* v := load_content row col in
  if decide (v = MINE) then ret true else ret false.

Definition _count_neighbouring_mines (row col : Z) : M Z :=
  for_each neighbour_cells_coordinates (λ '(dr, dc) counter,
    let neighbour_row := row + dr in
    let neighbour_col := col + dc in
    let* inside := _check_bounds neighbour_row neighbour_col in
    if inside then
      let* v := load_content neighbour_row neighbour_col in
      if decide (v = MINE) then ret (counter + 1) else ret counter
    else ret counter) 0.

Definition _calculate_neighbour_mines : M unit :=
  let* nrows := attr rows in
  for_each (PyList.range nrows) (λ row _,
    let* ncols := attr cols in
    for_each (PyList.range ncols) (λ col _,
      let* v := load_content row col in
      if decide (v ≠ MINE) then
        let* n := _count_neighbouring_mines row col in
        store_content row col n
      else ret tt) tt) tt.

Definition reveal (row col : Z) : M unit :=
  let* phase := attr game_state in
  if decide (phase ≠ PLAYING) then raise (RuntimeError "Game is over") else
  let* inside := _check_bounds row col in
  if negb inside then raise (ValueError "Move is out of bounds") else
  let* v := load_visibility row col in
  if decide (v = REVEALED) then raise (ValueError "Cell is already revealed") else
  let* v := load_visibility row col in
  if decide (v = FLAGGED) then raise (ValueError "Cell is flagged, unflag first") else
  store_visibility row col REVEALED >>
  let* c := load_content row col in
  if decide (c = MINE) then assign (set_game_state GAME_OVER)
  else
    (let* n := attr counter_safe_cells in assign (set_counter_safe_cells (n - 1))) >>
    let* n := attr counter_safe_cells in
    if decide (n = 0) then assign (set_game_state WON) else ret tt.

Definition flag (row col : Z) : M unit :=
  let* phase := attr game_state in
  if decide (phase ≠ PLAYING) then raise (RuntimeError "Game is over") else
  let* inside := _check_bounds row col in
  if negb inside then raise (ValueError "Move is out of bounds") else
  let* v := load_visibility row col in
  if decide (v = REVEALED) then raise (ValueError "Cannot flag a revealed cell") else
  let* v := load_visibility row col in
  if decide (v = FLAGGED) then store_visibility row col HIDDEN
  else store_visibility row col FLAGGED.

(** What [get_cell_state] returns: a one-character string or an integer. *)
Inductive display : Set :=
| Str (s : string)
| Int (n : Z).

Definition get_cell_state (row col : Z) : M display :=
  let* inside := _check_bounds row col in
  if negb inside then raise (ValueError "Cell out of bounds") else
  let* v := load_visibility row col in
  if decide (v = HIDDEN) then ret (Str "H") else
  let* v := load_visibility row col in
  if decide (v = FLAGGED) then ret (Str "F") else
  let* c := load_content row col in
  if decide (c = MINE) then ret (Str "*")
  else
    let* c := load_content row col in ret (Int c).

Definition get_board_display : M (list (list display)) :=
  let* nrows := attr rows in
  for_each (PyList.range nrows) (λ row board,
    let* ncols := attr cols in
    let* row_display :=
      for_each (PyList.range ncols) (λ col row_display,
        let* d := get_cell_state row col in
        ret (row_display ++ [d])) [] in
    ret (board ++ [row_display])) [].

(** [random.sample(population, k)] is not part of the repository.  The
    constructor takes it as [random_sample]; what is assumed of it is
    [sampler]: it returns [k] elements of the population taken at pairwise
    distinct positions. *)
Definition is_sample {A} (population : list A) (k : Z) (out : list A) : Prop :=
  ∃ positions : list nat,
    NoDup positions ∧ Z.of_nat (length positions) = k ∧
    Forall2 (λ i x, population !! i = Some x) positions out.

Definition sampler (random_sample : list (Z * Z) → Z → list (Z * Z)) : Prop :=
  ∀ population k, 0 ≤ k ≤ Z.of_nat (length population) →
    is_sample population k (random_sample population k).

Section Construction.

Variable random_sample : list (Z * Z) → Z → list (Z * Z).

Definition _place_mines : M unit :=
  let* preset := attr preset_mines in
  match preset with
  | None =>
      let* nrows := attr rows in
      let* ncols := attr cols in
      let all_coordinates :=
        r ← PyList.range nrows; c ← PyList.range ncols; [(r, c)] in
      let* k := attr number_mines in
      let random_mines := random_sample all_coordinates k in
      for_each random_mines (λ '(r, c) _, store_content r c MINE) tt
  | Some mines =>
      for_each mines (λ '(r, c) _, store_content r c MINE) tt
  end.

(** [Minesweeper(preset_mines)]: the attributes are set in the order of
    the source, then the two passes run on the new object. *)
Definition __init__ (preset : option (list (Z * Z)))
  : outcome unit * Minesweeper * list access :=
  let rows := 8 in
  let cols := 8 in
  let number_mines := 10 in
  let content_grid :=
    map (λ j, map (λ i, 0) (PyList.range cols)) (PyList.range rows) in
  let visibility_grid :=
    map (λ j, map (λ i, HIDDEN) (PyList.range cols)) (PyList.range rows) in
  let game_state := PLAYING in
  let counter_safe_cells := rows * cols - number_mines in
  let self :=
    mkMinesweeper rows cols number_mines content_grid visibility_grid
      game_state counter_safe_cells preset in
  (_place_mines >> _calculate_neighbour_mines) self.

End Construction.

(** ** Callers *)

(** The two commands, as the frontend issues them: an exception is caught
    by the caller, and the object lives on as the call left it. *)
Inductive command : Set :=
| Reveal (row col : Z)
| Flag (row col : Z).

Definition run_command (c : command) : M unit :=
  match c with
  | Reveal row col => reveal row col
  | Flag row col => flag row col
  end.

Definition step (s : Minesweeper) (c : command) : Minesweeper :=
  after (run_command c s).

Definition play (s : Minesweeper) (cs : list command) : Minesweeper :=
  foldl step s cs.

(** [PRESET_MINES] of the test suite. *)
Definition PRESET_MINES : list (Z * Z) :=
  [(0,0); (1,3); (5,6); (6,6); (4,2); (7,1); (0,7); (2,3); (7,0); (2,6)].

Definition first_k (population : list (Z * Z)) (k : Z) : list (Z * Z) :=
  take (Z.to_nat k) population.

Definition preset_game : Minesweeper := after (__init__ first_k (Some PRESET_MINES)).

(** ** Vocabulary of the properties *)

(** A coordinate of the 8x8 board. *)
Definition in_bounds (row col : Z) : Prop := (0 ≤ row < 8) ∧ (0 ≤ col < 8).

#[global] Instance in_bounds_dec row col : Decision (in_bounds row col).
Proof. unfold in_bounds. apply _. Defined.

(** All coordinates of the board, in row-major order. *)
Definition all_cells : list (Z * Z) :=
  r ← PyList.range 8; c ← PyList.range 8; [(r, c)].

(** A grid of 8 rows of 8 cells. *)
Definition grid_shape {A} (g : list (list A)) : Prop :=
  length g = 8%nat ∧ Forall (λ line, length line = 8%nat) g.

(** A board state: the dimensions are 8 and 8 and both grids have them. *)
Definition board (s : Minesweeper) : Prop :=
  rows s = 8 ∧ cols s = 8 ∧
  grid_shape (content_grid s) ∧ grid_shape (visibility_grid s).

Definition content_at (s : Minesweeper) (row col : Z) : option Z :=
  PyList.getitem2 (content_grid s) row col.
Definition visibility_at (s : Minesweeper) (row col : Z) : option CellVisibility :=
  PyList.getitem2 (visibility_grid s) row col.

(** The boards the constructor returns, and the states commands lead to. *)
Definition constructed (s : Minesweeper) : Prop :=
  ∃ random_sample preset tr,
    sampler random_sample ∧ __init__ random_sample preset = (Return tt, s, tr).

Definition reachable (s : Minesweeper) : Prop :=
  ∃ s0 cs, constructed s0 ∧ s = play s0 cs.

(** "Constructed with hazard_count distinct in-bounds hazard coordinates":
    the coordinates that are placed, whether preset or sampled. *)
Definition hazards_placed (random_sample : list (Z * Z) → Z → list (Z * Z))
    (preset : option (list (Z * Z))) : list (Z * Z) :=
  match preset with
  | Some mines => mines
  | None => random_sample all_cells 10
  end.

Definition proper_hazards (mines : list (Z * Z)) : Prop :=
  NoDup mines ∧ Z.of_nat (length mines) = 10 ∧
  Forall (λ rc, in_bounds rc.1 rc.2) mines.

(** The mine count as [test_correct_number_of_mines] takes it: a scan of
    every row of the content grid. *)
Definition mine_count (g : list (list Z)) : Z :=
  Z.of_nat (length (filter (λ cell, cell = MINE) (concat g))).

(** The number of cells that hold no mine and are not revealed. *)
Definition safe_cell_unrevealed (s : Minesweeper) (rc : Z * Z) : Prop :=
  content_at s rc.1 rc.2 ≠ Some MINE ∧ visibility_at s rc.1 rc.2 ≠ Some REVEALED.

#[global] Instance safe_cell_unrevealed_dec s rc : Decision (safe_cell_unrevealed s rc).
Proof. unfold safe_cell_unrevealed. apply _. Defined.

Definition safe_cells_unrevealed (s : Minesweeper) : Z :=
  Z.of_nat (length (filter (safe_cell_unrevealed s) all_cells)).

(** Two distinct cells touch: they are at most one row and one column
    apart (the orthogonal and the diagonal neighbours). *)
Definition adjacent (a b : Z * Z) : Prop :=
  a ≠ b ∧ Z.abs (a.1 - b.1) ≤ 1 ∧ Z.abs (a.2 - b.2) ≤ 1.

#[global] Instance adjacent_dec a b : Decision (adjacent a b).
Proof. unfold adjacent. apply _. Defined.

(** The number of hazards among the cells of the board that touch
    [(row, col)]. *)
Definition hazard_neighbours (mines : list (Z * Z)) (row col : Z) : Z :=
  Z.of_nat (length (filter (λ rc, adjacent (row, col) rc ∧ rc ∈ mines) all_cells)).

(** Every subscript of a trace is inside the 8x8 range. *)
Definition inside (a : access) : Prop := in_bounds (acc_row a) (acc_col a).

(** The attributes after a successful [reveal] that stored the visibility
    grid [g'] on a cell of content [c] (lines 148-155 of the source, in
    closed form; [reveal_cases] shows it is what [reveal] computes). *)
Definition revealed_state (s : Minesweeper) (g' : list (list CellVisibility))
    (c : Z) : Minesweeper :=
  let s1 := set_visibility_grid g' s in
  if decide (c = MINE) then set_game_state GAME_OVER s1
  else
    let s2 := set_counter_safe_cells (counter_safe_cells s - 1) s1 in
    if decide (counter_safe_cells s - 1 = 0) then set_game_state WON s2 else s2.

(** What [flag] stores on a cell that is not revealed (lines 179-182). *)
Definition toggled (v : CellVisibility) : CellVisibility :=
  if decide (v = FLAGGED) then HIDDEN else FLAGGED.

(** The count [_count_neighbouring_mines] computes, in closed form. *)
Definition counted_mines (s : Minesweeper) (row col : Z) : Z :=
  Z.of_nat (length (filter
    (λ d, in_bounds (row + d.1) (col + d.2) ∧
          content_at s (row + d.1) (col + d.2) = Some MINE)
    neighbour_cells_coordinates)).

(** A computation that leaves the attributes as they are, whatever it
    returns or raises. *)
Definition read_only {A} (m : M A) : Prop := ∀ s, after (m s) = s.

(** The invariant of the pass [_calculate_neighbour_mines] over a board
    that started as [s0]: only the content grid has changed; mines are
    still mines and no other cell has become one; the cells in [written]
    that hold no mine hold their count. *)
Definition counts_written (s0 : Minesweeper) (written : Z → Z → Prop)
    (s : Minesweeper) : Prop :=
  ∃ g', s = set_content_grid g' s0 ∧ grid_shape g' ∧
    ∀ r c, in_bounds r c →
      (content_at s0 r c = Some MINE → PyList.getitem2 g' r c = Some MINE) ∧
      (content_at s0 r c ≠ Some MINE →
         PyList.getitem2 g' r c ≠ Some MINE ∧
         (written r c → PyList.getitem2 g' r c = Some (counted_mines s0 r c))).

(** A board built from a preset list of a single coordinate. *)
Definition one_mine_game : Minesweeper :=
  after (__init__ first_k (Some [(0, 0)])).

(** The cells of the board outside [PRESET_MINES], in row-major order, as
    [test_win_condition] reveals them. *)
Definition safe_reveals : list command :=
  (λ rc, Reveal rc.1 rc.2) <$> filter (λ rc, rc ∉ PRESET_MINES) all_cells.

(** ** Vocabulary of the further properties *)

(** What [get_cell_state] shows for a cell of visibility [v] and content
    [c] (lines 203-211, in closed form; [get_cell_state_value] shows it is
    what the method returns). *)
Definition display_of (v : CellVisibility) (c : Z) : display :=
  match v with
  | HIDDEN => Str "H"
  | FLAGGED => Str "F"
  | REVEALED => if decide (c = MINE) then Str "*" else Int c
  end.

(** The cell a command is about. *)
Definition target (c : command) : Z * Z :=
  match c with Reveal row col | Flag row col => (row, col) end.

(** A cell that holds a mine and is revealed. *)
Definition revealed_mine (s : Minesweeper) (rc : Z * Z) : Prop :=
  content_at s rc.1 rc.2 = Some MINE ∧ visibility_at s rc.1 rc.2 = Some REVEALED.

#[global] Instance revealed_mine_dec s rc : Decision (revealed_mine s rc).
Proof. unfold revealed_mine. apply _. Defined.

Definition revealed_mines (s : Minesweeper) : Z :=
  Z.of_nat (length (filter (revealed_mine s) all_cells)).

(** What links the phase to the grids, on boards built with ten mines:
    the counter counts the safe cells still to reveal; it is positive while
    the game is on and 0 once it is won, and a mine is revealed exactly in
    phase GAME_OVER, where it is the only one. *)
Definition phase_invariant (s : Minesweeper) : Prop :=
  board s ∧
  counter_safe_cells s = safe_cells_unrevealed s ∧
  match game_state s with
  | PLAYING => 0 < counter_safe_cells s ∧ revealed_mines s = 0
  | WON => counter_safe_cells s = 0 ∧ revealed_mines s = 0
  | GAME_OVER => revealed_mines s = 1
  end.

(** The commands that reveal the listed cells, in the order of the list. *)
Definition reveals (order : list (Z * Z)) : list command :=
  (λ rc, Reveal rc.1 rc.2) <$> order.

(** A coordinate both of whose parts Python accepts as a subscript of a
    list of length 8. *)
Definition subscriptable (rc : Z * Z) : Prop :=
  (-8 ≤ rc.1 < 8) ∧ (-8 ≤ rc.2 < 8).

#[global] Instance subscriptable_dec rc : Decision (subscriptable rc).
Proof. unfold subscriptable. apply _. Defined.

(** The cell of the board such a coordinate denotes: negative parts count
    from the end. *)
Definition wrap (i : Z) : Z := if decide (i < 0) then 8 + i else i.
Definition wrap_cell (rc : Z * Z) : Z * Z := (wrap rc.1, wrap rc.2).

(** ** frontend/app.py: the window over the engine

    Of the Qt widgets, the model keeps what the handlers read and write:
    the text of the status label and, for each key of the [buttons]
    dictionary, the text of its button. *)

Record MinesweeperGUI : Type := mkMinesweeperGUI {
  game : Minesweeper;
  buttons : gmap (Z * Z) string;
  status_label : string
}.

Definition set_game (s : Minesweeper) (g : MinesweeperGUI) :=
  mkMinesweeperGUI s (buttons g) (status_label g).
Definition set_buttons (b : gmap (Z * Z) string) (g : MinesweeperGUI) :=
  mkMinesweeperGUI (game g) b (status_label g).
Definition set_status_label (text : string) (g : MinesweeperGUI) :=
  mkMinesweeperGUI (game g) (buttons g) text.

(** What a handler can raise: an exception of the engine or of a list
    subscript, or the KeyError of the [buttons] dictionary. *)
Inductive gui_exn : Type :=
| Engine (e : exn)
| KeyError (key : Z * Z).

Definition G (A : Type) : Type :=
  MinesweeperGUI → (A + gui_exn) * MinesweeperGUI.

Definition gret {A} (a : A) : G A := λ g, (inl a, g).
Definition gbind {A B} (m : G A) (f : A → G B) : G B := λ g,
  match m g with
  | (inl a, g1) => f a g1
  | (inr e, g1) => (inr e, g1)
  end.

Notation "'let+' x ':=' m 'in' f" := (gbind m (λ x, f))
  (at level 10, x name, m at level 100, f at level 200).

(** [self.game.<method>(...)] *)
Definition call {A} (m : M A) : G A := λ g,
  match m (game g) with
  | (Return a, s, _) => (inl a, set_game s g)
  | (Raise e, s, _) => (inr (Engine e), set_game s g)
  end.

(** [try: body  except (ValueError, RuntimeError) as e: handler] *)
Definition try_except {A} (body : G A) (handler : exn → G A) : G A := λ g,
  match body g with
  | (inr (Engine (ValueError msg)), g1) => handler (ValueError msg) g1
  | (inr (Engine (RuntimeError msg)), g1) => handler (RuntimeError msg) g1
  | other => other
  end.

(** [str(e)] of an exception raised with its message as only argument. *)
Definition exn_str (e : exn) : string :=
  match e with RuntimeError msg | ValueError msg | IndexError msg => msg end.

(** [str(cell)] of a display value: a string is itself, an integer is
    written in decimal. *)
Definition display_str (d : display) : string :=
  match d with Str text => text | Int n => pretty n end.

#[global] Instance display_eq_dec : EqDecision display.
Proof. solve_decision. Defined.

(** [self.status_label.setText(text)] *)
Definition status_setText (text : string) : G unit :=
  λ g, (inl tt, set_status_label text g).

(** [self.buttons[key].setText(text)] *)
Definition button_setText (key : Z * Z) (text : string) : G unit := λ g,
  match buttons g !! key with
  | Some _ => (inl tt, set_buttons (<[key := text]> (buttons g)) g)
  | None => (inr (KeyError key), g)
  end.

(** [board[row][col]] on the list of lists a display query returned. *)
Definition subscript2 {A} (b : list (list A)) (row col : Z) : G A := λ g,
  match PyList.getitem2 b row col with
  | Some v => (inl v, g)
  | None => (inr (Engine index_error), g)
  end.

(** [for x in l: body] *)
Fixpoint gfor {A} (l : list A) (body : A → G unit) : G unit :=
  match l with
  | [] => gret tt
  | x :: l' => let+ _ := body x in gfor l' body
  end.

Definition _update_board : G unit :=
  let+ board := call get_board_display in
  let+ nrows := call (attr rows) in
  let+ _ := gfor (PyList.range nrows) (λ row,
    let+ ncols := call (attr cols) in
    gfor (PyList.range ncols) (λ col,
      let+ cell := subscript2 board row col in
      if decide (cell = Str "H") then button_setText (row, col) " "
      else if decide (cell = Str "F") then button_setText (row, col) "F"
      else if decide (cell = Str "*") then button_setText (row, col) "*"
      else button_setText (row, col) (display_str cell))) in
  let+ state := call get_game_state in
  if decide (state = WON) then status_setText "Congratulations! You won!"
  else if decide (state = GAME_OVER) then
    status_setText "BOOM! You hit a mine. Game over!"
  else
    let+ n := call get_mines_count in
    status_setText ("Mines: " ++ pretty n ++ " | Status: Playing").

Definition _on_left_click (row col : Z) : G unit :=
  let+ state := call get_game_state in
  if decide (state ≠ PLAYING) then gret tt else
  try_except
    (let+ _ := call (reveal row col) in _update_board)
    (λ e, status_setText (exn_str e)).

Definition _on_right_click (row col : Z) : G unit :=
  let+ state := call get_game_state in
  if decide (state ≠ PLAYING) then gret tt else
  try_except
    (let+ _ := call (flag row col) in _update_board)
    (λ e, status_setText (exn_str e)).

(** [_setup_ui], on the window whose label does not exist yet: the label
    gets the mine count, and every cell its button, of text " ". *)
Definition _setup_ui : G unit :=
  let+ n := call get_mines_count in
  let+ _ := status_setText ("Mines: " ++ pretty n ++ " | Status: Playing") in
  let+ nrows := call (attr rows) in
  gfor (PyList.range nrows) (λ row,
    let+ ncols := call (attr cols) in
    gfor (PyList.range ncols) (λ col,
      λ g, (inl tt, set_buttons (<[(row, col) := " "]> (buttons g)) g))).

(** [MinesweeperGUI()]: a new random game, an empty dictionary of buttons,
    then [_setup_ui]. *)
Definition gui_init (random_sample : list (Z * Z) → Z → list (Z * Z))
  : (unit + gui_exn) * MinesweeperGUI :=
  match __init__ random_sample None with
  | (Return _, s, _) => _setup_ui (mkMinesweeperGUI s ∅ EmptyString)
  | (Raise e, s, _) => (inr (Engine e), mkMinesweeperGUI s ∅ EmptyString)
  end.

(** The gestures Qt forwards: the signals of the button at [(row, col)] are
    connected to the two handlers with the button's own coordinate. *)
Inductive click : Set :=
| LeftClick (row col : Z)
| RightClick (row col : Z).

Definition handler (c : click) : G unit :=
  match c with
  | LeftClick row col => _on_left_click row col
  | RightClick row col => _on_right_click row col
  end.

(** The text [_update_board] puts on the button of a cell showing [d]. *)
Definition button_text (d : display) : string :=
  if decide (d = Str "H") then " " else display_str d.

(** The command a click forwards to the engine. *)
Definition command_of (c : click) : command :=
  match c with
  | LeftClick row col => Reveal row col
  | RightClick row col => Flag row col
  end.

(** The clicks of a session, one handler after the other; an exception
    that escapes a handler ends the run. *)
Definition run_clicks (cs : list click) : G unit := gfor cs handler.

(** A window over a board state whose dictionary has a button for every
    cell of the board. *)
Definition gui_ok (g : MinesweeperGUI) : Prop :=
  board (game g) ∧ ∀ r c, in_bounds r c → is_Some (buttons g !! (r, c)).

(** Every button shows its cell of the board [s]. *)
Definition buttons_show (s : Minesweeper) (g : MinesweeperGUI) : Prop :=
  ∀ r c, in_bounds r c →
    ∃ d, result (get_cell_state r c s) = Return d ∧
         buttons g !! (r, c) = Some (button_text d).

(** The status text [_update_board] sets for a game (lines 84-90). *)
Definition phase_message (s : Minesweeper) : string :=
  match game_state s with
  | WON => "Congratulations! You won!"
  | GAME_OVER => "BOOM! You hit a mine. Game over!"
  | PLAYING => "Mines: " ++ pretty (number_mines s) ++ " | Status: Playing"
  end.

(** The state of a loop that sets the text [text key] on the buttons of
    the cells it visits, having started from [g0]. *)
Definition texts_set (g0 : MinesweeperGUI) (text : Z * Z → option string)
    (visited : list (Z * Z)) (g : MinesweeperGUI) : Prop :=
  game g = game g0 ∧ status_label g = status_label g0 ∧
  ∀ key, buttons g !! key =
           if decide (key ∈ visited) then text key else buttons g0 !! key.

(** * Properties *)

(** ** Python subscripts at coordinates of the board *)

Section Grids.

Context {A : Type}.
Implicit Types (g : list (list A)) (line : list A) (r c : Z) (v : A).

Lemma index_inside (len : nat) i :
  0 ≤ i < Z.of_nat len → PyList.index len i = Some (Z.to_nat i).
Proof. intros. unfold PyList.index. repeat case_decide; done || lia. Qed.

Lemma index_is_Some (len : nat) i n :
  PyList.index len i = Some n → (n < len)%nat.
Proof. unfold PyList.index. repeat case_decide; intros; simplify_eq; lia. Qed.

Lemma grid_shape_row g r :
  grid_shape g → 0 ≤ r < 8 →
  ∃ line, g !! Z.to_nat r = Some line ∧ length line = 8%nat.
Proof.
  intros [Hlen Hall] Hr.
  destruct (lookup_lt_is_Some_2 g (Z.to_nat r)) as [line Hline]; [lia|].
  exists line. split; [done|].
  by apply (Forall_lookup_1 _ _ _ _ Hall Hline).
Qed.

Lemma getitem2_inside g r c :
  grid_shape g → in_bounds r c →
  ∃ line, g !! Z.to_nat r = Some line ∧ length line = 8%nat ∧
          PyList.getitem2 g r c = line !! Z.to_nat c.
Proof.
  intros Hg [Hr Hc].
  destruct (grid_shape_row g r Hg Hr) as (line & Hline & Hlen).
  exists line. split_and!; [done..|].
  unfold PyList.getitem2, PyList.getitem.
  rewrite index_inside by (destruct Hg; lia). rewrite Hline.
  by rewrite index_inside by lia.
Qed.

Lemma getitem2_is_Some g r c :
  grid_shape g → in_bounds r c → is_Some (PyList.getitem2 g r c).
Proof.
  intros Hg Hrc.
  destruct (getitem2_inside g r c Hg Hrc) as (line & _ & Hlen & ->).
  apply lookup_lt_is_Some_2. destruct Hrc. lia.
Qed.

Lemma setitem2_inside g r c v :
  grid_shape g → in_bounds r c →
  ∃ line, g !! Z.to_nat r = Some line ∧ length line = 8%nat ∧
          PyList.setitem2 g r c v =
            Some (<[Z.to_nat r := <[Z.to_nat c := v]> line]> g).
Proof.
  intros Hg [Hr Hc].
  destruct (grid_shape_row g r Hg Hr) as (line & Hline & Hlen).
  exists line. split_and!; [done..|].
  unfold PyList.setitem2, PyList.setitem.
  rewrite index_inside by (destruct Hg; lia). rewrite Hline.
  by rewrite index_inside by lia.
Qed.

Lemma setitem2_is_Some g r c v :
  grid_shape g → in_bounds r c → is_Some (PyList.setitem2 g r c v).
Proof.
  intros Hg Hrc.
  destruct (setitem2_inside g r c v Hg Hrc) as (line & _ & _ & ->). eauto.
Qed.

Lemma setitem2_shape g r c v g' :
  PyList.setitem2 g r c v = Some g' → grid_shape g → grid_shape g'.
Proof.
  unfold PyList.setitem2, PyList.setitem. intros Hset [Hlen Hall].
  destruct (PyList.index (length g) r) as [n|]; [|done].
  destruct (g !! n) as [line|] eqn:Hline; [|done].
  destruct (PyList.index (length line) c) as [m|]; [|done].
  simplify_eq. split; [by rewrite length_insert|].
  apply Forall_insert; [done|]. rewrite length_insert.
  by apply (Forall_lookup_1 _ _ _ _ Hall Hline).
Qed.

(** Reading after a store: the stored cell holds the new value, every
    other cell of the board what it held. *)
Lemma getitem2_setitem2 g r c v g' r' c' :
  grid_shape g → in_bounds r c → in_bounds r' c' →
  PyList.setitem2 g r c v = Some g' →
  PyList.getitem2 g' r' c' =
    if decide ((r', c') = (r, c)) then Some v else PyList.getitem2 g r' c'.
Proof.
  intros Hg Hrc Hrc' Hset.
  pose proof (setitem2_shape _ _ _ _ _ Hset Hg) as Hg'.
  destruct (setitem2_inside g r c v Hg Hrc) as (line & Hline & Hlen & Heq).
  rewrite Heq in Hset. simplify_eq.
  destruct (getitem2_inside _ r' c' Hg' Hrc') as (l1 & Hl1 & _ & ->).
  destruct (getitem2_inside g r' c' Hg Hrc') as (l2 & Hl2 & _ & ->).
  destruct Hrc as [Hr Hc], Hrc' as [Hr' Hc'].
  destruct (decide (r' = r)) as [->|Hne].
  - rewrite list_lookup_insert_eq in Hl1 by (destruct Hg; lia).
    simplify_eq. destruct (decide (c' = c)) as [->|Hnc].
    + rewrite decide_True by done. apply list_lookup_insert_eq. lia.
    + rewrite decide_False by congruence.
      apply list_lookup_insert_ne. lia.
  - rewrite list_lookup_insert_ne in Hl1 by lia.
    rewrite decide_False by congruence. congruence.
Qed.

(** Storing what the cell already holds changes nothing. *)
Lemma setitem2_same g r c v :
  grid_shape g → in_bounds r c →
  PyList.getitem2 g r c = Some v → PyList.setitem2 g r c v = Some g.
Proof.
  intros Hg Hrc Hget.
  destruct (setitem2_inside g r c v Hg Hrc) as (line & Hline & Hlen & ->).
  destruct (getitem2_inside g r c Hg Hrc) as (l2 & Hl2 & _ & Heq).
  simplify_eq. rewrite Heq in Hget.
  by rewrite (list_insert_id line), list_insert_id.
Qed.

(** A second store to the same cell overwrites the first. *)
Lemma setitem2_setitem2 g r c v w g' :
  grid_shape g → in_bounds r c →
  PyList.setitem2 g r c v = Some g' →
  PyList.setitem2 g' r c w = PyList.setitem2 g r c w.
Proof.
  intros Hg Hrc Hset.
  pose proof (setitem2_shape _ _ _ _ _ Hset Hg) as Hg'.
  destruct (setitem2_inside g r c v Hg Hrc) as (line & Hline & Hlen & Heq).
  rewrite Heq in Hset. simplify_eq.
  destruct (setitem2_inside g r c w Hg Hrc) as (l2 & Hl2 & _ & ->).
  destruct (setitem2_inside _ r c w Hg' Hrc) as (l3 & Hl3 & _ & ->).
  rewrite list_lookup_insert_eq in Hl3 by (destruct Hg, Hrc; lia).
  simplify_eq.
  by rewrite list_insert_insert_eq, list_insert_insert_eq.
Qed.

End Grids.

(** ** Running the monad *)

Section Run.

Context {A B : Type}.

Lemma bind_eq (m : M A) (k : A → M B) s :
  bind m k s =
    match m s with
    | (Return a, s1, t1) => let '(r, s2, t2) := k a s1 in (r, s2, t1 ++ t2)
    | (Raise e, s1, t1) => (Raise e, s1, t1)
    end.
Proof. done. Qed.

Lemma run_attr (f : Minesweeper → A) s : attr f s = (Return (f s), s, []).
Proof. done. Qed.
Lemma run_ret (a : A) s : ret a s = (Return a, s, []).
Proof. done. Qed.
Lemma run_raise e s : raise (A:=A) e s = (Raise e, s, []).
Proof. done. Qed.
Lemma run_assign upd s : assign upd s = (Return tt, upd s, []).
Proof. done. Qed.

Lemma run_load_visibility s r c v :
  PyList.getitem2 (visibility_grid s) r c = Some v →
  load_visibility r c s = (Return v, s, [Access Visibility r c]).
Proof. unfold load_visibility. by intros ->. Qed.

Lemma run_load_content s r c v :
  PyList.getitem2 (content_grid s) r c = Some v →
  load_content r c s = (Return v, s, [Access Content r c]).
Proof. unfold load_content. by intros ->. Qed.

Lemma run_store_visibility s r c v g :
  PyList.setitem2 (visibility_grid s) r c v = Some g →
  store_visibility r c v s =
    (Return tt, set_visibility_grid g s, [Access Visibility r c]).
Proof. unfold store_visibility. by intros ->. Qed.

Lemma run_store_content s r c v g :
  PyList.setitem2 (content_grid s) r c v = Some g →
  store_content r c v s = (Return tt, set_content_grid g s, [Access Content r c]).
Proof. unfold store_content. by intros ->. Qed.

End Run.

Lemma check_bounds_spec s row col :
  rows s = 8 → cols s = 8 →
  _check_bounds row col s = (Return (bool_decide (in_bounds row col)), s, []).
Proof.
  intros Hr Hc. unfold _check_bounds, bind, attr, ret. simpl. rewrite Hr, Hc.
  unfold in_bounds. rewrite !Z.geb_leb.
  destruct (Z.leb_spec 0 row), (Z.ltb_spec row 8),
           (Z.leb_spec 0 col), (Z.ltb_spec col 8); simpl;
    case_bool_decide; (done || lia).
Qed.

(** Every subscript of an explicit trace is at a coordinate known to be on
    the board. *)
Ltac trace_inside :=
  repeat (apply Forall_cons; split; [unfold inside; cbn; done|]);
  apply Forall_nil_2.

Ltac side := first [ done | congruence | lia | by intros ?; congruence ].

(** Symbolic execution of a method body applied to a state, using the
    equations of the context for loads and stores. *)
Ltac run_method :=
  repeat first
    [ rewrite bind_eq
    | rewrite run_attr | rewrite run_ret | rewrite run_raise | rewrite run_assign
    | rewrite check_bounds_spec by done
    | erewrite run_load_visibility by eassumption
    | erewrite run_load_content by eassumption
    | erewrite run_store_visibility by eassumption
    | erewrite run_store_content by eassumption
    | progress cbn [fst snd app negb rows cols number_mines content_grid
                    visibility_grid game_state counter_safe_cells preset_mines
                    set_content_grid set_visibility_grid set_game_state
                    set_counter_safe_cells]
    | rewrite bool_decide_true by side
    | rewrite bool_decide_false by side
    | rewrite decide_True by side
    | rewrite decide_False by side ].

(** ** The commands, case by case *)

Lemma reveal_cases s row col :
  board s →
  (game_state s ≠ PLAYING ∧
     reveal row col s = (Raise (RuntimeError "Game is over"), s, []))
  ∨ (game_state s = PLAYING ∧ ¬ in_bounds row col ∧
     reveal row col s = (Raise (ValueError "Move is out of bounds"), s, []))
  ∨ (game_state s = PLAYING ∧ in_bounds row col ∧
     visibility_at s row col = Some REVEALED ∧
     reveal row col s =
       (Raise (ValueError "Cell is already revealed"), s,
        [Access Visibility row col]))
  ∨ (game_state s = PLAYING ∧ in_bounds row col ∧
     visibility_at s row col = Some FLAGGED ∧
     reveal row col s =
       (Raise (ValueError "Cell is flagged, unflag first"), s,
        [Access Visibility row col; Access Visibility row col]))
  ∨ (game_state s = PLAYING ∧ in_bounds row col ∧
     visibility_at s row col = Some HIDDEN ∧
     ∃ g' c,
       PyList.setitem2 (visibility_grid s) row col REVEALED = Some g' ∧
       content_at s row col = Some c ∧
       reveal row col s =
         (Return tt, revealed_state s g' c,
          [Access Visibility row col; Access Visibility row col;
           Access Visibility row col; Access Content row col])).
Proof.
  intros (Hr & Hc & Hcg & Hvg). unfold visibility_at, content_at.
  destruct (decide (game_state s = PLAYING)) as [Hp|Hp]; [right|left].
  2:{ split; [done|]. unfold reveal. by run_method. }
  destruct (decide (in_bounds row col)) as [Hin|Hin]; [right|left].
  2:{ split_and!; [done..|]. unfold reveal. by run_method. }
  destruct (getitem2_is_Some (visibility_grid s) row col Hvg Hin) as [v Hv].
  destruct (getitem2_is_Some (content_grid s) row col Hcg Hin) as [c Hcont].
  destruct (setitem2_is_Some (visibility_grid s) row col REVEALED Hvg Hin)
    as [g' Hg'].
  destruct v; [right; right|left|right; left].
  - split_and!; [done..|]. exists g', c. split_and!; [done..|].
    unfold reveal, revealed_state. run_method.
    destruct (decide (c = MINE)); run_method; [done|].
    destruct (decide (counter_safe_cells s - 1 = 0)); by run_method.
  - split_and!; [done..|]. unfold reveal. by run_method.
  - split_and!; [done..|]. unfold reveal. by run_method.
Qed.

Lemma flag_cases s row col :
  board s →
  (game_state s ≠ PLAYING ∧
     flag row col s = (Raise (RuntimeError "Game is over"), s, []))
  ∨ (game_state s = PLAYING ∧ ¬ in_bounds row col ∧
     flag row col s = (Raise (ValueError "Move is out of bounds"), s, []))
  ∨ (game_state s = PLAYING ∧ in_bounds row col ∧
     visibility_at s row col = Some REVEALED ∧
     flag row col s =
       (Raise (ValueError "Cannot flag a revealed cell"), s,
        [Access Visibility row col]))
  ∨ (game_state s = PLAYING ∧ in_bounds row col ∧
     ∃ v g',
       visibility_at s row col = Some v ∧ v ≠ REVEALED ∧
       PyList.setitem2 (visibility_grid s) row col (toggled v) = Some g' ∧
       flag row col s =
         (Return tt, set_visibility_grid g' s,
          [Access Visibility row col; Access Visibility row col;
           Access Visibility row col])).
Proof.
  intros (Hr & Hc & Hcg & Hvg). unfold visibility_at.
  destruct (decide (game_state s = PLAYING)) as [Hp|Hp]; [right|left].
  2:{ split; [done|]. unfold flag. by run_method. }
  destruct (decide (in_bounds row col)) as [Hin|Hin]; [right|left].
  2:{ split_and!; [done..|]. unfold flag. by run_method. }
  destruct (getitem2_is_Some (visibility_grid s) row col Hvg Hin) as [v Hv].
  destruct (setitem2_is_Some (visibility_grid s) row col (toggled v) Hvg Hin)
    as [g' Hg'].
  destruct (decide (v = REVEALED)) as [->|Hv']; [left|right].
  - split_and!; [done..|]. unfold flag. by run_method.
  - split_and!; [done..|]. exists v, g'. split_and!; [done..|].
    unfold flag. run_method. unfold toggled in Hg'.
    destruct (decide (v = FLAGGED)); by run_method.
Qed.

(** ** Loops and frames *)

Section Frames.

Context {A B : Type}.

(** A property of the attributes that every part of a computation keeps
    is kept by the whole, whether it returns or raises. *)
Lemma after_bind_inv (I : Minesweeper → Prop) (m : M A) (k : A → M B) s :
  I (after (m s)) → (∀ a s1, I s1 → I (after (k a s1))) →
  I (after (bind m k s)).
Proof.
  intros Hm Hk. rewrite bind_eq.
  destruct (m s) as [[[a|e] s1] t1]; [|done].
  specialize (Hk a s1 Hm). by destruct (k a s1) as [[r s2] t2].
Qed.

End Frames.

Section Loops.

Context {A B : Type}.

Lemma for_each_after_inv (I : Minesweeper → Prop) (l : list A)
    (body : A → B → M B) :
  (∀ x acc s, x ∈ l → I s → I (after (body x acc s))) →
  ∀ acc s, I s → I (after (for_each l body acc s)).
Proof.
  induction l as [|x l IH]; intros Hbody acc s Hs; [done|].
  cbn [for_each]. apply after_bind_inv.
  - apply Hbody; [left|done].
  - intros acc' s1 Hs1. apply IH; [|done].
    intros y acc'' s2 Hy. apply Hbody. by right.
Qed.

(** A loop whose body always returns, with an invariant [I] over the
    elements already visited, the locals and the attributes, and a
    property [T] of the subscripts evaluated. *)
Lemma for_each_prefix_inv (I : list A → B → Minesweeper → Prop)
    (T : access → Prop) (l : list A) (body : A → B → M B) :
  (∀ visited x rest acc s, l = visited ++ x :: rest → I visited acc s →
     ∃ acc' s' t, body x acc s = (Return acc', s', t) ∧
                  I (visited ++ [x]) acc' s' ∧ Forall T t) →
  ∀ acc s, I [] acc s →
    ∃ acc' s' t, for_each l body acc s = (Return acc', s', t) ∧
                 I l acc' s' ∧ Forall T t.
Proof.
  intros Hbody.
  cut (∀ rest visited acc s, l = visited ++ rest → I visited acc s →
         ∃ acc' s' t, for_each rest body acc s = (Return acc', s', t) ∧
                      I l acc' s' ∧ Forall T t).
  { intros Hcut acc s. by apply (Hcut l []). }
  induction rest as [|x rest IH]; intros visited acc s Hl Hinv.
  - rewrite app_nil_r in Hl. subst. exists acc, s, []. by split_and!.
  - destruct (Hbody visited x rest acc s Hl Hinv)
      as (acc1 & s1 & t1 & Hrun & Hinv1 & Ht1).
    destruct (IH (visited ++ [x]) acc1 s1) as (acc2 & s2 & t2 & Hrun2 & Hinv2 & Ht2).
    { by rewrite <- app_assoc. } { done. }
    exists acc2, s2, (t1 ++ t2). split_and!; [|done|by apply Forall_app].
    cbn [for_each]. by rewrite bind_eq, Hrun, Hrun2.
Qed.

End Loops.

Section ReadOnly.

Context {A B : Type}.

Lemma read_only_ret (a : A) : read_only (ret a).
Proof. done. Qed.
Lemma read_only_raise e : read_only (raise (A:=A) e).
Proof. done. Qed.
Lemma read_only_attr (f : Minesweeper → A) : read_only (attr f).
Proof. done. Qed.

Lemma read_only_bind (m : M A) (k : A → M B) :
  read_only m → (∀ a, read_only (k a)) → read_only (bind m k).
Proof.
  intros Hm Hk s. apply (after_bind_inv (λ s', s' = s)); [apply Hm|].
  intros a s1 ->. apply Hk.
Qed.

Lemma read_only_for_each (l : list A) (body : A → B → M B) acc :
  (∀ x acc, read_only (body x acc)) → read_only (for_each l body acc).
Proof.
  intros Hbody s. apply (for_each_after_inv (λ s', s' = s)); [|done].
  intros x acc' s1 _ ->. apply Hbody.
Qed.

End ReadOnly.

Lemma read_only_load_content row col : read_only (load_content row col).
Proof. intros s. unfold load_content. by case_match. Qed.

Lemma read_only_load_visibility row col : read_only (load_visibility row col).
Proof. intros s. unfold load_visibility. by case_match. Qed.

Ltac read_only_step :=
  first
    [ apply read_only_ret | apply read_only_raise | apply read_only_attr
    | apply read_only_load_content | apply read_only_load_visibility
    | apply read_only_bind; [|intros ?]
    | apply read_only_for_each; intros ? ?
    | match goal with
      | |- read_only (if ?b then _ else _) => destruct b
      | |- read_only (let '(_, _) := ?p in _) => destruct p
      end ].

Lemma read_only_check_bounds row col : read_only (_check_bounds row col).
Proof. unfold _check_bounds. repeat read_only_step. Qed.

Lemma read_only_get_cell_state row col : read_only (get_cell_state row col).
Proof.
  unfold get_cell_state.
  repeat first [ apply read_only_check_bounds | read_only_step ].
Qed.

Lemma read_only_get_board_display : read_only get_board_display.
Proof.
  unfold get_board_display.
  repeat first [ apply read_only_get_cell_state | read_only_step ].
Qed.


(** ** Coordinates and samples *)

Lemma elem_of_range (n x : Z) : x ∈ PyList.range n ↔ 0 ≤ x < n.
Proof.
  unfold PyList.range. rewrite list_elem_of_fmap. split.
  - intros (k & -> & Hk). apply elem_of_seq in Hk. lia.
  - intros Hx. exists (Z.to_nat x). split; [lia|]. apply elem_of_seq. lia.
Qed.

Lemma elem_of_all_cells (rc : Z * Z) : rc ∈ all_cells ↔ in_bounds rc.1 rc.2.
Proof.
  unfold all_cells, in_bounds. rewrite list_elem_of_bind. split.
  - intros (r & Hrc & Hr). apply list_elem_of_bind in Hrc as (c & Hrc & Hc).
    apply list_elem_of_singleton in Hrc as ->.
    apply elem_of_range in Hr, Hc. done.
  - intros [Hr Hc]. exists rc.1. split; [|by apply elem_of_range].
    apply list_elem_of_bind. exists rc.2. split; [|by apply elem_of_range].
    apply list_elem_of_singleton. by destruct rc.
Qed.

Lemma NoDup_all_cells : NoDup all_cells.
Proof. apply (bool_decide_unpack _). by vm_compute. Qed.

Lemma length_all_cells : length all_cells = 64%nat.
Proof. done. Qed.

Section Samples.

Context {A : Type}.
Implicit Types (population out : list A) (positions : list nat).

Lemma sample_NoDup population positions out :
  NoDup population → NoDup positions →
  Forall2 (λ i x, population !! i = Some x) positions out →
  NoDup out.
Proof.
  intros Hpop Hpos Hall.
  induction Hall as [|i x positions out Hix Hall IH]; [constructor|].
  apply NoDup_cons in Hpos as [Hi Hpos].
  apply NoDup_cons. split; [|by apply IH].
  intros Hx. apply list_elem_of_lookup in Hx as [n Hn].
  destruct (Forall2_lookup_r _ _ _ _ _ Hall Hn) as (j & Hj & Hjx).
  simpl in Hix, Hjx.
  assert (i = j) as -> by apply (NoDup_lookup _ _ _ _ Hpop Hix Hjx).
  apply Hi. apply list_elem_of_lookup. eauto.
Qed.

Lemma sample_subset population positions out :
  Forall2 (λ i x, population !! i = Some x) positions out →
  Forall (λ x, x ∈ population) out.
Proof.
  induction 1 as [|i x positions out Hix Hall IH]; constructor; [|done].
  apply list_elem_of_lookup. eauto.
Qed.

Lemma take_is_sample population (k : Z) :
  0 ≤ k ≤ Z.of_nat (length population) →
  is_sample population k (take (Z.to_nat k) population).
Proof.
  intros Hk. exists (seq 0 (Z.to_nat k)). split_and!.
  - apply NoDup_seq.
  - rewrite length_seq. lia.
  - apply Forall2_same_length_lookup_2.
    + rewrite length_seq, length_take. lia.
    + intros i n x Hn Hx. apply lookup_seq in Hn as [-> Hi].
      by rewrite lookup_take_lt in Hx.
Qed.

End Samples.

Lemma sampler_first_k : sampler first_k.
Proof. intros population k Hk. by apply take_is_sample. Qed.

Lemma sampler_proper_hazards random_sample :
  sampler random_sample → proper_hazards (random_sample all_cells 10).
Proof.
  intros Hs. destruct (Hs all_cells 10) as (positions & Hnd & Hlen & Hall).
  { rewrite length_all_cells. lia. }
  split_and!.
  - eapply sample_NoDup; [apply NoDup_all_cells|done..].
  - by rewrite <- (Forall2_length _ _ _ Hall).
  - eapply Forall_impl; [by eapply sample_subset|].
    intros rc. apply elem_of_all_cells.
Qed.

Lemma proper_hazards_PRESET_MINES : proper_hazards PRESET_MINES.
Proof.
  split_and!; [apply (bool_decide_unpack _); by vm_compute|done|].
  apply (bool_decide_unpack _). by vm_compute.
Qed.

(** ** Construction: placing the mines *)

Lemma board_store_content s r c v :
  board s → board (after (store_content r c v s)).
Proof.
  intros (Hr & Hc & Hcg & Hvg). unfold store_content.
  destruct (PyList.setitem2 _ _ _ _) as [g|] eqn:Hset; [|done].
  split_and!; [done..| |done]. by eapply setitem2_shape.
Qed.

(** The placement loop on in-bounds coordinates: it returns, and it marks
    exactly the listed cells. *)
Lemma place_loop_spec (mines : list (Z * Z)) s :
  board s → Forall (λ rc, in_bounds rc.1 rc.2) mines →
  ∃ g' t,
    for_each mines (λ '(r, c) _, store_content r c MINE) tt s
      = (Return tt, set_content_grid g' s, t) ∧
    grid_shape g' ∧
    (∀ r c, in_bounds r c →
       PyList.getitem2 g' r c =
         if decide ((r, c) ∈ mines) then Some MINE else content_at s r c) ∧
    Forall inside t.
Proof.
  intros (Hr & Hc & Hcg & Hvg) Hmines.
  destruct (for_each_prefix_inv
    (λ visited (_ : unit) s',
       ∃ g', s' = set_content_grid g' s ∧ grid_shape g' ∧
         ∀ r c, in_bounds r c →
           PyList.getitem2 g' r c =
             if decide ((r, c) ∈ visited) then Some MINE else content_at s r c)
    inside mines (λ '(r, c) _, store_content r c MINE)) with tt s
    as ([] & s' & t & Hrun & (g' & -> & Hg' & Hcells) & Ht).
  - intros visited [r c] rest [] s1 -> (g1 & -> & Hg1 & Hcells).
    assert (in_bounds r c) as Hrc.
    { rewrite Forall_app, Forall_cons in Hmines. by destruct Hmines as (_ & (? & _)). }
    destruct (setitem2_is_Some g1 r c MINE Hg1 Hrc) as [g2 Hg2].
    exists tt, (set_content_grid g2 s), [Access Content r c]. split_and!.
    + by erewrite run_store_content by done.
    + exists g2. split_and!; [done|by eapply setitem2_shape|].
      intros r' c' Hrc'.
      rewrite (getitem2_setitem2 g1 r c MINE g2 r' c') by done.
      rewrite Hcells by done.
      destruct (decide ((r', c') = (r, c))) as [Heq|Hne].
      * rewrite decide_True; [done|]. rewrite Heq, elem_of_app, list_elem_of_singleton. by right.
      * apply decide_ext. rewrite elem_of_app, list_elem_of_singleton.
        split; [by left|by intros [?|?]].
    + trace_inside.
  - exists (content_grid s). split_and!; [by destruct s|done|].
    intros r c _. rewrite decide_False; [done|]. apply not_elem_of_nil.
  - by exists g', t.
Qed.

(** ** Construction: counting the neighbouring mines *)

Lemma count_neighbouring_mines_spec s row col :
  board s →
  ∃ t, _count_neighbouring_mines row col s =
         (Return (counted_mines s row col), s, t) ∧ Forall inside t.
Proof.
  intros Hboard. pose proof Hboard as (Hr & Hc & Hcg & Hvg).
  unfold _count_neighbouring_mines, counted_mines.
  set (P := λ d : Z * Z, in_bounds (row + d.1) (col + d.2) ∧
                         content_at s (row + d.1) (col + d.2) = Some MINE).
  destruct (for_each_prefix_inv
    (λ visited counter s',
       s' = s ∧ counter = Z.of_nat (length (filter P visited)))
    inside neighbour_cells_coordinates
    (λ '(dr, dc) counter,
       let neighbour_row := row + dr in
       let neighbour_col := col + dc in
       let* inside := _check_bounds neighbour_row neighbour_col in
       if inside then
         let* v := load_content neighbour_row neighbour_col in
         if decide (v = MINE) then ret (counter + 1) else ret counter
       else ret counter)) with 0 s
    as (n & s' & t & Hrun & (-> & ->) & Ht).
  - intros visited [dr dc] rest counter s1 _ (-> & ->). cbn zeta.
    rewrite filter_app, length_app.
    destruct (decide (in_bounds (row + dr) (col + dc))) as [Hin|Hout].
    + destruct (getitem2_is_Some (content_grid s) _ _ Hcg Hin) as [v Hv].
      destruct (decide (v = MINE)) as [->|Hv'].
      * eexists _, s, _. split_and!; [by run_method|done| |trace_inside].
        rewrite filter_cons_True, filter_nil by done. cbn [length]. lia.
      * eexists _, s, _. split_and!; [by run_method|done| |trace_inside].
        rewrite filter_cons_False, filter_nil; [cbn [length]; lia|].
        intros [_ Hmine]. unfold content_at in Hmine. cbn in Hmine. congruence.
    + eexists _, s, _. split_and!; [by run_method|done| |trace_inside].
      rewrite filter_cons_False, filter_nil; [cbn [length]; lia|]. by intros [? _].
  - done.
  - by exists t.
Qed.

Lemma read_only_count_neighbouring_mines row col :
  read_only (_count_neighbouring_mines row col).
Proof.
  unfold _count_neighbouring_mines.
  repeat first [ apply read_only_check_bounds | read_only_step ].
Qed.

(** The count depends on the content grid only through which cells of the
    board hold a mine. *)
Lemma counted_mines_ext s1 s2 row col :
  (∀ r c, in_bounds r c →
     content_at s1 r c = Some MINE ↔ content_at s2 r c = Some MINE) →
  counted_mines s1 row col = counted_mines s2 row col.
Proof.
  intros Hext. unfold counted_mines. do 2 f_equal.
  apply list_filter_iff. intros [dr dc]. cbn. split.
  - intros [Hin Hm]. split; [done|]. by apply Hext.
  - intros [Hin Hm]. split; [done|]. by apply Hext.
Qed.

Lemma counted_mines_not_MINE s row col : counted_mines s row col ≠ MINE.
Proof. unfold counted_mines, MINE. lia. Qed.

(** ** Construction: the pass that writes the counts *)

Section Calculate.

Variable s0 : Minesweeper.
Hypothesis Hboard0 : board s0.

Lemma counts_written_init : counts_written s0 (λ _ _, False) s0.
Proof.
  exists (content_grid s0). split_and!; [by destruct s0|by apply Hboard0|].
  intros r c Hrc. unfold content_at. by split_and!.
Qed.

Lemma counts_written_weaken (D D' : Z → Z → Prop) s :
  counts_written s0 D s →
  (∀ r c, in_bounds r c → D' r c → D r c) →
  counts_written s0 D' s.
Proof.
  intros (g' & -> & Hg' & Hcells) HD. exists g'. split_and!; [done..|].
  intros r c Hrc. destruct (Hcells r c Hrc) as [Hm Hs]. split; [done|].
  intros Hne. destruct (Hs Hne) as [? Hw]. split; [done|]. intros ?.
  apply Hw. by apply HD.
Qed.

Lemma counts_written_board D s : counts_written s0 D s → board s.
Proof.
  intros (g' & -> & Hg' & _). destruct Hboard0 as (Hr & Hc & Hcg & Hvg).
  by split_and!.
Qed.

Lemma counts_written_mines D s r c :
  counts_written s0 D s → in_bounds r c →
  content_at s r c = Some MINE ↔ content_at s0 r c = Some MINE.
Proof.
  intros (g' & -> & Hg' & Hcells) Hrc. destruct (Hcells r c Hrc) as [Hm Hs].
  unfold content_at at 1. cbn. split; [|done].
  intros Hmine. destruct (decide (content_at s0 r c = Some MINE)); [done|].
  by destruct Hs.
Qed.

(** One cell of the pass (lines 121-122). *)
Lemma calculate_cell D s row col :
  counts_written s0 D s → in_bounds row col →
  ∃ s' t,
    (let* v := load_content row col in
     if decide (v ≠ MINE) then
       let* n := _count_neighbouring_mines row col in
       store_content row col n
     else ret tt) s = (Return tt, s', t) ∧
    counts_written s0 (λ r c, D r c ∨ (r = row ∧ c = col)) s' ∧
    Forall inside t.
Proof.
  intros HK Hin. pose proof (counts_written_board _ _ HK) as Hboard.
  pose proof Hboard as (Hr & Hc & Hcg & Hvg).
  destruct (getitem2_is_Some (content_grid s) row col Hcg Hin) as [v Hv].
  destruct (decide (v = MINE)) as [->|Hv'].
  - exists s, [Access Content row col]. split_and!; [by run_method| |trace_inside].
    pose proof (proj1 (counts_written_mines _ _ _ _ HK Hin) Hv) as Hmine0.
    destruct HK as (g' & -> & Hg' & Hcells). exists g'. split_and!; [done..|].
    intros r c Hrc. destruct (Hcells r c Hrc) as [Hm Hs]. split; [done|].
    intros Hne. destruct (Hs Hne) as [? Hw]. split; [done|].
    intros [?|[-> ->]]; [by apply Hw|done].
  - destruct (count_neighbouring_mines_spec s row col Hboard) as (t & Hcount & Ht).
    assert (counted_mines s row col = counted_mines s0 row col) as Hsame.
    { apply counted_mines_ext. intros r c Hrc. by eapply counts_written_mines. }
    rewrite Hsame in Hcount.
    destruct (setitem2_is_Some (content_grid s) row col
                (counted_mines s0 row col) Hcg Hin) as [g2 Hg2].
    exists (set_content_grid g2 s), ([Access Content row col] ++ t ++ [Access Content row col]).
    split_and!.
    + run_method. rewrite Hcount. by run_method.
    + assert (content_at s0 row col ≠ Some MINE) as Hsafe0.
      { intros Hmine0. apply (counts_written_mines _ _ _ _ HK Hin) in Hmine0.
        unfold content_at in Hmine0. congruence. }
      destruct HK as (g' & -> & Hg' & Hcells). exists g2.
      split_and!; [done|by eapply setitem2_shape|].
      intros r c Hrc. cbn in Hg2.
      rewrite (getitem2_setitem2 g' row col _ g2 r c) by done.
      destruct (Hcells r c Hrc) as [Hm Hs].
      destruct (decide ((r, c) = (row, col))) as [Heq|Hne].
      * simplify_eq. split; [done|]. intros _. split; [|done].
        intros Heq. simplify_eq. by eapply counted_mines_not_MINE.
      * split; [done|]. intros Hne0. destruct (Hs Hne0) as [? Hw].
        split; [done|]. intros [?|[-> ->]]; [by apply Hw|done].
    + apply Forall_app. split; [trace_inside|].
      apply Forall_app. split; [done|trace_inside].
Qed.

(** One row of the pass (lines 120-122). *)
Lemma calculate_row (visited : list Z) s row :
  counts_written s0 (λ r _, r ∈ visited) s → 0 ≤ row < 8 →
  ∃ s' t,
    (let* ncols := attr cols in
     for_each (PyList.range ncols) (λ col _,
       let* v := load_content row col in
       if decide (v ≠ MINE) then
         let* n := _count_neighbouring_mines row col in
         store_content row col n
       else ret tt) tt) s = (Return tt, s', t) ∧
    counts_written s0 (λ r _, r ∈ visited ++ [row]) s' ∧
    Forall inside t.
Proof.
  intros HK Hrow. pose proof (counts_written_board _ _ HK) as (Hr & Hc & _).
  destruct (for_each_prefix_inv
    (λ seen (_ : unit) s',
       counts_written s0 (λ r c, r ∈ visited ∨ (r = row ∧ c ∈ seen)) s')
    inside (PyList.range 8)
    (λ col _,
       let* v := load_content row col in
       if decide (v ≠ MINE) then
         let* n := _count_neighbouring_mines row col in
         store_content row col n
       else ret tt)) with tt s
    as ([] & s' & t & Hrun & HK' & Ht).
  - intros seen col rest [] s1 Hsplit HK1.
    assert (in_bounds row col) as Hin.
    { split; [done|]. apply elem_of_range. rewrite Hsplit.
      apply elem_of_app. right. by left. }
    destruct (calculate_cell _ s1 row col HK1 Hin) as (s2 & t2 & Hrun & HK2 & Ht2).
    exists tt, s2, t2. split_and!; [done| |done].
    eapply counts_written_weaken; [exact HK2|].
    intros r c _ [?|[-> Hc']]; [by left; left|].
    apply elem_of_app in Hc' as [?|Hc']; [left; right; done|].
    apply list_elem_of_singleton in Hc' as ->. by right.
  - eapply counts_written_weaken; [exact HK|].
    intros r c _ [?|[_ Hnil]]; [done|]. by apply not_elem_of_nil in Hnil.
  - exists s', t. split_and!; [|  |done].
    + run_method. by rewrite Hc, Hrun.
    + eapply counts_written_weaken; [exact HK'|].
      intros r c [_ Hc'] Hr'. apply elem_of_app in Hr' as [?|Hr']; [by left|].
      apply list_elem_of_singleton in Hr' as ->. right. split; [done|].
      by apply elem_of_range.
Qed.

(** The pass returns, touches the content grid only, keeps the mines and
    writes into every other cell the count of the mines around it, as
    they were placed. *)
Lemma calculate_neighbour_mines_spec :
  ∃ g' t,
    _calculate_neighbour_mines s0 = (Return tt, set_content_grid g' s0, t) ∧
    grid_shape g' ∧
    (∀ r c, in_bounds r c →
       PyList.getitem2 g' r c =
         if decide (content_at s0 r c = Some MINE) then Some MINE
         else Some (counted_mines s0 r c)) ∧
    Forall inside t.
Proof.
  pose proof Hboard0 as (Hr & Hc & _).
  destruct (for_each_prefix_inv
    (λ visited (_ : unit) s', counts_written s0 (λ r _, r ∈ visited) s')
    inside (PyList.range 8)
    (λ row _,
       let* ncols := attr cols in
       for_each (PyList.range ncols) (λ col _,
         let* v := load_content row col in
         if decide (v ≠ MINE) then
           let* n := _count_neighbouring_mines row col in
           store_content row col n
         else ret tt) tt)) with tt s0
    as ([] & s' & t & Hrun & (g' & -> & Hg' & Hcells) & Ht).
  - intros visited row rest [] s1 Hsplit HK1.
    assert (0 ≤ row < 8) as Hrow.
    { apply elem_of_range. rewrite Hsplit. apply elem_of_app. right. by left. }
    destruct (calculate_row visited s1 row HK1 Hrow) as (s2 & t2 & ? & ? & ?).
    by exists tt, s2, t2.
  - eapply counts_written_weaken; [apply counts_written_init|].
    intros r c _ Hnil. by apply not_elem_of_nil in Hnil.
  - exists g', t. split_and!; [|done| |done].
    + unfold _calculate_neighbour_mines. run_method. by rewrite Hr, Hrun.
    + intros r c Hrc. destruct (Hcells r c Hrc) as [Hm Hs].
      case_decide as Hmine; [by apply Hm|].
      apply Hs; [done|]. apply elem_of_range. by destruct Hrc.
Qed.

End Calculate.

(** ** Counting cells *)

Section Counting.

Context {A : Type}.
Implicit Types (P Q : A → Prop) (l : list A).

Lemma filter_ext_elem P Q `{!∀ x, Decision (P x), !∀ x, Decision (Q x)} l :
  (∀ x, x ∈ l → P x ↔ Q x) → filter P l = filter Q l.
Proof.
  induction l as [|a l IH]; intros Hext; [done|].
  rewrite !filter_cons, IH by (intros x Hx; apply Hext; by right).
  apply decide_ext, Hext. by left.
Qed.

Lemma filter_fmap_length {B} (f : B → A) P `{!∀ x, Decision (P x)} (k : list B) :
  length (filter P (f <$> k)) = length (filter (λ x, P (f x)) k).
Proof.
  induction k as [|b k IH]; [done|].
  rewrite fmap_cons, !filter_cons. case_decide; cbn [length]; by rewrite IH.
Qed.

Lemma filter_complement_length P `{!∀ x, Decision (P x)} l :
  (length (filter P l) + length (filter (λ x, ¬ P x) l) = length l)%nat.
Proof.
  induction l as [|a l IH]; [done|].
  rewrite !filter_cons. destruct (decide (P a)).
  - rewrite decide_False by tauto. cbn [length]. lia.
  - rewrite decide_True by done. cbn [length]. lia.
Qed.

(** Two predicates that differ on a single element of a duplicate-free
    list select one element more and one element less. *)
Lemma filter_one_less P Q `{!∀ x, Decision (P x), !∀ x, Decision (Q x)} l x :
  NoDup l → x ∈ l → P x → ¬ Q x → (∀ y, y ∈ l → y ≠ x → P y ↔ Q y) →
  length (filter P l) = S (length (filter Q l)).
Proof.
  intros Hnd Hx HP HQ Hext. induction Hnd as [|a l Ha Hnd IH]; [by inv Hx|].
  rewrite !filter_cons. apply elem_of_cons in Hx as [->|Hx].
  - rewrite decide_True, decide_False by done. cbn [length]. f_equal.
    f_equal. apply filter_ext_elem. intros y Hy.
    apply Hext; [by right|by intros ->].
  - assert (a ≠ x) as Hne by (by intros ->).
    assert (P a ↔ Q a) as Ha' by (apply Hext; [by left|done]).
    rewrite (decide_ext _ _ _ _ Ha').
    assert (length (filter P l) = S (length (filter Q l))) as IH'.
    { apply IH; [done|]. intros y Hy. apply Hext. by right. }
    case_decide; cbn [length]; by rewrite IH'.
Qed.

(** A duplicate-free list inside a duplicate-free universe is counted in
    full by a scan of the universe. *)
Lemma filter_elem_of_length `{!EqDecision A} (k l : list A) :
  NoDup k → NoDup l → (∀ x, x ∈ k → x ∈ l) →
  length (filter (λ x, x ∈ k) l) = length k.
Proof.
  intros Hk Hl Hsub. apply Permutation_length, NoDup_Permutation; [|done|].
  - by apply NoDup_filter.
  - intros x. rewrite list_elem_of_filter. split; [by intros [? _]|].
    intros Hx. split; [done|by apply Hsub].
Qed.

End Counting.

(** Exploding a grid of known shape into its 64 cells. *)
Ltac explode_line l H :=
  do 8 (destruct l as [|? l]; [done|]); destruct l; [clear H|done].

Ltac explode_grid g Hg :=
  let Hlen := fresh "Hlen" in
  let Hall := fresh "Hall" in
  destruct Hg as [Hlen Hall];
  do 8 (destruct g as [|? g]; [done|]); destruct g; [clear Hlen|done];
  repeat match goal with
    | H : Forall _ (_ :: _) |- _ => apply Forall_cons in H as [? H]
    | H : Forall _ [] |- _ => clear H
    end;
  repeat match goal with
    | H : length ?l = 8%nat |- _ => explode_line l H
    end.

(** The row scan of the tests sees the cells of the board in the order of
    [all_cells]. *)
Lemma concat_all_cells {A} (g : list (list A)) :
  grid_shape g →
  Some <$> concat g = (λ rc, PyList.getitem2 g rc.1 rc.2) <$> all_cells.
Proof. intros Hg. explode_grid g Hg. reflexivity. Qed.

Lemma mine_count_cells (g : list (list Z)) :
  grid_shape g →
  mine_count g =
    Z.of_nat (length (filter (λ rc, PyList.getitem2 g rc.1 rc.2 = Some MINE) all_cells)).
Proof.
  intros Hg. unfold mine_count. f_equal.
  trans (length (filter (λ o, o = Some MINE)
                   ((λ rc, PyList.getitem2 g rc.1 rc.2) <$> all_cells))).
  - rewrite <- (concat_all_cells g Hg), filter_fmap_length.
    f_equal. apply list_filter_iff. intros v. split; congruence.
  - apply filter_fmap_length.
Qed.

(** ** The eight offsets are the cells that touch *)

Lemma offsets_adjacent (row col : Z) (rc : Z * Z) :
  (∃ d, rc = (row + d.1, col + d.2) ∧ d ∈ neighbour_cells_coordinates)
  ↔ adjacent (row, col) rc.
Proof.
  unfold adjacent, neighbour_cells_coordinates. destruct rc as [r c]. cbn. split.
  - intros ([dr dc] & Heq & Hd). cbn in Heq. simplify_eq.
    repeat (apply elem_of_cons in Hd as [Hd|Hd]; [simplify_eq; split_and!; [intros ?; simplify_eq; lia|lia..]|]).
    by apply not_elem_of_nil in Hd.
  - intros (Hne & Hr & Hc). exists (r - row, c - col). cbn. split; [f_equal; lia|].
    remember (r - row) as dr eqn:Hdr. remember (c - col) as dc eqn:Hdc.
    assert (dr = -1 ∨ dr = 0 ∨ dr = 1) as Hdr' by lia.
    assert (dc = -1 ∨ dc = 0 ∨ dc = 1) as Hdc' by lia.
    assert (¬ (dr = 0 ∧ dc = 0)) as Hnz.
    { intros [-> ->]. apply Hne. f_equal; lia. }
    clear -Hdr' Hdc' Hnz.
    destruct Hdr' as [-> | [-> | ->]], Hdc' as [-> | [-> | ->]];
      try (by apply (bool_decide_unpack _); vm_compute).
    by destruct Hnz.
Qed.

Lemma NoDup_neighbour_cells_coordinates : NoDup neighbour_cells_coordinates.
Proof. apply (bool_decide_unpack _). by vm_compute. Qed.

(** The count over the eight offsets, with its bounds check, is the count
    over the cells of the board that touch. *)
Lemma offsets_count_adjacent (h : Z * Z → Prop) `{!∀ x, Decision (h x)} row col :
  length (filter (λ d, in_bounds (row + d.1) (col + d.2) ∧ h (row + d.1, col + d.2))
            neighbour_cells_coordinates)
  = length (filter (λ rc, adjacent (row, col) rc ∧ h rc) all_cells).
Proof.
  set (f := λ d : Z * Z, (row + d.1, col + d.2)).
  trans (length (filter h (filter (λ rc, in_bounds rc.1 rc.2)
                             (f <$> neighbour_cells_coordinates)))).
  { rewrite list_filter_filter.
    rewrite (filter_fmap_length f (λ rc, h rc ∧ in_bounds rc.1 rc.2)).
    f_equal. apply list_filter_iff. intros d. cbn. tauto. }
  trans (length (filter h (filter (adjacent (row, col)) all_cells))).
  2:{ rewrite list_filter_filter. f_equal. apply list_filter_iff. intros rc. tauto. }
  apply Permutation_length. apply filter_Permutation.
  apply NoDup_Permutation.
  - apply NoDup_filter, NoDup_fmap_2_strong; [|apply NoDup_neighbour_cells_coordinates].
    intros [a b] [a' b'] _ _ Heq. unfold f in Heq. cbn in Heq. simplify_eq.
    f_equal; lia.
  - apply NoDup_filter, NoDup_all_cells.
  - intros rc. rewrite !list_elem_of_filter, list_elem_of_fmap, elem_of_all_cells.
    rewrite <- (offsets_adjacent row col rc). tauto.
Qed.

(** ** Construction as a whole *)

Lemma board_place_mines random_sample s :
  board s → board (after (_place_mines random_sample s)).
Proof.
  intros Hs. unfold _place_mines.
  apply after_bind_inv; [done|]. intros [mines|] s1 Hs1.
  - apply for_each_after_inv; [|done].
    intros [r c] [] ? _. apply board_store_content.
  - repeat (apply after_bind_inv; [done|]; intros ? ? ?).
    apply for_each_after_inv; [|done].
    intros [r c] [] ? _. apply board_store_content.
Qed.

Lemma place_mines_spec random_sample s :
  board s → number_mines s = 10 →
  Forall (λ rc, in_bounds rc.1 rc.2) (hazards_placed random_sample (preset_mines s)) →
  ∃ g' t,
    _place_mines random_sample s = (Return tt, set_content_grid g' s, t) ∧
    grid_shape g' ∧
    (∀ r c, in_bounds r c →
       PyList.getitem2 g' r c =
         if decide ((r, c) ∈ hazards_placed random_sample (preset_mines s))
         then Some MINE else content_at s r c) ∧
    Forall inside t.
Proof.
  intros Hs Hn. pose proof Hs as (Hr & Hc & _).
  destruct (preset_mines s) as [mines|] eqn:Hpreset; cbn [hazards_placed];
    intros Hmines;
    destruct (place_loop_spec _ s Hs Hmines) as (g' & t & Hrun & ? & ? & ?);
    exists g', t; (split_and!; [|done..]);
    unfold _place_mines; run_method; rewrite Hpreset.
  - by rewrite Hrun.
  - run_method. unfold all_cells in Hrun. by rewrite Hr, Hc, Hn, Hrun.
Qed.

Lemma board_calculate_neighbour_mines s :
  board s → board (after (_calculate_neighbour_mines s)).
Proof.
  intros Hs. pose proof Hs as (Hr & Hc & Hcg & Hvg).
  destruct (calculate_neighbour_mines_spec s Hs) as (g' & t & -> & Hg' & _).
  by split_and!.
Qed.

(** The object every constructor call returns has the shape of a board,
    whatever the preset list is. *)
Lemma board_init random_sample preset :
  board (after (__init__ random_sample preset)).
Proof.
  unfold __init__. cbv zeta.
  apply after_bind_inv.
  - apply board_place_mines. split_and!; [done..| |]; (split; [done|]);
      by apply (bool_decide_unpack _); vm_compute.
  - intros [] s1 Hs1. by apply board_calculate_neighbour_mines.
Qed.

(** Construction with in-bounds hazard coordinates: it returns a board in
    phase PLAYING with counter 54 and every cell hidden; the listed cells
    hold a mine and all the others the count of the mines they touch. *)
Lemma init_spec random_sample preset :
  let mines := hazards_placed random_sample preset in
  Forall (λ rc, in_bounds rc.1 rc.2) mines →
  ∃ s0 t,
    __init__ random_sample preset = (Return tt, s0, t) ∧
    board s0 ∧ game_state s0 = PLAYING ∧ counter_safe_cells s0 = 54 ∧
    number_mines s0 = 10 ∧
    (∀ r c, in_bounds r c →
       visibility_at s0 r c = Some HIDDEN ∧
       content_at s0 r c =
         if decide ((r, c) ∈ mines) then Some MINE
         else Some (hazard_neighbours mines r c)) ∧
    Forall inside t.
Proof.
  intros mines Hmines. unfold __init__. cbv zeta.
  set (self := mkMinesweeper _ _ _ _ _ _ _ _).
  assert (board self) as Hself.
  { split_and!; [done..| |]; (split; [done|]);
      by apply (bool_decide_unpack _); vm_compute. }
  assert (∀ r c, in_bounds r c →
            content_at self r c = Some 0 ∧ visibility_at self r c = Some HIDDEN)
    as Hfresh.
  { intros r c Hrc.
    assert (Forall (λ rc, content_at self rc.1 rc.2 = Some 0 ∧
                          visibility_at self rc.1 rc.2 = Some HIDDEN) all_cells)
      as Hall by (by apply (bool_decide_unpack _); vm_compute).
    rewrite Forall_forall in Hall. by apply (Hall (r, c)), elem_of_all_cells. }
  destruct (place_mines_spec random_sample self Hself eq_refl Hmines)
    as (g1 & t1 & Hrun1 & Hg1 & Hcells1 & Ht1).
  set (s1 := set_content_grid g1 self) in *.
  assert (board s1) as Hs1 by (by destruct Hself as (? & ? & ? & ?)).
  destruct (calculate_neighbour_mines_spec s1 Hs1)
    as (g2 & t2 & Hrun2 & Hg2 & Hcells2 & Ht2).
  assert (∀ r c, in_bounds r c →
            content_at s1 r c = Some MINE ↔ (r, c) ∈ mines) as Hmine1.
  { intros r c Hrc. unfold content_at, s1. cbn [content_grid set_content_grid].
    rewrite Hcells1 by done. fold mines. case_decide; [done|].
    destruct (Hfresh r c Hrc) as [-> _]. split; [|done]. intros; simplify_eq. }
  exists (set_content_grid g2 s1), (t1 ++ t2). split_and!.
  - run_method. rewrite Hrun1, Hrun2. done.
  - by destruct Hs1 as (? & ? & ? & ?).
  - done.
  - done.
  - done.
  - intros r c Hrc. split; [by apply Hfresh|].
    unfold content_at. cbn [content_grid set_content_grid].
    rewrite Hcells2 by done.
    rewrite (decide_ext _ _ _ _ (Hmine1 r c Hrc)). case_decide; [done|].
    f_equal. unfold counted_mines, hazard_neighbours. f_equal.
    rewrite <- (offsets_count_adjacent (λ rc, rc ∈ mines) r c).
    f_equal. apply list_filter_iff. intros [dr dc]. cbn. split.
    + intros [Hin Hm]. split; [done|]. by apply Hmine1.
    + intros [Hin Hm]. split; [done|]. by apply Hmine1.
  - by apply Forall_app.
Qed.

(** ** Reachable states are boards *)

Lemma revealed_state_grids s g' c :
  rows (revealed_state s g' c) = rows s ∧
  cols (revealed_state s g' c) = cols s ∧
  content_grid (revealed_state s g' c) = content_grid s ∧
  visibility_grid (revealed_state s g' c) = g'.
Proof. unfold revealed_state. by repeat case_decide. Qed.

Lemma board_step s c : board s → board (step s c).
Proof.
  intros Hs. pose proof Hs as (Hr & Hc & Hcg & Hvg).
  unfold step. destruct c as [row col|row col]; cbn [run_command].
  - destruct (reveal_cases s row col Hs)
      as [[_ ->]|[(_ & _ & ->)|[(_ & _ & _ & ->)|[(_ & _ & _ & ->)|
          (_ & Hin & _ & g' & c & Hg' & _ & ->)]]]]; try done.
    unfold after, board; cbn [fst snd].
    destruct (revealed_state_grids s g' c) as (-> & -> & -> & ->).
    split_and!; [done..|]. by eapply setitem2_shape.
  - destruct (flag_cases s row col Hs)
      as [[_ ->]|[(_ & _ & ->)|[(_ & _ & _ & ->)|
          (_ & Hin & v & g' & _ & _ & Hg' & ->)]]]; try done.
    split_and!; [done..|]. by eapply setitem2_shape.
Qed.

Lemma board_play s cs : board s → board (play s cs).
Proof.
  revert s. induction cs as [|c cs IH]; intros s Hs; [done|].
  cbn. by apply IH, board_step.
Qed.

Lemma constructed_board s : constructed s → board s.
Proof.
  intros (random_sample & preset & tr & _ & Hinit).
  pose proof (board_init random_sample preset) as Hboard.
  by rewrite Hinit in Hboard.
Qed.

Lemma reachable_board s : reachable s → board s.
Proof.
  intros (s0 & cs & Hs0 & ->). by apply board_play, constructed_board.
Qed.

Lemma reachable_play s cs : reachable s → reachable (play s cs).
Proof.
  intros (s0 & cs0 & Hs0 & ->). exists s0, (cs0 ++ cs). split; [done|].
  unfold play. by rewrite foldl_app.
Qed.

Lemma constructed_preset_game : constructed preset_game.
Proof.
  exists first_k, (Some PRESET_MINES).
  eexists. split; [apply sampler_first_k|]. by vm_compute.
Qed.

Lemma reachable_constructed s : constructed s → reachable s.
Proof. intros Hs. by exists s, []. Qed.

Lemma reachable_preset_game : reachable preset_game.
Proof. apply reachable_constructed, constructed_preset_game. Qed.

Lemma board_preset_game : board preset_game.
Proof. apply constructed_board, constructed_preset_game. Qed.

(** ** The test suite on the preset board *)

Example test_initial_state :
  result (get_game_state preset_game) = Return PLAYING ∧
  result (get_mines_count preset_game) = Return 10 ∧
  counter_safe_cells preset_game = 54 ∧
  mine_count (content_grid preset_game) = 10.
Proof. by vm_compute. Qed.

Example test_neighbour_counts :
  content_at preset_game 0 0 = Some MINE ∧
  content_at preset_game 0 1 = Some 1 ∧
  content_at preset_game 1 2 = Some 2.
Proof. by vm_compute. Qed.

Example test_reveal_safe_cell :
  result (get_cell_state 0 1 (play preset_game [Reveal 0 1])) = Return (Int 1).
Proof. by vm_compute. Qed.

Example test_reveal_mine_game_over :
  game_state (play preset_game [Reveal 0 0]) = GAME_OVER ∧
  result (get_cell_state 0 0 (play preset_game [Reveal 0 0])) = Return (Str "*") ∧
  result (reveal 0 1 (play preset_game [Reveal 0 0]))
    = Raise (RuntimeError "Game is over").
Proof. by vm_compute. Qed.

Example test_reveal_rejected :
  result (reveal 0 10 preset_game) = Raise (ValueError "Move is out of bounds") ∧
  result (reveal 0 1 (play preset_game [Reveal 0 1]))
    = Raise (ValueError "Cell is already revealed") ∧
  result (reveal 0 1 (play preset_game [Flag 0 1]))
    = Raise (ValueError "Cell is flagged, unflag first") ∧
  result (reveal 0 1 (play preset_game [Flag 0 1; Flag 0 1])) = Return tt.
Proof. by vm_compute. Qed.

Example test_win_condition :
  length safe_reveals = 54%nat ∧
  game_state (play preset_game safe_reveals) = WON ∧
  game_state (play preset_game (take 53 safe_reveals)) = PLAYING.
Proof. by vm_compute. Qed.

(** * The claims *)

(** C1: in every reachable state in phase PLAYING, revealing an in-bounds
    HIDDEN cell succeeds and leaves that cell REVEALED; when the cell holds
    a mine the phase becomes GAME_OVER (lost); otherwise the counter of safe
    cells decreases by exactly one, and the phase becomes WON if and only if
    the counter has thereby reached 0 and stays PLAYING otherwise. *)
Theorem reveal_hidden_cell (s : Minesweeper) (row col : Z) :
  reachable s → game_state s = PLAYING → in_bounds row col →
  visibility_at s row col = Some HIDDEN →
  ∃ c, content_at s row col = Some c ∧
    let s' := after (reveal row col s) in
    result (reveal row col s) = Return tt ∧
    visibility_at s' row col = Some REVEALED ∧
    (c = MINE → game_state s' = GAME_OVER) ∧
    (c ≠ MINE →
       counter_safe_cells s' = counter_safe_cells s - 1 ∧
       (game_state s' = WON ↔ counter_safe_cells s' = 0) ∧
       (counter_safe_cells s' ≠ 0 → game_state s' = PLAYING)).
Proof.
  intros Hreach Hphase Hin Hhidden.
  pose proof (reachable_board s Hreach) as Hs.
  pose proof Hs as (Hr & Hc & Hcg & Hvg).
  destruct (reveal_cases s row col Hs)
    as [[? _]|[(_ & ? & _)|[(_ & _ & ? & _)|[(_ & _ & ? & _)|
        (_ & _ & _ & g' & c & Hg' & Hcontent & Hrun)]]]]; try congruence.
  exists c. split; [done|]. rewrite Hrun. unfold after, result; cbn [fst snd].
  split_and!; [done| | |].
  - unfold visibility_at.
    destruct (revealed_state_grids s g' c) as (_ & _ & _ & ->).
    rewrite (getitem2_setitem2 _ row col REVEALED g' row col) by done.
    by rewrite decide_True.
  - intros ->. unfold revealed_state. by rewrite decide_True.
  - intros Hsafe. unfold revealed_state. rewrite decide_False by done.
    case_decide as Hzero; cbn; rewrite ?Hphase; split_and!; try done; lia.
Qed.

Lemma reveal_hidden_cell_witness :
  ∃ c, content_at preset_game 0 1 = Some c ∧
    let s' := after (reveal 0 1 preset_game) in
    result (reveal 0 1 preset_game) = Return tt ∧
    visibility_at s' 0 1 = Some REVEALED ∧
    (c = MINE → game_state s' = GAME_OVER) ∧
    (c ≠ MINE →
       counter_safe_cells s' = counter_safe_cells preset_game - 1 ∧
       (game_state s' = WON ↔ counter_safe_cells s' = 0) ∧
       (counter_safe_cells s' ≠ 0 → game_state s' = PLAYING)).
Proof.
  apply (reveal_hidden_cell preset_game 0 1).
  - apply reachable_preset_game.
  - vm_compute. reflexivity.
  - unfold in_bounds. lia.
  - vm_compute. reflexivity.
Defined.

(** C4: on every board state, [reveal] raises RuntimeError (the spec's
    GameOverError) exactly when the phase is not PLAYING; in phase PLAYING
    it raises ValueError (the spec's InvalidMoveError) exactly when the
    coordinate is out of bounds or the cell is REVEALED or FLAGGED, and
    returns otherwise.  [flag] (the spec's toggle_flag) raises RuntimeError
    exactly when the phase is not PLAYING; in phase PLAYING it raises
    ValueError exactly when the coordinate is out of bounds or the cell is
    REVEALED, and returns otherwise. *)
Theorem command_errors (s : Minesweeper) (row col : Z) :
  board s →
  ((∃ msg, result (reveal row col s) = Raise (RuntimeError msg))
     ↔ game_state s ≠ PLAYING) ∧
  (game_state s = PLAYING →
     ((∃ msg, result (reveal row col s) = Raise (ValueError msg))
        ↔ (¬ in_bounds row col ∨ visibility_at s row col = Some REVEALED ∨
           visibility_at s row col = Some FLAGGED)) ∧
     (¬ (¬ in_bounds row col ∨ visibility_at s row col = Some REVEALED ∨
         visibility_at s row col = Some FLAGGED) →
      result (reveal row col s) = Return tt)) ∧
  ((∃ msg, result (flag row col s) = Raise (RuntimeError msg))
     ↔ game_state s ≠ PLAYING) ∧
  (game_state s = PLAYING →
     ((∃ msg, result (flag row col s) = Raise (ValueError msg))
        ↔ (¬ in_bounds row col ∨ visibility_at s row col = Some REVEALED)) ∧
     (¬ (¬ in_bounds row col ∨ visibility_at s row col = Some REVEALED) →
      result (flag row col s) = Return tt)).
Proof.
  intros Hs. split_and!.
  - destruct (reveal_cases s row col Hs)
      as [[? ->]|[(? & ? & ->)|[(? & ? & ? & ->)|[(? & ? & ? & ->)|
          (? & ? & ? & g' & c & _ & _ & ->)]]]]; unfold result; cbn [fst snd];
      (split; [by intros [? ?]|intros ?; by eauto]).
  - intros Hphase.
    destruct (reveal_cases s row col Hs)
      as [[? _]|[(_ & ? & ->)|[(_ & ? & Hv & ->)|[(_ & ? & Hv & ->)|
          (_ & ? & Hv & g' & c & _ & _ & ->)]]]]; [done|..];
      unfold result; cbn [fst snd]; rewrite ?Hv.
    + split; [split; eauto|tauto].
    + split; [split; eauto|tauto].
    + split; [split; eauto|tauto].
    + split; [|done]. split; [by intros [? ?]|].
      intros [?|[?|?]]; done.
  - destruct (flag_cases s row col Hs)
      as [[? ->]|[(? & ? & ->)|[(? & ? & ? & ->)|
          (? & ? & v & g' & _ & _ & _ & ->)]]]; unfold result; cbn [fst snd];
      (split; [by intros [? ?]|intros ?; by eauto]).
  - intros Hphase.
    destruct (flag_cases s row col Hs)
      as [[? _]|[(_ & ? & ->)|[(_ & ? & Hv & ->)|
          (_ & ? & v & g' & Hv & ? & _ & ->)]]]; [done|..];
      unfold result; cbn [fst snd]; rewrite ?Hv.
    + split; [split; eauto|tauto].
    + split; [split; eauto|tauto].
    + split; [|done]. split; [by intros [? ?]|].
      intros [?|?]; [done|congruence].
Qed.

Lemma command_errors_witness :
  result (reveal 0 1 preset_game) = Return tt ∧
  result (flag 0 1 preset_game) = Return tt ∧
  ((∃ msg, result (reveal 0 10 preset_game) = Raise (ValueError msg))
     ↔ (¬ in_bounds 0 10 ∨ visibility_at preset_game 0 10 = Some REVEALED ∨
        visibility_at preset_game 0 10 = Some FLAGGED)).
Proof.
  destruct (command_errors preset_game 0 1 board_preset_game)
    as (_ & Hreveal & _ & Hflag).
  destruct (command_errors preset_game 0 10 board_preset_game)
    as (_ & Hout & _).
  split_and!.
  - apply Hreveal; [vm_compute; reflexivity|].
    intros [H|[H|H]]; [apply H; unfold in_bounds; lia|vm_compute in H; discriminate..].
  - apply Hflag; [vm_compute; reflexivity|].
    intros [H|H]; [apply H; unfold in_bounds; lia|vm_compute in H; discriminate].
  - apply Hout. vm_compute. reflexivity.
Defined.

(** C5: on every board state, a [reveal] or a [flag] that raises leaves
    the whole state (content grid, visibility grid, counter of safe cells,
    phase and every other attribute) exactly as it was before the call. *)
Theorem failed_command_is_noop (s : Minesweeper) (row col : Z) (e : exn) :
  board s →
  (result (reveal row col s) = Raise e → after (reveal row col s) = s) ∧
  (result (flag row col s) = Raise e → after (flag row col s) = s).
Proof.
  intros Hs. split.
  - destruct (reveal_cases s row col Hs)
      as [[? ->]|[(? & ? & ->)|[(? & ? & ? & ->)|[(? & ? & ? & ->)|
          (? & ? & ? & g' & c & _ & _ & ->)]]]]; done.
  - destruct (flag_cases s row col Hs)
      as [[? ->]|[(? & ? & ->)|[(? & ? & ? & ->)|
          (? & ? & v & g' & _ & _ & _ & ->)]]]; done.
Qed.

Lemma failed_command_is_noop_witness :
  after (reveal 0 10 preset_game) = preset_game ∧
  after (flag 0 10 preset_game) = preset_game.
Proof.
  destruct (failed_command_is_noop preset_game 0 10
              (ValueError "Move is out of bounds") board_preset_game)
    as [Hreveal Hflag].
  split; [apply Hreveal|apply Hflag]; vm_compute; reflexivity.
Defined.

(** C6: in every state reachable from a constructed board, once the phase
    is GAME_OVER (lost) or WON, no sequence of further [reveal] and [flag]
    calls changes the visibility of any cell or the phase: the phase never
    leaves GAME_OVER or WON, and indeed no attribute changes. *)
Theorem terminal_phase_is_final (s : Minesweeper) (cs : list command) :
  reachable s → game_state s ≠ PLAYING →
  visibility_grid (play s cs) = visibility_grid s ∧
  game_state (play s cs) = game_state s ∧
  game_state (play s cs) ≠ PLAYING ∧
  play s cs = s.
Proof.
  intros Hreach Hphase. pose proof (reachable_board s Hreach) as Hs.
  assert (play s cs = s) as ->; [|done].
  induction cs as [|c cs IH]; [done|].
  cbn [play foldl]. fold (play (step s c) cs).
  assert (step s c = s) as ->; [|done].
  unfold step. destruct c as [row col|row col]; cbn [run_command].
  - destruct (reveal_cases s row col Hs)
      as [[_ ->]|[(? & _)|[(? & _)|[(? & _)|(? & _)]]]]; done.
  - destruct (flag_cases s row col Hs)
      as [[_ ->]|[(? & _)|[(? & _)|(? & _)]]]; done.
Qed.

Lemma terminal_phase_is_final_witness :
  let s := play preset_game [Reveal 0 0] in
  let cs := [Reveal 0 1; Flag 2 2; Reveal 0 0] in
  visibility_grid (play s cs) = visibility_grid s ∧
  game_state (play s cs) = game_state s ∧
  game_state (play s cs) ≠ PLAYING ∧
  play s cs = s.
Proof.
  apply (terminal_phase_is_final (play preset_game [Reveal 0 0])
           [Reveal 0 1; Flag 2 2; Reveal 0 0]).
  - apply reachable_play, reachable_preset_game.
  - vm_compute. discriminate.
Defined.

(** C8: on every board state in phase PLAYING, two [flag] calls in a row on
    an in-bounds HIDDEN cell both return; the cell is FLAGGED in between and
    HIDDEN again afterwards, and the state after the second call is the
    state before the first: no visibility, the counter and the phase
    included, has changed. *)
Theorem flag_twice_is_neutral (s : Minesweeper) (row col : Z) :
  board s → game_state s = PLAYING → in_bounds row col →
  visibility_at s row col = Some HIDDEN →
  let s1 := after (flag row col s) in
  let s2 := after (flag row col s1) in
  result (flag row col s) = Return tt ∧
  result (flag row col s1) = Return tt ∧
  visibility_at s1 row col = Some FLAGGED ∧
  visibility_at s2 row col = Some HIDDEN ∧
  visibility_grid s2 = visibility_grid s ∧
  counter_safe_cells s2 = counter_safe_cells s ∧
  game_state s2 = game_state s ∧
  s2 = s.
Proof.
  intros Hs Hphase Hin Hhidden. pose proof Hs as (Hr & Hc & Hcg & Hvg).
  destruct (flag_cases s row col Hs)
    as [[? _]|[(_ & ? & _)|[(_ & _ & ? & _)|
        (_ & _ & v & g1 & Hv & _ & Hg1 & Hrun1)]]]; try congruence.
  assert (v = HIDDEN) as -> by congruence.
  cbv zeta. rewrite Hrun1. cbn [after result fst snd].
  set (s1 := set_visibility_grid g1 s).
  assert (visibility_at s1 row col = Some FLAGGED) as Hflagged.
  { unfold visibility_at, s1. cbn [visibility_grid set_visibility_grid].
    rewrite (getitem2_setitem2 _ row col _ g1 row col) by done.
    by rewrite decide_True. }
  assert (board s1) as Hs1.
  { split_and!; [done..|]. by eapply setitem2_shape. }
  assert (game_state s1 = PLAYING) as Hphase1 by done.
  destruct (flag_cases s1 row col Hs1)
    as [[? _]|[(_ & ? & _)|[(_ & _ & ? & _)|
        (_ & _ & v & g2 & Hv2 & _ & Hg2 & Hrun2)]]]; try congruence.
  assert (v = FLAGGED) as -> by congruence.
  assert (g2 = visibility_grid s) as ->.
  { unfold s1 in Hg2. cbn [visibility_grid set_visibility_grid] in Hg2.
    change (toggled FLAGGED) with HIDDEN in Hg2.
    rewrite (setitem2_setitem2 _ row col _ _ g1 Hvg Hin Hg1) in Hg2.
    rewrite (setitem2_same _ row col HIDDEN Hvg Hin Hhidden) in Hg2.
    congruence. }
  rewrite Hrun2. cbn [after result fst snd].
  assert (set_visibility_grid (visibility_grid s) s1 = s) as ->
    by (by destruct s).
  done.
Qed.

Lemma flag_twice_is_neutral_witness :
  let s1 := after (flag 0 1 preset_game) in
  let s2 := after (flag 0 1 s1) in
  result (flag 0 1 preset_game) = Return tt ∧
  result (flag 0 1 s1) = Return tt ∧
  visibility_at s1 0 1 = Some FLAGGED ∧
  visibility_at s2 0 1 = Some HIDDEN ∧
  visibility_grid s2 = visibility_grid preset_game ∧
  counter_safe_cells s2 = counter_safe_cells preset_game ∧
  game_state s2 = game_state preset_game ∧
  s2 = preset_game.
Proof.
  apply (flag_twice_is_neutral preset_game 0 1).
  - apply board_preset_game.
  - vm_compute. reflexivity.
  - unfold in_bounds. lia.
  - vm_compute. reflexivity.
Defined.

(** C9: the four queries (game state, mine count, cell display, board
    display) leave every attribute of the board as it was: the content
    grid, the visibility grid, the counter of safe cells and the phase,
    for every state and every coordinate, also when the query raises. *)
Theorem queries_leave_board_unchanged (s : Minesweeper) (row col : Z) :
  after (get_game_state s) = s ∧
  after (get_mines_count s) = s ∧
  after (get_cell_state row col s) = s ∧
  after (get_board_display s) = s.
Proof.
  split_and!.
  - done.
  - done.
  - apply read_only_get_cell_state.
  - apply read_only_get_board_display.
Qed.

(** ** The display queries *)

Lemma get_cell_state_outside s row col :
  board s → ¬ in_bounds row col →
  get_cell_state row col s = (Raise (ValueError "Cell out of bounds"), s, []).
Proof.
  intros (Hr & Hc & _) Hout. unfold get_cell_state. by run_method.
Qed.

Lemma get_cell_state_inside s row col :
  board s → in_bounds row col →
  ∃ d t, get_cell_state row col s = (Return d, s, t) ∧ Forall inside t.
Proof.
  intros (Hr & Hc & Hcg & Hvg) Hin.
  destruct (getitem2_is_Some (visibility_grid s) row col Hvg Hin) as [v Hv].
  destruct (getitem2_is_Some (content_grid s) row col Hcg Hin) as [c Hcont].
  unfold get_cell_state. destruct v.
  - eexists _, _. split; [by run_method|trace_inside].
  - destruct (decide (c = MINE)).
    + eexists _, _. split; [by run_method|trace_inside].
    + eexists _, _. split; [by run_method|trace_inside].
  - eexists _, _. split; [by run_method|trace_inside].
Qed.

Lemma get_board_display_spec s :
  board s →
  ∃ b t, get_board_display s = (Return b, s, t) ∧ Forall inside t.
Proof.
  intros Hs. pose proof Hs as (Hr & Hc & _).
  destruct (for_each_prefix_inv
    (λ (_ : list Z) (_ : list (list display)) s', s' = s) inside (PyList.range 8)
    (λ row board,
       let* ncols := attr cols in
       let* row_display :=
         for_each (PyList.range ncols) (λ col row_display,
           let* d := get_cell_state row col in
           ret (row_display ++ [d])) [] in
       ret (board ++ [row_display]))) with (@nil (list display)) s
    as (b & s' & t & Hrun & -> & Ht).
  - intros visited row rest acc s1 Hsplit ->.
    assert (0 ≤ row < 8) as Hrow.
    { apply elem_of_range. rewrite Hsplit. apply elem_of_app. right. by left. }
    destruct (for_each_prefix_inv
      (λ (_ : list Z) (_ : list display) s', s' = s) inside (PyList.range 8)
      (λ col row_display,
         let* d := get_cell_state row col in
         ret (row_display ++ [d]))) with (@nil display) s
      as (line & s' & t & Hrun & -> & Ht).
    + intros seen col rest' acc' s1 Hsplit' ->.
      assert (in_bounds row col) as Hin.
      { split; [done|]. apply elem_of_range. rewrite Hsplit'.
        apply elem_of_app. right. by left. }
      destruct (get_cell_state_inside s row col Hs Hin) as (d & t & Hd & Ht).
      eexists _, s, _. split_and!; [run_method; rewrite Hd; by run_method|done|].
      by rewrite app_nil_r.
    + done.
    + eexists _, s, _. split_and!; [|done|].
      * run_method. rewrite Hc, Hrun. by run_method.
      * by rewrite app_nil_r.
  - done.
  - exists b, t. split; [|done].
    unfold get_board_display. run_method. by rewrite Hr, Hrun.
Qed.

(** C10: on every board state, [reveal], [flag] and [get_cell_state] take
    their bounds check before any subscript of a grid: at a coordinate
    outside [0 <= row < 8] and [0 <= col < 8], negative ones included, each
    raises without having evaluated a single subscript ([get_cell_state]
    and, in phase PLAYING, the two commands raise the out-of-bounds
    ValueError); and every subscript that these operations and
    [get_board_display] evaluate on either grid is inside the 8x8 range, so
    that none of them ever raises IndexError. *)
Theorem coordinates_checked_before_access (s : Minesweeper) (row col : Z) :
  board s →
  (¬ in_bounds row col →
     trace (reveal row col s) = [] ∧
     trace (flag row col s) = [] ∧
     trace (get_cell_state row col s) = [] ∧
     (∃ e, result (reveal row col s) = Raise e) ∧
     (∃ e, result (flag row col s) = Raise e) ∧
     (game_state s = PLAYING →
        result (reveal row col s) = Raise (ValueError "Move is out of bounds") ∧
        result (flag row col s) = Raise (ValueError "Move is out of bounds")) ∧
     result (get_cell_state row col s) = Raise (ValueError "Cell out of bounds")) ∧
  Forall inside (trace (reveal row col s)) ∧
  Forall inside (trace (flag row col s)) ∧
  Forall inside (trace (get_cell_state row col s)) ∧
  Forall inside (trace (get_board_display s)) ∧
  (∀ msg, result (reveal row col s) ≠ Raise (IndexError msg)) ∧
  (∀ msg, result (flag row col s) ≠ Raise (IndexError msg)) ∧
  (∀ msg, result (get_cell_state row col s) ≠ Raise (IndexError msg)) ∧
  (∀ msg, result (get_board_display s) ≠ Raise (IndexError msg)).
Proof.
  intros Hs.
  assert (¬ in_bounds row col ∧
            get_cell_state row col s =
              (Raise (ValueError "Cell out of bounds"), s, []) ∨
          in_bounds row col ∧
            ∃ d t, get_cell_state row col s = (Return d, s, t) ∧ Forall inside t)
    as Hcell.
  { destruct (decide (in_bounds row col)); [right|left];
      (split; [done|]);
      [by apply get_cell_state_inside|by apply get_cell_state_outside]. }
  destruct (get_board_display_spec s Hs) as (b & tb & Hboard & Htb).
  rewrite Hboard. unfold trace, result. cbn [fst snd].
  destruct (reveal_cases s row col Hs)
      as [[? ->]|[(? & ? & ->)|[(? & ? & ? & ->)|[(? & ? & ? & ->)|
          (? & ? & ? & g' & c & _ & _ & ->)]]]];
    destruct (flag_cases s row col Hs)
      as [[? ->]|[(? & ? & ->)|[(? & ? & ? & ->)|
          (? & ? & v & g2 & _ & _ & _ & ->)]]];
    destruct Hcell as [[? ->]|(? & d & t & -> & ?)];
    try done; cbn [fst snd];
    (split_and!; [intros ?; split_and!; by eauto|try trace_inside; done..]).
Qed.

Lemma coordinates_checked_before_access_witness :
  trace (reveal (-1) 0 preset_game) = [] ∧
  result (reveal (-1) 0 preset_game) = Raise (ValueError "Move is out of bounds") ∧
  result (get_cell_state (-1) 0 preset_game) = Raise (ValueError "Cell out of bounds") ∧
  Forall inside (trace (get_board_display preset_game)).
Proof.
  destruct (coordinates_checked_before_access preset_game (-1) 0 board_preset_game)
    as (Hout & _ & _ & _ & Hdisplay & _).
  destruct Hout as (Htrace & _ & _ & _ & _ & Hplaying & Hcell).
  { unfold in_bounds. lia. }
  destruct Hplaying as [Hreveal _]; [vm_compute; reflexivity|].
  by split_and!.
Defined.

(** ** Constructed boards *)

Lemma hazard_neighbours_not_MINE mines r c : hazard_neighbours mines r c ≠ MINE.
Proof. unfold hazard_neighbours, MINE. lia. Qed.

(** C3: after construction with 10 distinct in-bounds hazard coordinates
    (preset or sampled), the constructor returns, every hazard cell holds
    MINE and every other cell of the board holds exactly the number of
    hazards among the cells of the board that touch it orthogonally or
    diagonally.  The pass that computes the counts stores them in the
    content grid it is reading ([store_content] and [load_content] act on
    the same attribute). *)
Theorem neighbour_counts_exact
    (random_sample : list (Z * Z) → Z → list (Z * Z))
    (preset : option (list (Z * Z))) :
  let mines := hazards_placed random_sample preset in
  proper_hazards mines →
  ∃ s0 t,
    __init__ random_sample preset = (Return tt, s0, t) ∧
    ∀ r c, in_bounds r c →
      ((r, c) ∈ mines → content_at s0 r c = Some MINE) ∧
      ((r, c) ∉ mines →
         content_at s0 r c = Some (hazard_neighbours mines r c) ∧
         0 ≤ hazard_neighbours mines r c ≤ 8).
Proof.
  intros mines (_ & _ & Hmines).
  destruct (init_spec random_sample preset Hmines)
    as (s0 & t & Hinit & _ & _ & _ & _ & Hcells & _).
  exists s0, t. split; [done|]. intros r c Hrc.
  destruct (Hcells r c Hrc) as [_ Hcontent]. fold mines in Hcontent.
  split; intros Hmine.
  - by rewrite decide_True in Hcontent.
  - rewrite decide_False in Hcontent by done. split; [done|].
    unfold hazard_neighbours. split; [lia|].
    rewrite <- (offsets_count_adjacent (λ rc, rc ∈ mines) r c).
    pose proof (length_filter
      (λ d : Z * Z, in_bounds (r + d.1) (c + d.2) ∧ (r + d.1, c + d.2) ∈ mines)
      neighbour_cells_coordinates) as Hle.
    cbn [length neighbour_cells_coordinates] in Hle. lia.
Qed.

Lemma neighbour_counts_exact_witness :
  ∃ s0 t,
    __init__ first_k (Some PRESET_MINES) = (Return tt, s0, t) ∧
    ∀ r c, in_bounds r c →
      ((r, c) ∈ PRESET_MINES → content_at s0 r c = Some MINE) ∧
      ((r, c) ∉ PRESET_MINES →
         content_at s0 r c = Some (hazard_neighbours PRESET_MINES r c) ∧
         0 ≤ hazard_neighbours PRESET_MINES r c ≤ 8).
Proof.
  apply (neighbour_counts_exact first_k (Some PRESET_MINES)).
  apply proper_hazards_PRESET_MINES.
Defined.

Lemma constructed_mine_count random_sample preset s0 t :
  proper_hazards (hazards_placed random_sample preset) →
  __init__ random_sample preset = (Return tt, s0, t) →
  mine_count (content_grid s0) = 10 ∧ number_mines s0 = 10.
Proof.
  intros (Hnodup & Hlen & Hmines) Hinit.
  destruct (init_spec random_sample preset Hmines)
    as (s0' & t' & Hinit' & (_ & _ & Hcg & _) & _ & _ & Hn & Hcells & _).
  rewrite Hinit in Hinit'. simplify_eq. split; [|done].
  rewrite (mine_count_cells _ Hcg), <- Hlen. f_equal.
  rewrite <- (filter_elem_of_length
                (hazards_placed random_sample preset) all_cells); [|done|..].
  - f_equal. apply filter_ext_elem. intros [r c] Hrc.
    apply elem_of_all_cells in Hrc. destruct (Hcells r c Hrc) as [_ Hcontent].
    unfold content_at in Hcontent. cbn [fst snd]. rewrite Hcontent.
    case_decide; [done|]. split; [|done]. intros Heq. simplify_eq.
    exfalso. by eapply hazard_neighbours_not_MINE.
  - apply NoDup_all_cells.
  - intros rc Hrc. apply elem_of_all_cells.
    rewrite Forall_forall in Hmines. by apply Hmines.
Qed.

(** C7, as the code has it: a board built by random sampling, or from a
    preset list of exactly 10 distinct in-bounds coordinates, is returned by
    the constructor and holds exactly [number_mines] = 10 cells of content
    MINE. *)
Theorem mine_count_is_number_mines
    (random_sample : list (Z * Z) → Z → list (Z * Z))
    (preset : option (list (Z * Z))) :
  match preset with
  | None => sampler random_sample
  | Some mines => proper_hazards mines
  end →
  ∃ s0 t,
    __init__ random_sample preset = (Return tt, s0, t) ∧
    mine_count (content_grid s0) = number_mines s0 ∧
    number_mines s0 = 10.
Proof.
  intros Hpreset.
  assert (proper_hazards (hazards_placed random_sample preset)) as Hproper.
  { destruct preset; [done|]. by apply sampler_proper_hazards. }
  pose proof Hproper as (_ & _ & Hmines).
  destruct (init_spec random_sample preset Hmines) as (s0 & t & Hinit & _).
  destruct (constructed_mine_count _ _ _ _ Hproper Hinit) as [Hcount Hn].
  exists s0, t. split_and!; [done| |done]. by rewrite Hn.
Qed.

Lemma mine_count_is_number_mines_witness :
  ∃ s0 t,
    __init__ first_k None = (Return tt, s0, t) ∧
    mine_count (content_grid s0) = number_mines s0 ∧
    number_mines s0 = 10.
Proof.
  apply (mine_count_is_number_mines first_k None).
  apply sampler_first_k.
Defined.

(** C7 as stated fails: the constructor accepts any preset list.  With the
    single preset coordinate (0,0) it returns a board that holds one mine,
    while [number_mines] is 10. *)
Lemma preset_of_one_mine_counterexample :
  constructed one_mine_game ∧
  mine_count (content_grid one_mine_game) = 1 ∧
  number_mines one_mine_game = 10 ∧
  mine_count (content_grid one_mine_game) ≠ number_mines one_mine_game.
Proof.
  split_and!.
  - exists first_k, (Some [(0, 0)]). eexists.
    split; [apply sampler_first_k|]. by vm_compute.
  - by vm_compute.
  - by vm_compute.
  - by vm_compute.
Qed.

(** ** The counter of safe cells *)

Lemma safe_counter_init random_sample preset s0 t :
  proper_hazards (hazards_placed random_sample preset) →
  __init__ random_sample preset = (Return tt, s0, t) →
  counter_safe_cells s0 = safe_cells_unrevealed s0.
Proof.
  intros (Hnodup & Hlen & Hmines) Hinit.
  destruct (init_spec random_sample preset Hmines)
    as (s0' & t' & Hinit' & _ & _ & Hcounter & _ & Hcells & _).
  rewrite Hinit in Hinit'. simplify_eq. rewrite Hcounter.
  set (mines := hazards_placed random_sample preset) in *.
  unfold safe_cells_unrevealed.
  rewrite (filter_ext_elem (safe_cell_unrevealed s0') (λ rc, ¬ rc ∈ mines)).
  - pose proof (filter_complement_length (λ rc, rc ∈ mines) all_cells) as Hsum.
    rewrite (filter_elem_of_length mines all_cells) in Hsum; [|done|..].
    + rewrite length_all_cells in Hsum. lia.
    + apply NoDup_all_cells.
    + intros rc Hrc. apply elem_of_all_cells.
      rewrite Forall_forall in Hmines. by apply Hmines.
  - intros [r c] Hrc. apply elem_of_all_cells in Hrc.
    destruct (Hcells r c Hrc) as [Hhidden Hcontent].
    unfold safe_cell_unrevealed. cbn [fst snd]. rewrite Hhidden, Hcontent.
    case_decide; [split; [by intros [? _]|done]|].
    split; [done|]. intros _. split; [|done]. intros Heq. simplify_eq.
    by eapply hazard_neighbours_not_MINE.
Qed.

(** Storing a visibility on one cell: which cells are safe and unrevealed
    afterwards. *)
Lemma safe_cell_after_store s s' g' row col v rc :
  board s → in_bounds row col →
  PyList.setitem2 (visibility_grid s) row col v = Some g' →
  content_grid s' = content_grid s → visibility_grid s' = g' →
  rc ∈ all_cells →
  safe_cell_unrevealed s' rc ↔
    content_at s rc.1 rc.2 ≠ Some MINE ∧
    (if decide (rc = (row, col)) then Some v else visibility_at s rc.1 rc.2)
      ≠ Some REVEALED.
Proof.
  intros (_ & _ & _ & Hvg) Hin Hset Hcontent Hvis Hrc.
  apply elem_of_all_cells in Hrc. destruct rc as [r c]. cbn [fst snd] in *.
  unfold safe_cell_unrevealed, content_at, visibility_at. cbn [fst snd].
  rewrite Hcontent, Hvis.
  by rewrite (getitem2_setitem2 _ row col v g' r c Hvg Hin Hrc Hset).
Qed.

Lemma safe_counter_step s c :
  board s → counter_safe_cells s = safe_cells_unrevealed s →
  counter_safe_cells (step s c) = safe_cells_unrevealed (step s c).
Proof.
  intros Hs Hinv. unfold step. destruct c as [row col|row col]; cbn [run_command].
  - destruct (reveal_cases s row col Hs)
      as [[_ ->]|[(_ & _ & ->)|[(_ & _ & _ & ->)|[(_ & _ & _ & ->)|
          (_ & Hin & Hhidden & g' & c & Hg' & Hcontent & ->)]]]]; try done.
    cbn [after fst snd].
    destruct (revealed_state_grids s g' c) as (_ & _ & Hcg & Hvg).
    pose proof (λ rc, safe_cell_after_store s _ g' row col REVEALED rc
                        Hs Hin Hg' Hcg Hvg) as Hafter.
    destruct (decide (c = MINE)) as [->|Hsafe].
    + trans (counter_safe_cells s).
      { unfold revealed_state. by rewrite decide_True. }
      rewrite Hinv. unfold safe_cells_unrevealed. do 2 f_equal.
      apply filter_ext_elem. intros rc Hrc. rewrite (Hafter rc Hrc).
      unfold safe_cell_unrevealed. case_decide; [subst rc|done].
      cbn [fst snd]. rewrite Hcontent. split; by intros [? _].
    + trans (counter_safe_cells s - 1).
      { unfold revealed_state. rewrite decide_False by done. by case_decide. }
      rewrite Hinv. unfold safe_cells_unrevealed.
      rewrite (filter_one_less (safe_cell_unrevealed s)
                 (safe_cell_unrevealed (revealed_state s g' c))
                 all_cells (row, col)); [lia|..].
      * apply NoDup_all_cells.
      * by apply elem_of_all_cells.
      * unfold safe_cell_unrevealed. cbn [fst snd].
        rewrite Hcontent, Hhidden. split; congruence.
      * rewrite Hafter by (by apply elem_of_all_cells).
        rewrite decide_True by done. by intros [_ ?].
      * intros rc Hrc Hne. rewrite (Hafter rc Hrc).
        by rewrite decide_False.
  - destruct (flag_cases s row col Hs)
      as [[_ ->]|[(_ & _ & ->)|[(_ & _ & _ & ->)|
          (_ & Hin & v & g' & Hv & Hv' & Hg' & ->)]]]; try done.
    cbn [after fst snd]. trans (counter_safe_cells s); [done|].
    rewrite Hinv. unfold safe_cells_unrevealed. do 2 f_equal.
    apply filter_ext_elem. intros rc Hrc.
    rewrite (safe_cell_after_store s (set_visibility_grid g' s) g' row col
               (toggled v) rc Hs Hin Hg' eq_refl eq_refl Hrc).
    unfold safe_cell_unrevealed. case_decide; [subst rc|done].
    cbn [fst snd]. rewrite Hv. unfold toggled.
    split; (intros [? _]; split; [done|]); [by case_decide|congruence].
Qed.

Lemma safe_counter_play s cs :
  board s → counter_safe_cells s = safe_cells_unrevealed s →
  counter_safe_cells (play s cs) = safe_cells_unrevealed (play s cs).
Proof.
  revert s. induction cs as [|c cs IH]; intros s Hs Hinv; [done|].
  cbn [play foldl]. apply IH; [by apply board_step|by apply safe_counter_step].
Qed.

(** C2: for every board constructed with 10 distinct in-bounds hazard
    coordinates (preset or sampled) and every state that [reveal] and [flag]
    calls lead to from it, while the phase is PLAYING the counter of safe
    cells equals the number of cells of the board that hold no mine and are
    not REVEALED. *)
Theorem safe_counter_invariant
    (random_sample : list (Z * Z) → Z → list (Z * Z))
    (preset : option (list (Z * Z))) (cs : list command) :
  let mines := hazards_placed random_sample preset in
  let s0 := after (__init__ random_sample preset) in
  let s := play s0 cs in
  proper_hazards mines → game_state s = PLAYING →
  result (__init__ random_sample preset) = Return tt ∧
  counter_safe_cells s = safe_cells_unrevealed s.
Proof.
  intros mines s0 s Hproper _.
  pose proof Hproper as (_ & _ & Hmines).
  destruct (init_spec random_sample preset Hmines)
    as (s0' & t & Hinit & Hboard & _).
  subst s s0. rewrite Hinit. cbn [after result fst snd]. split; [done|].
  apply safe_counter_play; [done|]. by eapply safe_counter_init.
Qed.

Lemma safe_counter_invariant_witness :
  let s := play preset_game [Reveal 0 1; Flag 3 3; Reveal 5 5; Reveal 9 9] in
  result (__init__ first_k (Some PRESET_MINES)) = Return tt ∧
  counter_safe_cells s = safe_cells_unrevealed s.
Proof.
  apply (safe_counter_invariant first_k (Some PRESET_MINES)
           [Reveal 0 1; Flag 3 3; Reveal 5 5; Reveal 9 9]).
  - apply proper_hazards_PRESET_MINES.
  - vm_compute. reflexivity.
Defined.


(** * Further properties of the engine *)

(** ** What a command leaves alone *)

Lemma revealed_state_frame s g' c :
  number_mines (revealed_state s g' c) = number_mines s ∧
  preset_mines (revealed_state s g' c) = preset_mines s.
Proof. unfold revealed_state. by repeat case_decide. Qed.

Lemma step_frame s c :
  board s →
  rows (step s c) = rows s ∧ cols (step s c) = cols s ∧
  number_mines (step s c) = number_mines s ∧
  content_grid (step s c) = content_grid s ∧
  preset_mines (step s c) = preset_mines s.
Proof.
  intros Hs. unfold step. destruct c as [row col|row col]; cbn [run_command].
  - destruct (reveal_cases s row col Hs)
      as [[_ ->]|[(_ & _ & ->)|[(_ & _ & _ & ->)|[(_ & _ & _ & ->)|
          (_ & _ & _ & g' & c & _ & _ & ->)]]]]; try done.
    cbn [after fst snd].
    destruct (revealed_state_grids s g' c) as (-> & -> & -> & _).
    by destruct (revealed_state_frame s g' c) as (-> & ->).
  - destruct (flag_cases s row col Hs)
      as [[_ ->]|[(_ & _ & ->)|[(_ & _ & _ & ->)|
          (_ & _ & v & g' & _ & _ & _ & ->)]]]; done.
Qed.

Lemma play_frame s cs :
  board s →
  content_grid (play s cs) = content_grid s ∧
  rows (play s cs) = rows s ∧ cols (play s cs) = cols s ∧
  number_mines (play s cs) = number_mines s ∧
  preset_mines (play s cs) = preset_mines s.
Proof.
  revert s. induction cs as [|c cs IH]; intros s Hs; [done|].
  cbn [play foldl]. fold (play (step s c) cs).
  destruct (IH (step s c) (board_step s c Hs)) as (-> & -> & -> & -> & ->).
  destruct (step_frame s c Hs) as (-> & -> & -> & -> & ->). done.
Qed.

(** X1: no sequence of [reveal] and [flag] calls ever changes the content
    grid, the dimensions, the mine count attribute or the stored preset
    list: after construction, the commands write to the visibility grid, the
    counter and the phase only. *)
Theorem commands_keep_content (s : Minesweeper) (cs : list command) :
  board s →
  content_grid (play s cs) = content_grid s ∧
  rows (play s cs) = rows s ∧ cols (play s cs) = cols s ∧
  number_mines (play s cs) = number_mines s ∧
  preset_mines (play s cs) = preset_mines s.
Proof. apply play_frame. Qed.

Lemma commands_keep_content_witness :
  let cs := [Reveal 0 1; Flag 3 3; Reveal 0 0; Reveal 4 4] in
  content_grid (play preset_game cs) = content_grid preset_game ∧
  rows (play preset_game cs) = rows preset_game ∧
  cols (play preset_game cs) = cols preset_game ∧
  number_mines (play preset_game cs) = number_mines preset_game ∧
  preset_mines (play preset_game cs) = preset_mines preset_game.
Proof.
  apply (commands_keep_content preset_game
           [Reveal 0 1; Flag 3 3; Reveal 0 0; Reveal 4 4]).
  apply board_preset_game.
Defined.

Lemma step_other_cell s c r' c' :
  board s → in_bounds r' c' → (r', c') ≠ target c →
  visibility_at (step s c) r' c' = visibility_at s r' c'.
Proof.
  intros Hs Hin' Hne. pose proof Hs as (_ & _ & _ & Hvg).
  unfold step. destruct c as [row col|row col]; cbn [run_command target] in *.
  - destruct (reveal_cases s row col Hs)
      as [[_ ->]|[(_ & _ & ->)|[(_ & _ & _ & ->)|[(_ & _ & _ & ->)|
          (_ & Hin & _ & g' & c & Hg' & _ & ->)]]]]; try done.
    cbn [after fst snd]. unfold visibility_at.
    destruct (revealed_state_grids s g' c) as (_ & _ & _ & ->).
    rewrite (getitem2_setitem2 _ row col _ g' r' c') by done.
    by rewrite decide_False.
  - destruct (flag_cases s row col Hs)
      as [[_ ->]|[(_ & _ & ->)|[(_ & _ & _ & ->)|
          (_ & Hin & v & g' & _ & _ & Hg' & ->)]]]; try done.
    cbn [after fst snd]. unfold visibility_at.
    cbn [visibility_grid set_visibility_grid].
    rewrite (getitem2_setitem2 _ row col _ g' r' c') by done.
    by rewrite decide_False.
Qed.

Lemma flag_keeps_counter_phase s row col :
  board s →
  counter_safe_cells (after (flag row col s)) = counter_safe_cells s ∧
  game_state (after (flag row col s)) = game_state s.
Proof.
  intros Hs.
  destruct (flag_cases s row col Hs)
    as [[_ ->]|[(_ & _ & ->)|[(_ & _ & _ & ->)|
        (_ & _ & v & g' & _ & _ & _ & ->)]]]; done.
Qed.

(** X2: a command acts on its own cell only: after [reveal row col] or
    [flag row col], returning or raising, every other cell of the board has
    the visibility it had; and [flag] never changes the counter of safe
    cells or the phase. *)
Theorem command_touches_one_cell (s : Minesweeper) (row col r' c' : Z) :
  board s → in_bounds r' c' → (r', c') ≠ (row, col) →
  visibility_at (after (reveal row col s)) r' c' = visibility_at s r' c' ∧
  visibility_at (after (flag row col s)) r' c' = visibility_at s r' c' ∧
  counter_safe_cells (after (flag row col s)) = counter_safe_cells s ∧
  game_state (after (flag row col s)) = game_state s.
Proof.
  intros Hs Hin Hne. split_and!.
  - by apply (step_other_cell s (Reveal row col)).
  - by apply (step_other_cell s (Flag row col)).
  - by apply flag_keeps_counter_phase.
  - by apply flag_keeps_counter_phase.
Qed.

Lemma command_touches_one_cell_witness :
  visibility_at (after (reveal 0 1 preset_game)) 5 5 = visibility_at preset_game 5 5 ∧
  visibility_at (after (flag 0 1 preset_game)) 5 5 = visibility_at preset_game 5 5 ∧
  counter_safe_cells (after (flag 0 1 preset_game)) = counter_safe_cells preset_game ∧
  game_state (after (flag 0 1 preset_game)) = game_state preset_game.
Proof.
  apply (command_touches_one_cell preset_game 0 1 5 5).
  - apply board_preset_game.
  - unfold in_bounds. lia.
  - intros Heq. discriminate Heq.
Defined.

Lemma step_keeps_revealed s c r' c' :
  board s → in_bounds r' c' → visibility_at s r' c' = Some REVEALED →
  visibility_at (step s c) r' c' = Some REVEALED.
Proof.
  intros Hs Hin' Hrev.
  destruct (decide ((r', c') = target c)) as [Heq|Hne].
  - unfold step. destruct c as [row col|row col]; cbn [run_command target] in *;
      simplify_eq.
    + destruct (reveal_cases s row col Hs)
        as [[_ ->]|[(_ & _ & ->)|[(_ & _ & _ & ->)|[(_ & _ & _ & ->)|
            (_ & _ & ? & _)]]]]; try done. congruence.
    + destruct (flag_cases s row col Hs)
        as [[_ ->]|[(_ & _ & ->)|[(_ & _ & _ & ->)|
            (_ & _ & v & g' & ? & ? & _)]]]; try done. congruence.
  - by rewrite step_other_cell.
Qed.

(** X3: REVEALED is final for a cell: once an in-bounds cell is REVEALED,
    it is REVEALED after every further sequence of [reveal] and [flag]
    calls. *)
Theorem revealed_stays_revealed (s : Minesweeper) (cs : list command) (r c : Z) :
  board s → in_bounds r c → visibility_at s r c = Some REVEALED →
  visibility_at (play s cs) r c = Some REVEALED.
Proof.
  intros Hs Hin. revert s Hs. induction cs as [|cmd cs IH]; intros s Hs Hrev; [done|].
  cbn [play foldl]. apply IH; [by apply board_step|by apply step_keeps_revealed].
Qed.

Lemma revealed_stays_revealed_witness :
  visibility_at (play (play preset_game [Reveal 0 1])
                   [Flag 0 1; Reveal 0 1; Reveal 2 2; Flag 0 1]) 0 1
    = Some REVEALED.
Proof.
  apply (revealed_stays_revealed (play preset_game [Reveal 0 1])
           [Flag 0 1; Reveal 0 1; Reveal 2 2; Flag 0 1] 0 1).
  - apply board_play, board_preset_game.
  - unfold in_bounds. lia.
  - vm_compute. reflexivity.
Defined.

(** ** What the display shows *)

Lemma get_cell_state_value s row col v c :
  board s → in_bounds row col →
  visibility_at s row col = Some v → content_at s row col = Some c →
  ∃ t, get_cell_state row col s = (Return (display_of v c), s, t).
Proof.
  intros (Hr & Hc & Hcg & Hvg) Hin Hv Hcont. unfold visibility_at, content_at in *.
  unfold get_cell_state, display_of. destruct v.
  - eexists. by run_method.
  - destruct (decide (c = MINE)); eexists; by run_method.
  - eexists. by run_method.
Qed.

Lemma lookup_range (n : Z) (i : Z) :
  0 ≤ i < n → PyList.range n !! Z.to_nat i = Some i.
Proof.
  intros Hi. unfold PyList.range. rewrite list_lookup_fmap.
  assert (seq 0 (Z.to_nat n) !! Z.to_nat i = Some (Z.to_nat i)) as ->.
  { apply lookup_seq. lia. }
  cbn. f_equal. lia.
Qed.

Lemma length_range (n : Z) : length (PyList.range n) = Z.to_nat n.
Proof. unfold PyList.range. by rewrite length_fmap, length_seq. Qed.

(** The board display, row by row and cell by cell, holds what
    [get_cell_state] returns. *)
Lemma get_board_display_cells s :
  board s →
  ∃ b t,
    get_board_display s = (Return b, s, t) ∧
    Forall2 (λ row line,
      Forall2 (λ col d, result (get_cell_state row col s) = Return d)
        (PyList.range 8) line) (PyList.range 8) b.
Proof.
  intros Hs. pose proof Hs as (Hr & Hc & _).
  destruct (for_each_prefix_inv
    (λ (visited : list Z) (acc : list (list display)) s',
       s' = s ∧
       Forall2 (λ row line,
         Forall2 (λ col d, result (get_cell_state row col s) = Return d)
           (PyList.range 8) line) visited acc)
    inside (PyList.range 8)
    (λ row board,
       let* ncols := attr cols in
       let* row_display :=
         for_each (PyList.range ncols) (λ col row_display,
           let* d := get_cell_state row col in
           ret (row_display ++ [d])) [] in
       ret (board ++ [row_display]))) with (@nil (list display)) s
    as (b & s' & t & Hrun & (-> & Hb) & Ht).
  - intros visited row rest acc s1 Hsplit (-> & Hacc).
    assert (0 ≤ row < 8) as Hrow.
    { apply elem_of_range. rewrite Hsplit. apply elem_of_app. right. by left. }
    destruct (for_each_prefix_inv
      (λ (seen : list Z) (acc : list display) s',
         s' = s ∧
         Forall2 (λ col d, result (get_cell_state row col s) = Return d) seen acc)
      inside (PyList.range 8)
      (λ col row_display,
         let* d := get_cell_state row col in
         ret (row_display ++ [d]))) with (@nil display) s
      as (line & s' & t & Hrun & (-> & Hline) & Ht).
    + intros seen col rest' acc' s1 Hsplit' (-> & Hacc').
      assert (in_bounds row col) as Hin.
      { split; [done|]. apply elem_of_range. rewrite Hsplit'.
        apply elem_of_app. right. by left. }
      destruct (get_cell_state_inside s row col Hs Hin) as (d & t & Hd & Ht).
      eexists _, s, _. split_and!; [run_method; rewrite Hd; by run_method|done| |].
      * apply Forall2_app; [done|]. constructor; [|constructor]. by rewrite Hd.
      * by rewrite app_nil_r.
    + split; [done|constructor].
    + eexists _, s, _. split_and!; [|done| |].
      * run_method. rewrite Hc, Hrun. by run_method.
      * apply Forall2_app; [done|]. by constructor.
      * by rewrite app_nil_r.
  - split; [done|constructor].
  - exists b, t. split; [|done].
    unfold get_board_display. run_method. by rewrite Hr, Hrun.
Qed.

Lemma get_board_display_lookup s :
  board s →
  ∃ b, result (get_board_display s) = Return b ∧
       grid_shape b ∧
       ∀ r c, in_bounds r c →
         ∃ d, PyList.getitem2 b r c = Some d ∧
              result (get_cell_state r c s) = Return d.
Proof.
  intros Hs. destruct (get_board_display_cells s Hs) as (b & t & Hrun & Hb).
  exists b. rewrite Hrun.
  assert (grid_shape b) as Hshape.
  { split.
    - by rewrite <- (Forall2_length _ _ _ Hb), length_range.
    - apply Forall_forall. intros line Hline.
      apply list_elem_of_lookup in Hline as [i Hi].
      destruct (Forall2_lookup_r _ _ _ _ _ Hb Hi) as (row & _ & Hrow).
      by rewrite <- (Forall2_length _ _ _ Hrow), length_range. }
  split_and!; [done..|]. intros r c [Hr Hc].
  destruct (getitem2_inside b r c Hshape (conj Hr Hc)) as (line & Hline & _ & ->).
  pose proof (Forall2_lookup_lr _ _ _ _ _ _ Hb (lookup_range 8 r Hr) Hline) as Hrow.
  destruct (Forall2_lookup_l _ _ _ _ _ Hrow (lookup_range 8 c Hc)) as (d & Hd & Hcell).
  by exists d.
Qed.

(** X4: on every board state, [get_board_display] returns a grid of 8 rows
    of 8 entries whose entry at each in-bounds coordinate is what
    [get_cell_state] returns for that coordinate. *)
Theorem board_display_round_trip (s : Minesweeper) :
  board s →
  ∃ b, result (get_board_display s) = Return b ∧
       grid_shape b ∧
       ∀ r c, in_bounds r c →
         ∃ d, PyList.getitem2 b r c = Some d ∧
              result (get_cell_state r c s) = Return d.
Proof. apply get_board_display_lookup. Qed.

Lemma board_display_round_trip_witness :
  ∃ b, result (get_board_display (play preset_game [Reveal 0 1; Flag 0 2])) = Return b ∧
       grid_shape b ∧
       ∀ r c, in_bounds r c →
         ∃ d, PyList.getitem2 b r c = Some d ∧
              result (get_cell_state r c (play preset_game [Reveal 0 1; Flag 0 2]))
                = Return d.
Proof.
  apply (board_display_round_trip (play preset_game [Reveal 0 1; Flag 0 2])).
  apply board_play, board_preset_game.
Defined.

(** X5: on a board built with 10 distinct in-bounds hazard coordinates,
    after any sequence of commands, [get_cell_state] at an in-bounds cell
    returns "H" for a HIDDEN cell and "F" for a FLAGGED one, whatever the
    cell holds; for a REVEALED cell it returns "*" when the cell is one of
    the hazards and otherwise the number (0 to 8) of hazards among the cells
    that touch it. *)
Theorem display_shows_the_board
    (random_sample : list (Z * Z) → Z → list (Z * Z))
    (preset : option (list (Z * Z))) (cs : list command) (r c : Z) :
  let mines := hazards_placed random_sample preset in
  let s := play (after (__init__ random_sample preset)) cs in
  proper_hazards mines → in_bounds r c →
  (visibility_at s r c = Some HIDDEN →
     result (get_cell_state r c s) = Return (Str "H")) ∧
  (visibility_at s r c = Some FLAGGED →
     result (get_cell_state r c s) = Return (Str "F")) ∧
  (visibility_at s r c = Some REVEALED → (r, c) ∈ mines →
     result (get_cell_state r c s) = Return (Str "*")) ∧
  (visibility_at s r c = Some REVEALED → (r, c) ∉ mines →
     result (get_cell_state r c s) = Return (Int (hazard_neighbours mines r c)) ∧
     0 ≤ hazard_neighbours mines r c ≤ 8).
Proof.
  intros mines s (_ & _ & Hmines) Hin.
  destruct (init_spec random_sample preset Hmines)
    as (s0 & t & Hinit & Hs0 & _ & _ & _ & Hcells & _).
  subst s. rewrite Hinit. cbn [after fst snd].
  pose proof (board_play s0 cs Hs0) as Hs.
  destruct (play_frame s0 cs Hs0) as (Hcontent & _).
  destruct (Hcells r c Hin) as [_ Hc]. fold mines in Hc.
  assert (content_at (play s0 cs) r c =
            if decide ((r, c) ∈ mines) then Some MINE
            else Some (hazard_neighbours mines r c)) as Hc'.
  { unfold content_at in *. by rewrite Hcontent. }
  assert (0 ≤ hazard_neighbours mines r c ≤ 8) as Hrange.
  { unfold hazard_neighbours. split; [lia|].
    rewrite <- (offsets_count_adjacent (λ rc, rc ∈ mines) r c).
    pose proof (length_filter
      (λ d : Z * Z, in_bounds (r + d.1) (c + d.2) ∧ (r + d.1, c + d.2) ∈ mines)
      neighbour_cells_coordinates) as Hle.
    cbn [length neighbour_cells_coordinates] in Hle. lia. }
  destruct (getitem2_is_Some (content_grid (play s0 cs)) r c) as [x Hx];
    [apply Hs|done|].
  split_and!.
  - intros Hv. destruct (get_cell_state_value _ r c _ x Hs Hin Hv Hx) as [t' ->].
    done.
  - intros Hv. destruct (get_cell_state_value _ r c _ x Hs Hin Hv Hx) as [t' ->].
    done.
  - intros Hv Hmine. rewrite decide_True in Hc' by done.
    destruct (get_cell_state_value _ r c _ _ Hs Hin Hv Hc') as [t' ->].
    cbn. by rewrite decide_True.
  - intros Hv Hsafe. rewrite decide_False in Hc' by done.
    destruct (get_cell_state_value _ r c _ _ Hs Hin Hv Hc') as [t' ->].
    cbn. rewrite decide_False; [done|]. apply hazard_neighbours_not_MINE.
Qed.

Lemma display_shows_the_board_witness :
  let s := play preset_game [Reveal 1 2; Flag 0 0] in
  (visibility_at s 1 2 = Some HIDDEN →
     result (get_cell_state 1 2 s) = Return (Str "H")) ∧
  (visibility_at s 1 2 = Some FLAGGED →
     result (get_cell_state 1 2 s) = Return (Str "F")) ∧
  (visibility_at s 1 2 = Some REVEALED → (1, 2) ∈ PRESET_MINES →
     result (get_cell_state 1 2 s) = Return (Str "*")) ∧
  (visibility_at s 1 2 = Some REVEALED → (1, 2) ∉ PRESET_MINES →
     result (get_cell_state 1 2 s) = Return (Int (hazard_neighbours PRESET_MINES 1 2)) ∧
     0 ≤ hazard_neighbours PRESET_MINES 1 2 ≤ 8).
Proof.
  apply (display_shows_the_board first_k (Some PRESET_MINES)
           [Reveal 1 2; Flag 0 0] 1 2).
  - apply proper_hazards_PRESET_MINES.
  - unfold in_bounds. lia.
Defined.

(** ** Flags block a reveal until they are removed *)

(** X6: in phase PLAYING, on an in-bounds FLAGGED cell, [reveal] raises
    ValueError and changes nothing; [flag] returns and leaves the cell
    HIDDEN; and after that [reveal] returns and leaves the cell REVEALED. *)
Theorem flagged_cell_must_be_unflagged (s : Minesweeper) (row col : Z) :
  board s → game_state s = PLAYING → in_bounds row col →
  visibility_at s row col = Some FLAGGED →
  let s1 := after (flag row col s) in
  result (reveal row col s) = Raise (ValueError "Cell is flagged, unflag first") ∧
  after (reveal row col s) = s ∧
  result (flag row col s) = Return tt ∧
  visibility_at s1 row col = Some HIDDEN ∧
  result (reveal row col s1) = Return tt ∧
  visibility_at (after (reveal row col s1)) row col = Some REVEALED.
Proof.
  intros Hs Hphase Hin Hflagged. pose proof Hs as (Hr & Hc & Hcg & Hvg).
  cbv zeta.
  destruct (reveal_cases s row col Hs)
    as [[? _]|[(_ & ? & _)|[(_ & _ & ? & _)|[(_ & _ & _ & ->)|
        (_ & _ & ? & _)]]]]; try congruence.
  destruct (flag_cases s row col Hs)
    as [[? _]|[(_ & ? & _)|[(_ & _ & ? & _)|
        (_ & _ & v & g1 & Hv & _ & Hg1 & ->)]]]; try congruence.
  assert (v = FLAGGED) as -> by congruence.
  change (toggled FLAGGED) with HIDDEN in Hg1.
  cbn [after result fst snd]. set (s1 := set_visibility_grid g1 s).
  assert (visibility_at s1 row col = Some HIDDEN) as Hhidden.
  { unfold visibility_at, s1. cbn [visibility_grid set_visibility_grid].
    rewrite (getitem2_setitem2 _ row col _ g1 row col) by done.
    by rewrite decide_True. }
  assert (board s1) as Hs1.
  { split_and!; [done..|]. by eapply setitem2_shape. }
  assert (game_state s1 = PLAYING) as Hphase1 by done.
  destruct (reveal_cases s1 row col Hs1)
    as [[? _]|[(_ & ? & _)|[(_ & _ & ? & _)|[(_ & _ & ? & _)|
        (_ & _ & _ & g2 & c & Hg2 & _ & ->)]]]]; try congruence.
  cbn [after result fst snd]. split_and!; [done..|].
  unfold visibility_at.
  destruct (revealed_state_grids s1 g2 c) as (_ & _ & _ & ->).
  rewrite (getitem2_setitem2 (visibility_grid s1) row col REVEALED g2 row col);
    [|apply Hs1|done..].
  by rewrite decide_True.
Qed.

Lemma flagged_cell_must_be_unflagged_witness :
  let s := play preset_game [Flag 0 1] in
  let s1 := after (flag 0 1 s) in
  result (reveal 0 1 s) = Raise (ValueError "Cell is flagged, unflag first") ∧
  after (reveal 0 1 s) = s ∧
  result (flag 0 1 s) = Return tt ∧
  visibility_at s1 0 1 = Some HIDDEN ∧
  result (reveal 0 1 s1) = Return tt ∧
  visibility_at (after (reveal 0 1 s1)) 0 1 = Some REVEALED.
Proof.
  apply (flagged_cell_must_be_unflagged (play preset_game [Flag 0 1]) 0 1).
  - apply board_play, board_preset_game.
  - vm_compute. reflexivity.
  - unfold in_bounds. lia.
  - vm_compute. reflexivity.
Defined.

(** ** The phase and the grids *)

Section FilterCounts.

Context {A : Type} (P : A → Prop) `{!∀ x, Decision (P x)}.

Lemma filter_length_zero (l : list A) :
  length (filter P l) = 0%nat ↔ ∀ x, x ∈ l → ¬ P x.
Proof.
  split.
  - intros Hlen x Hx HP. apply length_zero_iff_nil in Hlen.
    assert (x ∈ filter P l) as Hin by (by apply list_elem_of_filter).
    rewrite Hlen in Hin. by apply not_elem_of_nil in Hin.
  - intros Hnone. induction l as [|a l IH]; [done|].
    rewrite filter_cons_False by (apply Hnone; by left).
    apply IH. intros x Hx. apply Hnone. by right.
Qed.

Lemma filter_length_pos (l : list A) :
  (0 < length (filter P l))%nat ↔ ∃ x, x ∈ l ∧ P x.
Proof.
  split.
  - destruct (filter P l) as [|x k] eqn:Hf; [cbn; lia|]. intros _.
    assert (x ∈ filter P l) as Hin by (rewrite Hf; by left).
    apply list_elem_of_filter in Hin as [? ?]. by exists x.
  - intros (x & Hx & HP).
    assert (x ∈ filter P l) as Hin by (by apply list_elem_of_filter).
    destruct (filter P l); [by apply not_elem_of_nil in Hin|cbn; lia].
Qed.

End FilterCounts.

Lemma revealed_mine_after_store s s' g' row col v rc :
  board s → in_bounds row col →
  PyList.setitem2 (visibility_grid s) row col v = Some g' →
  content_grid s' = content_grid s → visibility_grid s' = g' →
  rc ∈ all_cells →
  revealed_mine s' rc ↔
    content_at s rc.1 rc.2 = Some MINE ∧
    (if decide (rc = (row, col)) then Some v else visibility_at s rc.1 rc.2)
      = Some REVEALED.
Proof.
  intros (_ & _ & _ & Hvg) Hin Hset Hcontent Hvis Hrc.
  apply elem_of_all_cells in Hrc. destruct rc as [r c]. cbn [fst snd] in *.
  unfold revealed_mine, content_at, visibility_at. cbn [fst snd].
  rewrite Hcontent, Hvis.
  by rewrite (getitem2_setitem2 _ row col v g' r c Hvg Hin Hrc Hset).
Qed.

Lemma phase_invariant_step s c : phase_invariant s → phase_invariant (step s c).
Proof.
  intros (Hs & Hcount & Hphase).
  split; [by apply board_step|]. split; [by apply safe_counter_step|].
  unfold step. destruct c as [row col|row col]; cbn [run_command].
  - destruct (reveal_cases s row col Hs)
      as [[_ ->]|[(_ & _ & ->)|[(_ & _ & _ & ->)|[(_ & _ & _ & ->)|
          (Hplaying & Hin & Hhidden & g' & c & Hg' & Hcontent & ->)]]]]; try done.
    cbn [after fst snd]. rewrite Hplaying in Hphase. destruct Hphase as [Hpos Hnone].
    destruct (revealed_state_grids s g' c) as (_ & _ & Hcg & Hvg).
    pose proof (λ rc, revealed_mine_after_store s _ g' row col REVEALED rc
                        Hs Hin Hg' Hcg Hvg) as Hafter.
    destruct (decide (c = MINE)) as [->|Hsafe].
    + assert (game_state (revealed_state s g' MINE) = GAME_OVER) as ->.
      { unfold revealed_state. by rewrite decide_True. }
      unfold revealed_mines in *.
      rewrite (filter_one_less (revealed_mine (revealed_state s g' MINE))
                 (revealed_mine s) all_cells (row, col)); [lia|..].
      * apply NoDup_all_cells.
      * by apply elem_of_all_cells.
      * rewrite Hafter by (by apply elem_of_all_cells).
        by rewrite decide_True.
      * unfold revealed_mine. cbn [fst snd]. rewrite Hhidden. by intros [_ ?].
      * intros rc Hrc Hne. rewrite (Hafter rc Hrc). by rewrite decide_False.
    + assert (revealed_mines (revealed_state s g' c) = 0) as Hnone'.
      { rewrite <- Hnone. unfold revealed_mines. do 2 f_equal.
        apply filter_ext_elem. intros rc Hrc. rewrite (Hafter rc Hrc).
        unfold revealed_mine. case_decide; [subst rc|done].
        cbn [fst snd]. rewrite Hcontent, Hhidden.
        split; intros [? ?]; congruence. }
      rewrite Hnone'. unfold revealed_state.
      rewrite decide_False by done.
      case_decide;
        cbn [game_state counter_safe_cells set_game_state
             set_counter_safe_cells set_visibility_grid];
        rewrite ?Hplaying; split; (done || lia).
  - destruct (flag_cases s row col Hs)
      as [[_ ->]|[(_ & _ & ->)|[(_ & _ & _ & ->)|
          (_ & Hin & v & g' & Hv & Hv' & Hg' & ->)]]]; try done.
    cbn [after fst snd].
    assert (revealed_mines (set_visibility_grid g' s) = revealed_mines s) as ->;
      [|done].
    unfold revealed_mines. do 2 f_equal.
    apply filter_ext_elem. intros rc Hrc.
    rewrite (revealed_mine_after_store s (set_visibility_grid g' s) g' row col
               (toggled v) rc Hs Hin Hg' eq_refl eq_refl Hrc).
    unfold revealed_mine. case_decide; [subst rc|done].
    cbn [fst snd]. rewrite Hv. unfold toggled.
    split; intros [? ?]; [by case_decide|congruence].
Qed.

Lemma phase_invariant_play s cs : phase_invariant s → phase_invariant (play s cs).
Proof.
  revert s. induction cs as [|c cs IH]; intros s Hs; [done|].
  cbn [play foldl]. by apply IH, phase_invariant_step.
Qed.

Lemma phase_invariant_init random_sample preset s0 t :
  proper_hazards (hazards_placed random_sample preset) →
  __init__ random_sample preset = (Return tt, s0, t) →
  phase_invariant s0.
Proof.
  intros Hproper Hinit. pose proof Hproper as (_ & _ & Hmines).
  destruct (init_spec random_sample preset Hmines)
    as (s0' & t' & Hinit' & Hs0 & Hphase & Hcounter & _ & Hcells & _).
  rewrite Hinit in Hinit'. simplify_eq.
  split_and!; [done|by eapply safe_counter_init|].
  rewrite Hphase. split; [lia|].
  unfold revealed_mines. apply (f_equal Z.of_nat (y := 0%nat)).
  apply filter_length_zero. intros [r c] Hrc [_ Hrev].
  apply elem_of_all_cells in Hrc. destruct (Hcells r c Hrc) as [Hhidden _].
  cbn [fst snd] in *. congruence.
Qed.

(** The phase, read off the grids. *)
Lemma phase_of_board s :
  phase_invariant s →
  (game_state s = GAME_OVER ↔ ∃ rc, rc ∈ all_cells ∧ revealed_mine s rc) ∧
  (game_state s = WON ↔
     ∀ rc, rc ∈ all_cells → ¬ safe_cell_unrevealed s rc ∧ ¬ revealed_mine s rc).
Proof.
  intros (Hs & Hcount & Hphase).
  unfold safe_cells_unrevealed, revealed_mines in *.
  pose proof (filter_length_zero (revealed_mine s) all_cells) as Hmz.
  pose proof (filter_length_pos (revealed_mine s) all_cells) as Hmp.
  pose proof (filter_length_zero (safe_cell_unrevealed s) all_cells) as Hsz.
  split; split.
  - intros Hover. rewrite Hover in Hphase. apply Hmp. lia.
  - intros Hex. apply Hmp in Hex. destruct (game_state s); [lia|done|lia].
  - intros Hwon. rewrite Hwon in Hphase. destruct Hphase as [Hzero Hnone].
    intros rc Hrc. split; [apply Hsz|apply Hmz]; (done || lia).
  - intros Hall.
    assert (length (filter (safe_cell_unrevealed s) all_cells) = 0%nat) as Hs0.
    { apply Hsz. intros rc Hrc. by apply Hall. }
    assert (length (filter (revealed_mine s) all_cells) = 0%nat) as Hm0.
    { apply Hmz. intros rc Hrc. by apply Hall. }
    destruct (game_state s); [lia|lia|done].
Qed.

(** X7: on a board built with 10 distinct in-bounds hazard coordinates,
    after any sequence of commands: the phase is GAME_OVER exactly when some
    hazard cell is REVEALED, and then it is the only one; the phase is WON
    exactly when every other cell is REVEALED and no hazard cell is; and the
    counter of safe cells is never negative. *)
Theorem phase_reflects_the_board
    (random_sample : list (Z * Z) → Z → list (Z * Z))
    (preset : option (list (Z * Z))) (cs : list command) :
  let mines := hazards_placed random_sample preset in
  let s := play (after (__init__ random_sample preset)) cs in
  proper_hazards mines →
  (game_state s = GAME_OVER ↔
     ∃ r c, in_bounds r c ∧ (r, c) ∈ mines ∧ visibility_at s r c = Some REVEALED) ∧
  (game_state s = WON ↔
     ∀ r c, in_bounds r c →
       ((r, c) ∉ mines → visibility_at s r c = Some REVEALED) ∧
       ((r, c) ∈ mines → visibility_at s r c ≠ Some REVEALED)) ∧
  revealed_mines s ≤ 1 ∧
  0 ≤ counter_safe_cells s.
Proof.
  intros mines s Hproper. pose proof Hproper as (_ & _ & Hmines).
  destruct (init_spec random_sample preset Hmines)
    as (s0 & t & Hinit & Hs0 & _ & _ & _ & Hcells & _).
  subst s. rewrite Hinit. cbn [after fst snd].
  pose proof (phase_invariant_play s0 cs
                (phase_invariant_init _ _ _ _ Hproper Hinit)) as Hinv.
  destruct (phase_of_board _ Hinv) as [Hover Hwon].
  destruct (play_frame s0 cs Hs0) as (Hcontent & _).
  assert (∀ r c, in_bounds r c →
            content_at (play s0 cs) r c = Some MINE ↔ (r, c) ∈ mines) as Hmine.
  { intros r c Hrc. unfold content_at. rewrite Hcontent.
    destruct (Hcells r c Hrc) as [_ Hc]. unfold content_at in Hc. rewrite Hc.
    subst mines. case_decide; [done|]. split; [|done]. intros Heq. simplify_eq.
    exfalso. by eapply hazard_neighbours_not_MINE. }
  assert (∀ r c, in_bounds r c →
            is_Some (visibility_at (play s0 cs) r c)) as Hvis.
  { intros r c Hrc. apply getitem2_is_Some; [|done].
    apply (board_play s0 cs Hs0). }
  split_and!.
  - rewrite Hover. split.
    + intros ([r c] & Hrc & Hm & Hv). apply elem_of_all_cells in Hrc.
      exists r, c. split_and!; [done| |done]. by apply Hmine.
    + intros (r & c & Hrc & Hm & Hv). exists (r, c).
      split; [by apply elem_of_all_cells|]. split; [|done]. by apply Hmine.
  - rewrite Hwon. split.
    + intros Hall r c Hrc.
      destruct (Hall (r, c)) as [Hsafe Hrev]; [by apply elem_of_all_cells|].
      unfold safe_cell_unrevealed, revealed_mine in *. cbn [fst snd] in *.
      rewrite (Hmine r c Hrc) in Hsafe, Hrev. split.
      * intros Hnot.
        destruct (decide (visibility_at (play s0 cs) r c = Some REVEALED));
          [done|]. by destruct Hsafe.
      * intros Hin Hv. by apply Hrev.
    + intros Hall [r c] Hrc. apply elem_of_all_cells in Hrc.
      destruct (Hall r c Hrc) as [Hsafe Hrev].
      unfold safe_cell_unrevealed, revealed_mine. cbn [fst snd].
      rewrite (Hmine r c Hrc). split.
      * intros [Hnot Hv]. by apply Hv, Hsafe.
      * intros [Hin Hv]. by apply (Hrev Hin).
  - destruct Hinv as (_ & _ & Hphase). destruct (game_state _); lia.
  - destruct Hinv as (_ & -> & _). unfold safe_cells_unrevealed. lia.
Qed.

Lemma phase_reflects_the_board_witness :
  let s := play preset_game [Reveal 0 1; Flag 3 3; Reveal 0 0; Reveal 4 4] in
  (game_state s = GAME_OVER ↔
     ∃ r c, in_bounds r c ∧ (r, c) ∈ PRESET_MINES ∧
            visibility_at s r c = Some REVEALED) ∧
  (game_state s = WON ↔
     ∀ r c, in_bounds r c →
       ((r, c) ∉ PRESET_MINES → visibility_at s r c = Some REVEALED) ∧
       ((r, c) ∈ PRESET_MINES → visibility_at s r c ≠ Some REVEALED)) ∧
  revealed_mines s ≤ 1 ∧
  0 ≤ counter_safe_cells s.
Proof.
  apply (phase_reflects_the_board first_k (Some PRESET_MINES)
           [Reveal 0 1; Flag 3 3; Reveal 0 0; Reveal 4 4]).
  apply proper_hazards_PRESET_MINES.
Defined.

(** ** Winning *)

Lemma play_snoc s cs c : play s (cs ++ [c]) = step (play s cs) c.
Proof. unfold play. by rewrite foldl_app. Qed.

(** While no mine is revealed and a safe cell is not, the game is on. *)
Lemma playing_while_safe_hidden s x :
  phase_invariant s →
  (∀ rc, rc ∈ all_cells → ¬ revealed_mine s rc) →
  x ∈ all_cells → safe_cell_unrevealed s x →
  game_state s = PLAYING.
Proof.
  intros Hinv Hnone Hx Hsafe. destruct (phase_of_board s Hinv) as [Hover Hwon].
  destruct (game_state s); [done| |].
  - destruct (proj1 Hover eq_refl) as (rc & Hrc & Hm). by destruct (Hnone rc Hrc).
  - by destruct (proj1 Hwon eq_refl x Hx).
Qed.

(** Revealing distinct safe cells of a fresh board, one after the other:
    each reveal takes effect, and exactly the listed cells are revealed. *)
Lemma reveals_run s0 (mines order : list (Z * Z)) :
  phase_invariant s0 →
  (∀ r c, in_bounds r c →
     visibility_at s0 r c = Some HIDDEN ∧
     (content_at s0 r c = Some MINE ↔ (r, c) ∈ mines)) →
  NoDup order → (∀ rc, rc ∈ order → rc ∈ all_cells ∧ rc ∉ mines) →
  let s := play s0 (reveals order) in
  phase_invariant s ∧ content_grid s = content_grid s0 ∧
  ∀ r c, in_bounds r c →
    visibility_at s r c = Some (if decide ((r, c) ∈ order) then REVEALED else HIDDEN).
Proof.
  intros Hinv0 Hfresh. induction order as [|x order IH] using rev_ind;
    intros Hnodup Hsafe; cbv zeta.
  - split_and!; [done..|]. intros r c Hrc. rewrite decide_False.
    + by apply Hfresh.
    + apply not_elem_of_nil.
  - apply NoDup_app in Hnodup as (Hnodup & Hfreshx & _).
    destruct IH as (Hinv & Hcontent & Hvis); [done| |].
    { intros rc Hrc. apply Hsafe, elem_of_app. by left. }
    unfold reveals. rewrite fmap_app. cbn [fmap list_fmap]. fold (reveals order).
    rewrite play_snoc. set (s := play s0 (reveals order)) in *.
    destruct x as [row col]. cbn [fst snd].
    destruct (Hsafe (row, col)) as [Hcell Hnomine].
    { apply elem_of_app. right. by left. }
    pose proof Hcell as Hin. apply elem_of_all_cells in Hin. cbn [fst snd] in Hin.
    assert ((row, col) ∉ order) as Hnew.
    { intros Hold. apply (Hfreshx _ Hold). by left. }
    assert (∀ r c, in_bounds r c →
              content_at s r c = Some MINE ↔ (r, c) ∈ mines) as Hmine.
    { intros r c Hrc. unfold content_at. rewrite Hcontent. by apply Hfresh. }
    assert (visibility_at s row col = Some HIDDEN) as Hhidden.
    { rewrite Hvis by done. by rewrite decide_False. }
    assert (game_state s = PLAYING) as Hplaying.
    { apply (playing_while_safe_hidden s (row, col)); [done| |done|].
      - intros [r c] Hrc [Hm Hv]. apply elem_of_all_cells in Hrc.
        cbn [fst snd] in *. rewrite Hvis in Hv by done.
        case_decide as Hin'; [|done].
        destruct (Hsafe (r, c)) as [_ Hno]; [apply elem_of_app; by left|].
        by apply Hno, Hmine.
      - split; cbn [fst snd]; [|congruence].
        intros Hm. by apply Hnomine, Hmine. }
    pose proof Hinv as (Hs & _).
    split_and!.
    + by apply phase_invariant_step.
    + destruct (step_frame s (Reveal row col) Hs) as (_ & _ & _ & -> & _). done.
    + intros r c Hrc. destruct (decide ((r, c) = (row, col))) as [Heq|Hne].
      * simplify_eq. rewrite decide_True by (apply elem_of_app; right; by left).
        unfold step. cbn [run_command].
        destruct (reveal_cases s row col Hs)
          as [[? _]|[(_ & ? & _)|[(_ & _ & ? & _)|[(_ & _ & ? & _)|
              (_ & _ & _ & g' & c & Hg' & _ & ->)]]]]; try congruence.
        cbn [after fst snd]. unfold visibility_at.
        destruct (revealed_state_grids s g' c) as (_ & _ & _ & ->).
        rewrite (getitem2_setitem2 (visibility_grid s) row col REVEALED g' row col);
          [|apply Hs|done..].
        by rewrite decide_True.
      * rewrite step_other_cell by done. rewrite Hvis by done. f_equal.
        apply decide_ext. rewrite elem_of_app, list_elem_of_singleton.
        split; [by left|by intros [?|?]].
Qed.

Lemma safe_cells_length (mines : list (Z * Z)) :
  proper_hazards mines →
  length (filter (λ rc, rc ∉ mines) all_cells) = 54%nat.
Proof.
  intros (Hnodup & Hlen & Hmines).
  pose proof (filter_complement_length (λ rc, rc ∈ mines) all_cells) as Hsum.
  rewrite (filter_elem_of_length mines all_cells) in Hsum; [|done|..].
  - rewrite length_all_cells in Hsum.
    change (length (filter (λ rc, rc ∉ mines) all_cells))
      with (length (filter (λ rc, ¬ rc ∈ mines) all_cells)). lia.
  - apply NoDup_all_cells.
  - intros rc Hrc. apply elem_of_all_cells.
    rewrite Forall_forall in Hmines. by apply Hmines.
Qed.

(** X8: on a board built with 10 distinct in-bounds hazard coordinates,
    revealing the cells that are not hazards, each once and in any order,
    wins the game: there are 54 such cells, the phase is PLAYING after
    fewer than 54 of the reveals and WON after the 54th. *)
Theorem revealing_every_safe_cell_wins
    (random_sample : list (Z * Z) → Z → list (Z * Z))
    (preset : option (list (Z * Z))) (order : list (Z * Z)) :
  let mines := hazards_placed random_sample preset in
  let s0 := after (__init__ random_sample preset) in
  proper_hazards mines →
  order ≡ₚ filter (λ rc, rc ∉ mines) all_cells →
  length order = 54%nat ∧
  game_state (play s0 (reveals order)) = WON ∧
  ∀ k, (k < 54)%nat → game_state (play s0 (reveals (take k order))) = PLAYING.
Proof.
  intros mines s0 Hproper Horder. pose proof Hproper as (_ & _ & Hmines).
  destruct (init_spec random_sample preset Hmines)
    as (s0' & t & Hinit & Hs0 & _ & _ & _ & Hcells & _).
  subst s0. rewrite Hinit. cbn [after fst snd].
  pose proof (phase_invariant_init _ _ _ _ Hproper Hinit) as Hinv0.
  assert (length order = 54%nat) as Hlen.
  { rewrite Horder. by apply safe_cells_length. }
  assert (NoDup order) as Hnodup.
  { rewrite Horder. apply NoDup_filter, NoDup_all_cells. }
  assert (∀ rc, rc ∈ order ↔ rc ∈ all_cells ∧ rc ∉ mines) as Hmem.
  { intros rc. rewrite Horder, list_elem_of_filter. tauto. }
  assert (∀ r c, in_bounds r c →
            visibility_at s0' r c = Some HIDDEN ∧
            (content_at s0' r c = Some MINE ↔ (r, c) ∈ mines)) as Hfresh.
  { intros r c Hrc. destruct (Hcells r c Hrc) as [Hv Hc]. split; [done|].
    rewrite Hc. subst mines. case_decide; [done|]. split; [|done].
    intros Heq. simplify_eq. exfalso. by eapply hazard_neighbours_not_MINE. }
  split_and!; [done| |].
  - destruct (reveals_run s0' mines order Hinv0 Hfresh Hnodup) as (Hinv & Hcontent & Hvis).
    { intros rc Hrc. by apply Hmem. }
    apply (phase_of_board _ Hinv). intros [r c] Hrc.
    pose proof Hrc as Hin. apply elem_of_all_cells in Hin. cbn [fst snd] in Hin.
    assert (content_at (play s0' (reveals order)) r c = Some MINE ↔ (r, c) ∈ mines)
      as Hmine.
    { unfold content_at. rewrite Hcontent. by apply Hfresh. }
    unfold safe_cell_unrevealed, revealed_mine. cbn [fst snd].
    rewrite (Hvis r c Hin), Hmine. split.
    + intros [Hsafe Hv]. rewrite decide_True in Hv; [done|]. by apply Hmem.
    + intros [Hm Hv]. case_decide as Hin'; [|done]. by apply Hmem in Hin' as [_ ?].
  - intros k Hk.
    destruct (drop k order) as [|x rest] eqn:Hdrop.
    { apply (f_equal length) in Hdrop. rewrite length_drop in Hdrop. cbn in Hdrop. lia. }
    pose proof (take_drop k order) as Hsplit. rewrite Hdrop in Hsplit.
    rewrite <- Hsplit in Hnodup. apply NoDup_app in Hnodup as (Hnodup & Hfreshx & _).
    assert (∀ rc, rc ∈ take k order → rc ∈ all_cells ∧ rc ∉ mines) as Hsafe.
    { intros rc Hrc. apply Hmem. rewrite <- Hsplit. apply elem_of_app. by left. }
    destruct (reveals_run s0' mines (take k order) Hinv0 Hfresh Hnodup Hsafe)
      as (Hinv & Hcontent & Hvis).
    destruct x as [row col].
    destruct (proj1 (Hmem (row, col))) as [Hcell Hnomine].
    { rewrite <- Hsplit. apply elem_of_app. right. by left. }
    pose proof Hcell as Hin. apply elem_of_all_cells in Hin. cbn [fst snd] in Hin.
    assert (∀ r c, in_bounds r c →
              content_at (play s0' (reveals (take k order))) r c = Some MINE
              ↔ (r, c) ∈ mines) as Hmine.
    { intros r c Hrc. unfold content_at. rewrite Hcontent. by apply Hfresh. }
    apply (playing_while_safe_hidden _ (row, col)); [done| |done|].
    + intros [r c] Hrc [Hm Hv]. apply elem_of_all_cells in Hrc.
      cbn [fst snd] in *. rewrite Hvis in Hv by done.
      case_decide as Hin'; [|done].
      destruct (Hsafe (r, c) Hin') as [_ Hno]. by apply Hno, Hmine.
    + split; cbn [fst snd].
      * intros Hm. by apply Hnomine, Hmine.
      * rewrite Hvis by done. rewrite decide_False; [done|].
        intros Hold. apply (Hfreshx _ Hold). by left.
Qed.

Lemma revealing_every_safe_cell_wins_witness :
  let order := reverse (filter (λ rc, rc ∉ PRESET_MINES) all_cells) in
  length order = 54%nat ∧
  game_state (play preset_game (reveals order)) = WON ∧
  ∀ k, (k < 54)%nat → game_state (play preset_game (reveals (take k order))) = PLAYING.
Proof.
  apply (revealing_every_safe_cell_wins first_k (Some PRESET_MINES)
           (reverse (filter (λ rc, rc ∉ PRESET_MINES) all_cells))).
  - apply proper_hazards_PRESET_MINES.
  - apply reverse_Permutation.
Defined.

(** ** Construction from any preset list *)

Section Subscripts.

Context {A : Type}.
Implicit Types (g : list (list A)) (r c : Z) (v : A).

Lemma index_wrap i : -8 ≤ i < 8 → PyList.index 8 i = PyList.index 8 (wrap i).
Proof.
  intros Hi. unfold PyList.index, wrap.
  repeat case_decide; done || lia.
Qed.

Lemma index_outside i : ¬ (-8 ≤ i < 8) → PyList.index 8 i = None.
Proof. intros Hi. unfold PyList.index. repeat case_decide; done || lia. Qed.

Lemma wrap_inside rc : subscriptable rc → in_bounds (wrap rc.1) (wrap rc.2).
Proof. intros [? ?]. unfold in_bounds, wrap. repeat case_decide; lia. Qed.

Lemma setitem2_wrap g r c v :
  grid_shape g → subscriptable (r, c) →
  PyList.setitem2 g r c v = PyList.setitem2 g (wrap r) (wrap c) v.
Proof.
  intros [Hlen Hall] [Hr Hc]. cbn [fst snd] in *.
  unfold PyList.setitem2, PyList.setitem. rewrite Hlen, <- (index_wrap r) by done.
  destruct (PyList.index 8 r) as [n|]; [|done].
  destruct (g !! n) as [line|] eqn:Hline; [|done].
  rewrite (Forall_lookup_1 _ _ _ _ Hall Hline).
  by rewrite <- (index_wrap c).
Qed.

Lemma getitem2_wrap g r c :
  grid_shape g → subscriptable (r, c) →
  PyList.getitem2 g r c = PyList.getitem2 g (wrap r) (wrap c).
Proof.
  intros [Hlen Hall] [Hr Hc]. cbn [fst snd] in *.
  unfold PyList.getitem2, PyList.getitem. rewrite Hlen, <- (index_wrap r) by done.
  destruct (PyList.index 8 r) as [n|]; [|done].
  destruct (g !! n) as [line|] eqn:Hline; [|done].
  rewrite (Forall_lookup_1 _ _ _ _ Hall Hline).
  by rewrite <- (index_wrap c).
Qed.

Lemma setitem2_outside g r c v :
  grid_shape g → ¬ subscriptable (r, c) → PyList.setitem2 g r c v = None.
Proof.
  intros [Hlen Hall] Hout. unfold PyList.setitem2, PyList.setitem. rewrite Hlen.
  destruct (decide (-8 ≤ r < 8)) as [Hr|Hr]; [|by rewrite index_outside].
  destruct (PyList.index 8 r) as [n|]; [|done].
  destruct (g !! n) as [line|] eqn:Hline; [|done].
  rewrite (Forall_lookup_1 _ _ _ _ Hall Hline).
  rewrite index_outside; [done|]. intros Hc. by apply Hout.
Qed.

Lemma getitem2_outside g r c :
  grid_shape g → ¬ subscriptable (r, c) → PyList.getitem2 g r c = None.
Proof.
  intros [Hlen Hall] Hout. unfold PyList.getitem2, PyList.getitem. rewrite Hlen.
  destruct (decide (-8 ≤ r < 8)) as [Hr|Hr]; [|by rewrite index_outside].
  destruct (PyList.index 8 r) as [n|]; [|done].
  destruct (g !! n) as [line|] eqn:Hline; [|done].
  rewrite (Forall_lookup_1 _ _ _ _ Hall Hline).
  rewrite index_outside; [done|]. intros Hc. by apply Hout.
Qed.

End Subscripts.

(** The placement loop on any list of subscriptable coordinates: it
    returns, and it marks exactly the cells the coordinates denote. *)
Lemma place_loop_wrap (mines : list (Z * Z)) s :
  board s → Forall subscriptable mines →
  ∃ g' t,
    for_each mines (λ '(r, c) _, store_content r c MINE) tt s
      = (Return tt, set_content_grid g' s, t) ∧
    grid_shape g' ∧
    (∀ r c, in_bounds r c →
       PyList.getitem2 g' r c =
         if decide ((r, c) ∈ wrap_cell <$> mines) then Some MINE
         else content_at s r c).
Proof.
  intros (Hr & Hc & Hcg & Hvg) Hmines.
  destruct (for_each_prefix_inv
    (λ visited (_ : unit) s',
       ∃ g', s' = set_content_grid g' s ∧ grid_shape g' ∧
         ∀ r c, in_bounds r c →
           PyList.getitem2 g' r c =
             if decide ((r, c) ∈ wrap_cell <$> visited) then Some MINE
             else content_at s r c)
    (λ _, True) mines (λ '(r, c) _, store_content r c MINE)) with tt s
    as ([] & s' & t & Hrun & (g' & -> & Hg' & Hcells) & _).
  - intros visited [r c] rest [] s1 -> (g1 & -> & Hg1 & Hcells).
    assert (subscriptable (r, c)) as Hrc.
    { rewrite Forall_app, Forall_cons in Hmines. by destruct Hmines as (_ & (? & _)). }
    pose proof (wrap_inside _ Hrc) as Hin. cbn [fst snd] in Hin.
    destruct (setitem2_is_Some g1 (wrap r) (wrap c) MINE Hg1 Hin) as [g2 Hg2].
    exists tt, (set_content_grid g2 s), [Access Content r c]. split_and!.
    + erewrite run_store_content; [done|].
      cbn [content_grid set_content_grid]. by rewrite setitem2_wrap.
    + exists g2. split_and!; [done|by eapply setitem2_shape|].
      intros r' c' Hrc'.
      rewrite (getitem2_setitem2 g1 (wrap r) (wrap c) MINE g2 r' c') by done.
      rewrite Hcells by done. rewrite fmap_app. cbn [fmap list_fmap].
      destruct (decide ((r', c') = (wrap r, wrap c))) as [Heq|Hne].
      * rewrite decide_True; [done|].
        rewrite Heq, elem_of_app, list_elem_of_singleton. by right.
      * apply decide_ext. rewrite elem_of_app, list_elem_of_singleton.
        unfold wrap_cell at 2. cbn [fst snd]. split; [by left|by intros [?|?]].
    + by apply Forall_true.
  - exists (content_grid s). split_and!; [by destruct s|done|].
    intros r c _. rewrite decide_False; [done|]. apply not_elem_of_nil.
  - by exists g', t.
Qed.

(** The placement loop on a list with a coordinate that is no subscript:
    it raises IndexError (after having placed the coordinates before). *)
Lemma place_loop_raises (mines : list (Z * Z)) s :
  board s → ¬ Forall subscriptable mines →
  result (for_each mines (λ '(r, c) _, store_content r c MINE) tt s)
    = Raise index_error.
Proof.
  revert s. induction mines as [|[r c] mines IH]; intros s Hs Hbad.
  - by destruct Hbad.
  - cbn [for_each]. rewrite bind_eq. pose proof Hs as (_ & _ & Hcg & _).
    destruct (decide (subscriptable (r, c))) as [Hrc|Hrc].
    + pose proof (wrap_inside _ Hrc) as Hin. cbn [fst snd] in Hin.
      destruct (setitem2_is_Some (content_grid s) (wrap r) (wrap c) MINE Hcg Hin)
        as [g2 Hg2].
      rewrite <- setitem2_wrap in Hg2 by done.
      erewrite run_store_content by done.
      assert (board (set_content_grid g2 s)) as Hs2.
      { destruct Hs as (? & ? & ? & ?). split_and!; [done..| |done].
        by eapply setitem2_shape. }
      specialize (IH _ Hs2). unfold result in IH.
      destruct (for_each mines _ tt (set_content_grid g2 s)) as [[res s3] t3].
      cbn [fst snd] in *. apply IH. intros Hrest. apply Hbad. by constructor.
    + unfold store_content. by rewrite setitem2_outside.
Qed.


Lemma filter_elem_of_remove_dups `{!EqDecision A} (k l : list A) :
  NoDup l → (∀ x, x ∈ k → x ∈ l) →
  length (filter (λ x, x ∈ k) l) = length (remove_dups k).
Proof.
  intros Hl Hsub. apply Permutation_length, NoDup_Permutation.
  - by apply NoDup_filter.
  - apply NoDup_remove_dups.
  - intros x. rewrite list_elem_of_filter, elem_of_remove_dups.
    split; [by intros [? _]|]. intros Hx. split; [done|by apply Hsub].
Qed.

(** Construction from a preset list of subscriptable coordinates. *)
Lemma init_spec_wrap random_sample (mines : list (Z * Z)) :
  Forall subscriptable mines →
  ∃ s0 t,
    __init__ random_sample (Some mines) = (Return tt, s0, t) ∧
    board s0 ∧ game_state s0 = PLAYING ∧ counter_safe_cells s0 = 54 ∧
    number_mines s0 = 10 ∧
    (∀ r c, in_bounds r c →
       visibility_at s0 r c = Some HIDDEN ∧
       content_at s0 r c =
         if decide ((r, c) ∈ wrap_cell <$> mines) then Some MINE
         else Some (hazard_neighbours (wrap_cell <$> mines) r c)).
Proof.
  intros Hmines. unfold __init__. cbv zeta.
  set (self := mkMinesweeper _ _ _ _ _ _ _ _).
  assert (board self) as Hself.
  { split_and!; [done..| |]; (split; [done|]);
      by apply (bool_decide_unpack _); vm_compute. }
  assert (∀ r c, in_bounds r c →
            content_at self r c = Some 0 ∧ visibility_at self r c = Some HIDDEN)
    as Hfresh.
  { intros r c Hrc.
    assert (Forall (λ rc, content_at self rc.1 rc.2 = Some 0 ∧
                          visibility_at self rc.1 rc.2 = Some HIDDEN) all_cells)
      as Hall by (by apply (bool_decide_unpack _); vm_compute).
    rewrite Forall_forall in Hall. by apply (Hall (r, c)), elem_of_all_cells. }
  destruct (place_loop_wrap mines self Hself Hmines)
    as (g1 & t1 & Hrun1 & Hg1 & Hcells1).
  set (s1 := set_content_grid g1 self) in *.
  assert (board s1) as Hs1 by (by destruct Hself as (? & ? & ? & ?)).
  destruct (calculate_neighbour_mines_spec s1 Hs1)
    as (g2 & t2 & Hrun2 & Hg2 & Hcells2 & _).
  assert (∀ r c, in_bounds r c →
            content_at s1 r c = Some MINE ↔ (r, c) ∈ wrap_cell <$> mines) as Hmine1.
  { intros r c Hrc. unfold content_at, s1. cbn [content_grid set_content_grid].
    rewrite Hcells1 by done. case_decide; [done|].
    destruct (Hfresh r c Hrc) as [-> _]. split; [|done]. intros; simplify_eq. }
  exists (set_content_grid g2 s1), (t1 ++ t2). split_and!.
  - rewrite bind_eq. unfold _place_mines. run_method.
    change (preset_mines self) with (Some mines). cbv beta iota.
    by rewrite Hrun1, Hrun2.
  - by destruct Hs1 as (? & ? & ? & ?).
  - done.
  - done.
  - done.
  - intros r c Hrc. split; [by apply Hfresh|].
    unfold content_at. cbn [content_grid set_content_grid].
    rewrite Hcells2 by done.
    rewrite (decide_ext _ _ _ _ (Hmine1 r c Hrc)). case_decide; [done|].
    f_equal. unfold counted_mines, hazard_neighbours. f_equal.
    rewrite <- (offsets_count_adjacent (λ rc, rc ∈ wrap_cell <$> mines) r c).
    f_equal. apply list_filter_iff. intros [dr dc]. cbn. split.
    + intros [Hin Hm]. split; [done|]. by apply Hmine1.
    + intros [Hin Hm]. split; [done|]. by apply Hmine1.
Qed.

(** X10: from a preset list whose coordinates all have parts between -8
    and 7, the constructor builds a board on which a coordinate with a
    negative part denotes the cell counted from the end and a repeated cell
    is placed once: the cells denoted hold MINE, every other cell holds the
    number of denoted cells that touch it, and the number of mines is the
    number of distinct cells denoted, while [number_mines] is 10 and the
    counter of safe cells 54 whatever the list. *)
Theorem preset_coordinates_wrap
    (random_sample : list (Z * Z) → Z → list (Z * Z)) (mines : list (Z * Z)) :
  Forall subscriptable mines →
  ∃ s0 t,
    __init__ random_sample (Some mines) = (Return tt, s0, t) ∧
    (∀ r c, in_bounds r c →
       content_at s0 r c =
         if decide ((r, c) ∈ wrap_cell <$> mines) then Some MINE
         else Some (hazard_neighbours (wrap_cell <$> mines) r c)) ∧
    mine_count (content_grid s0)
      = Z.of_nat (length (remove_dups (wrap_cell <$> mines))) ∧
    number_mines s0 = 10 ∧ counter_safe_cells s0 = 54.
Proof.
  intros Hmines.
  destruct (init_spec_wrap random_sample mines Hmines)
    as (s0 & t & Hinit & (_ & _ & Hcg & _) & _ & Hcounter & Hn & Hcells).
  exists s0, t. split_and!; [done| |  |done..].
  - intros r c Hrc. by apply Hcells.
  - rewrite (mine_count_cells _ Hcg). f_equal.
    rewrite <- (filter_elem_of_remove_dups (wrap_cell <$> mines) all_cells).
    + f_equal. apply filter_ext_elem. intros [r c] Hrc.
      apply elem_of_all_cells in Hrc. destruct (Hcells r c Hrc) as [_ Hcontent].
      unfold content_at in Hcontent. cbn [fst snd]. rewrite Hcontent.
      case_decide; [done|]. split; [|done]. intros Heq. simplify_eq.
      exfalso. by eapply hazard_neighbours_not_MINE.
    + apply NoDup_all_cells.
    + intros rc Hrc. apply list_elem_of_fmap in Hrc as (rc' & -> & Hrc').
      apply elem_of_all_cells. apply wrap_inside.
      rewrite Forall_forall in Hmines. by apply Hmines.
Qed.

Lemma preset_coordinates_wrap_witness :
  ∃ s0 t,
    __init__ first_k (Some [(-1, -1); (7, 7); (0, -8); (3, 4)]) = (Return tt, s0, t) ∧
    (∀ r c, in_bounds r c →
       content_at s0 r c =
         if decide ((r, c) ∈ wrap_cell <$> [(-1, -1); (7, 7); (0, -8); (3, 4)])
         then Some MINE
         else Some (hazard_neighbours
                      (wrap_cell <$> [(-1, -1); (7, 7); (0, -8); (3, 4)]) r c)) ∧
    mine_count (content_grid s0)
      = Z.of_nat (length (remove_dups
                            (wrap_cell <$> [(-1, -1); (7, 7); (0, -8); (3, 4)]))) ∧
    number_mines s0 = 10 ∧ counter_safe_cells s0 = 54.
Proof.
  apply (preset_coordinates_wrap first_k [(-1, -1); (7, 7); (0, -8); (3, 4)]).
  apply (bool_decide_unpack _). vm_compute. reflexivity.
Defined.

Example preset_with_negative_coordinates :
  content_at (after (__init__ first_k (Some [(-1, -1); (7, 7); (0, -8); (3, 4)]))) 7 7
    = Some MINE ∧
  mine_count (content_grid
    (after (__init__ first_k (Some [(-1, -1); (7, 7); (0, -8); (3, 4)])))) = 3 ∧
  result (__init__ first_k (Some [(0, 8)])) = Raise index_error.
Proof. by vm_compute. Qed.

(** ** The unguarded helper *)

(** X11: [_check_for_mine] has no bounds check of its own.  On a board
    built with 10 distinct in-bounds hazard coordinates, after any sequence
    of commands, it returns whether the cell is one of the hazards and
    changes nothing, for every coordinate with parts between -8 and 7, a
    negative part counting from the end; for any other coordinate it raises
    IndexError. *)
Theorem check_for_mine_is_unguarded
    (random_sample : list (Z * Z) → Z → list (Z * Z))
    (preset : option (list (Z * Z))) (cs : list command) (r c : Z) :
  let mines := hazards_placed random_sample preset in
  let s := play (after (__init__ random_sample preset)) cs in
  proper_hazards mines →
  after (_check_for_mine r c s) = s ∧
  (subscriptable (r, c) →
     result (_check_for_mine r c s) = Return (bool_decide (wrap_cell (r, c) ∈ mines))) ∧
  (¬ subscriptable (r, c) →
     result (_check_for_mine r c s) = Raise index_error).
Proof.
  intros mines s (_ & _ & Hmines).
  destruct (init_spec random_sample preset Hmines)
    as (s0 & t & Hinit & Hs0 & _ & _ & _ & Hcells & _).
  subst s. rewrite Hinit. cbn [after fst snd].
  pose proof (board_play s0 cs Hs0) as Hs. pose proof Hs as (_ & _ & Hcg & _).
  destruct (play_frame s0 cs Hs0) as (Hcontent & _).
  split_and!.
  - unfold _check_for_mine.
    apply read_only_bind; [apply read_only_load_content|].
    intros v. case_decide; apply read_only_ret.
  - intros Hrc. pose proof (wrap_inside _ Hrc) as Hin. cbn [fst snd] in Hin.
    destruct (Hcells _ _ Hin) as [_ Hc]. unfold content_at in Hc.
    rewrite <- Hcontent, <- getitem2_wrap in Hc by done.
    unfold _check_for_mine, wrap_cell. cbn [fst snd]. subst mines.
    pose proof (hazard_neighbours_not_MINE
                  (hazards_placed random_sample preset) (wrap r) (wrap c)).
    case_decide; by run_method.
  - intros Hrc. unfold _check_for_mine. rewrite bind_eq. unfold load_content.
    by rewrite getitem2_outside.
Qed.

Lemma check_for_mine_is_unguarded_witness :
  let s := play preset_game [Reveal 0 1; Flag 3 3] in
  after (_check_for_mine (-1) (-8) s) = s ∧
  (subscriptable (-1, -8) →
     result (_check_for_mine (-1) (-8) s)
       = Return (bool_decide (wrap_cell (-1, -8) ∈ PRESET_MINES))) ∧
  (¬ subscriptable (-1, -8) →
     result (_check_for_mine (-1) (-8) s) = Raise index_error).
Proof.
  apply (check_for_mine_is_unguarded first_k (Some PRESET_MINES)
           [Reveal 0 1; Flag 3 3] (-1) (-8)).
  apply proper_hazards_PRESET_MINES.
Defined.

(** ** The counter on a board with another number of mines *)

(** A command changes the counter and the number of safe unrevealed cells
    by the same amount. *)
Lemma counter_offset_step s c :
  board s →
  counter_safe_cells (step s c) - safe_cells_unrevealed (step s c)
    = counter_safe_cells s - safe_cells_unrevealed s.
Proof.
  intros Hs. unfold step. destruct c as [row col|row col]; cbn [run_command].
  - destruct (reveal_cases s row col Hs)
      as [[_ ->]|[(_ & _ & ->)|[(_ & _ & _ & ->)|[(_ & _ & _ & ->)|
          (_ & Hin & Hhidden & g' & c & Hg' & Hcontent & ->)]]]]; try done.
    cbn [after fst snd].
    destruct (revealed_state_grids s g' c) as (_ & _ & Hcg & Hvg).
    pose proof (λ rc, safe_cell_after_store s _ g' row col REVEALED rc
                        Hs Hin Hg' Hcg Hvg) as Hafter.
    destruct (decide (c = MINE)) as [->|Hsafe].
    + assert (counter_safe_cells (revealed_state s g' MINE) = counter_safe_cells s)
        as -> by (unfold revealed_state; by rewrite decide_True).
      f_equal. unfold safe_cells_unrevealed. do 2 f_equal.
      apply filter_ext_elem. intros rc Hrc. rewrite (Hafter rc Hrc).
      unfold safe_cell_unrevealed. case_decide; [subst rc|done].
      cbn [fst snd]. rewrite Hcontent. split; by intros [? _].
    + assert (counter_safe_cells (revealed_state s g' c) = counter_safe_cells s - 1)
        as ->.
      { unfold revealed_state. rewrite decide_False by done. by case_decide. }
      unfold safe_cells_unrevealed.
      rewrite (filter_one_less (safe_cell_unrevealed s)
                 (safe_cell_unrevealed (revealed_state s g' c))
                 all_cells (row, col)); [lia|..].
      * apply NoDup_all_cells.
      * by apply elem_of_all_cells.
      * unfold safe_cell_unrevealed. cbn [fst snd].
        rewrite Hcontent, Hhidden. split; congruence.
      * rewrite Hafter by (by apply elem_of_all_cells).
        rewrite decide_True by done. by intros [_ ?].
      * intros rc Hrc Hne. rewrite (Hafter rc Hrc).
        by rewrite decide_False.
  - destruct (flag_cases s row col Hs)
      as [[_ ->]|[(_ & _ & ->)|[(_ & _ & _ & ->)|
          (_ & Hin & v & g' & Hv & Hv' & Hg' & ->)]]]; try done.
    cbn [after fst snd].
    change (counter_safe_cells (set_visibility_grid g' s))
      with (counter_safe_cells s).
    f_equal. unfold safe_cells_unrevealed. do 2 f_equal.
    apply filter_ext_elem. intros rc Hrc.
    rewrite (safe_cell_after_store s (set_visibility_grid g' s) g' row col
               (toggled v) rc Hs Hin Hg' eq_refl eq_refl Hrc).
    unfold safe_cell_unrevealed. case_decide; [subst rc|done].
    cbn [fst snd]. rewrite Hv. unfold toggled.
    split; (intros [? _]; split; [done|]); [congruence|by case_decide].
Qed.

Lemma won_counter_step s c :
  board s → (game_state s = WON → counter_safe_cells s = 0) →
  game_state (step s c) = WON → counter_safe_cells (step s c) = 0.
Proof.
  intros Hs Hwon. unfold step. destruct c as [row col|row col]; cbn [run_command].
  - destruct (reveal_cases s row col Hs)
      as [[_ ->]|[(_ & _ & ->)|[(_ & _ & _ & ->)|[(_ & _ & _ & ->)|
          (Hplaying & _ & _ & g' & c & _ & _ & ->)]]]]; try done.
    cbn [after fst snd]. unfold revealed_state.
    repeat case_decide;
      cbn [game_state counter_safe_cells set_game_state
           set_counter_safe_cells set_visibility_grid]; congruence.
  - destruct (flag_cases s row col Hs)
      as [[_ ->]|[(_ & _ & ->)|[(_ & _ & _ & ->)|
          (_ & _ & v & g' & _ & _ & _ & ->)]]]; done.
Qed.

Lemma counter_offset_play s cs :
  board s → (game_state s = WON → counter_safe_cells s = 0) →
  counter_safe_cells (play s cs) - safe_cells_unrevealed (play s cs)
    = counter_safe_cells s - safe_cells_unrevealed s ∧
  (game_state (play s cs) = WON → counter_safe_cells (play s cs) = 0).
Proof.
  revert s. induction cs as [|c cs IH]; intros s Hs Hwon; [done|].
  cbn [play foldl]. fold (play (step s c) cs).
  destruct (IH (step s c)) as [-> Hwon'];
    [by apply board_step|by apply won_counter_step|].
  split; [by apply counter_offset_step|done].
Qed.

(** X12: on a board built from any accepted preset list, with [m] distinct
    cells denoted, after any sequence of commands the counter of safe cells
    exceeds the number of safe cells not yet revealed by [m - 10]; with more
    than 10 mines the phase is therefore never WON, and with fewer than 10,
    whenever the phase is WON, [10 - m] safe cells are still unrevealed. *)
Theorem counter_assumes_ten_mines
    (random_sample : list (Z * Z) → Z → list (Z * Z))
    (mines : list (Z * Z)) (cs : list command) :
  let m := Z.of_nat (length (remove_dups (wrap_cell <$> mines))) in
  let s := play (after (__init__ random_sample (Some mines))) cs in
  Forall subscriptable mines →
  counter_safe_cells s = safe_cells_unrevealed s + (m - 10) ∧
  (10 < m → game_state s ≠ WON) ∧
  (game_state s = WON → safe_cells_unrevealed s = 10 - m).
Proof.
  intros m s Hmines.
  destruct (init_spec_wrap random_sample mines Hmines)
    as (s0 & t & Hinit & Hs0 & Hphase & Hcounter & _ & Hcells).
  subst s. rewrite Hinit. cbn [after fst snd].
  destruct (counter_offset_play s0 cs Hs0) as [Hoffset Hwon]; [congruence|].
  assert (safe_cells_unrevealed s0 = 64 - m) as Hfresh.
  { unfold safe_cells_unrevealed.
    rewrite (filter_ext_elem (safe_cell_unrevealed s0)
               (λ rc, ¬ rc ∈ wrap_cell <$> mines)).
    - pose proof (filter_complement_length
                    (λ rc, rc ∈ wrap_cell <$> mines) all_cells) as Hsum.
      rewrite (filter_elem_of_remove_dups (wrap_cell <$> mines) all_cells)
        in Hsum.
      + rewrite length_all_cells in Hsum. subst m. lia.
      + apply NoDup_all_cells.
      + intros rc Hrc. apply list_elem_of_fmap in Hrc as (rc' & -> & Hrc').
        apply elem_of_all_cells. apply wrap_inside.
        rewrite Forall_forall in Hmines. by apply Hmines.
    - intros [r c] Hrc. apply elem_of_all_cells in Hrc.
      destruct (Hcells r c Hrc) as [Hhidden Hcontent].
      unfold safe_cell_unrevealed. cbn [fst snd]. rewrite Hhidden, Hcontent.
      case_decide; [split; [by intros [? _]|done]|].
      split; [done|]. intros _. split; [|done]. intros Heq. simplify_eq.
      by eapply hazard_neighbours_not_MINE. }
  assert (0 ≤ safe_cells_unrevealed (play s0 cs)) as Hnonneg
    by (unfold safe_cells_unrevealed; lia).
  split_and!.
  - lia.
  - intros Hmany Hw. specialize (Hwon Hw). lia.
  - intros Hw. specialize (Hwon Hw). lia.
Qed.

Lemma counter_assumes_ten_mines_witness :
  let mines := [(0, 0); (-1, -1)] in
  let m := Z.of_nat (length (remove_dups (wrap_cell <$> mines))) in
  let s := play (after (__init__ first_k (Some mines))) [Reveal 3 3; Flag 0 0] in
  counter_safe_cells s = safe_cells_unrevealed s + (m - 10) ∧
  (10 < m → game_state s ≠ WON) ∧
  (game_state s = WON → safe_cells_unrevealed s = 10 - m).
Proof.
  apply (counter_assumes_ten_mines first_k [(0, 0); (-1, -1)]
           [Reveal 3 3; Flag 0 0]).
  apply (bool_decide_unpack _). vm_compute. reflexivity.
Defined.


(** * The window: frontend/app.py *)

(** ** Running a handler *)

Section RunGUI.

Context {A B : Type}.

Lemma gbind_eq (m : G A) (k : A → G B) g :
  gbind m k g =
    match m g with
    | (inl a, g1) => k a g1
    | (inr e, g1) => (inr e, g1)
    end.
Proof. done. Qed.

Lemma set_game_same g : set_game (game g) g = g.
Proof. by destruct g. Qed.

Lemma run_call (m : M A) g a s t :
  m (game g) = (Return a, s, t) → call m g = (inl a, set_game s g).
Proof. unfold call. by intros ->. Qed.

Lemma run_call_raise (m : M A) g e s t :
  m (game g) = (Raise e, s, t) → call m g = (inr (Engine e), set_game s g).
Proof. unfold call. by intros ->. Qed.

Lemma run_call_attr (f : Minesweeper → A) g : call (attr f) g = (inl (f (game g)), g).
Proof. unfold call, attr. by rewrite set_game_same. Qed.

End RunGUI.

Lemma gfor_prefix_inv {A} (I : list A → MinesweeperGUI → Prop)
    (l : list A) (body : A → G unit) :
  (∀ visited x rest g, l = visited ++ x :: rest → I visited g →
     ∃ g', body x g = (inl tt, g') ∧ I (visited ++ [x]) g') →
  ∀ g, I [] g → ∃ g', gfor l body g = (inl tt, g') ∧ I l g'.
Proof.
  intros Hbody.
  cut (∀ rest visited g, l = visited ++ rest → I visited g →
         ∃ g', gfor rest body g = (inl tt, g') ∧ I l g').
  { intros Hcut g. by apply (Hcut l []). }
  induction rest as [|x rest IH]; intros visited g Hl Hinv.
  - rewrite app_nil_r in Hl. subst. by exists g.
  - destruct (Hbody visited x rest g Hl Hinv) as (g1 & Hrun & Hinv1).
    destruct (IH (visited ++ [x]) g1) as (g2 & Hrun2 & Hinv2).
    { by rewrite <- app_assoc. } { done. }
    exists g2. split; [|done]. cbn [gfor]. by rewrite gbind_eq, Hrun.
Qed.

(** The two nested loops over the rows and the columns visit the cells of
    the board in the order of [all_cells]. *)
Lemma gfor_grid (J : list (Z * Z) → MinesweeperGUI → Prop)
    (body : Z → Z → G unit) :
  (∀ visited g, J visited g → cols (game g) = 8) →
  (∀ visited row col g, in_bounds row col → J visited g →
     ∃ g', body row col g = (inl tt, g') ∧ J (visited ++ [(row, col)]) g') →
  ∀ g, J [] g →
  ∃ g', gfor (PyList.range 8) (λ row,
          let+ ncols := call (attr cols) in
          gfor (PyList.range ncols) (λ col, body row col)) g = (inl tt, g') ∧
        J all_cells g'.
Proof.
  intros Hcols Hbody g Hg.
  apply (gfor_prefix_inv
    (λ rows_done g', J (r ← rows_done; c ← PyList.range 8; [(r, c)]) g'));
    [|done].
  intros rows_done row rest g1 Hsplit Hg1.
  assert (0 ≤ row < 8) as Hrow.
  { apply elem_of_range. rewrite Hsplit. apply elem_of_app. right. by left. }
  rewrite gbind_eq, run_call_attr, (Hcols _ _ Hg1).
  destruct (gfor_prefix_inv
    (λ seen g', J ((r ← rows_done; c ← PyList.range 8; [(r, c)])
                     ++ (c ← seen; [(row, c)])) g')
    (PyList.range 8) (λ col, body row col)) with g1 as (g2 & Hrun & Hg2).
  - intros seen col rest' g2 Hsplit' Hg2.
    assert (in_bounds row col) as Hin.
    { split; [done|]. apply elem_of_range. rewrite Hsplit'.
      apply elem_of_app. right. by left. }
    destruct (Hbody _ row col g2 Hin Hg2) as (g3 & Hrun & Hg3).
    exists g3. split; [done|].
    by rewrite bind_app, (assoc_L (++)).
  - by rewrite app_nil_r.
  - exists g2. split; [done|]. rewrite bind_app. cbn [mbind list_bind].
    by rewrite app_nil_r.
Qed.

(** ** The loops that set the texts of the buttons *)

Lemma texts_set_init g0 text : texts_set g0 text [] g0.
Proof.
  split_and!; [done..|]. intros key. rewrite decide_False; [done|].
  apply not_elem_of_nil.
Qed.

Lemma texts_set_step g0 text visited key value g :
  texts_set g0 text visited g → text key = Some value →
  texts_set g0 text (visited ++ [key])
    (set_buttons (<[key := value]> (buttons g)) g).
Proof.
  intros (Hgame & Hstatus & Hbuttons) Htext. split_and!; [done..|].
  intros key'. cbn [buttons set_buttons].
  destruct (decide (key' = key)) as [->|Hne].
  - rewrite lookup_insert_eq, decide_True; [done|].
    apply elem_of_app. right. by left.
  - rewrite lookup_insert_ne by done. rewrite Hbuttons.
    apply decide_ext. rewrite elem_of_app, list_elem_of_singleton.
    split; [by left|by intros [?|?]].
Qed.

Lemma setup_ui_spec g0 :
  board (game g0) →
  ∃ g, _setup_ui g0 = (inl tt, g) ∧
       game g = game g0 ∧
       status_label g
         = ("Mines: " ++ pretty (number_mines (game g0)) ++ " | Status: Playing")%string ∧
       ∀ key, buttons g !! key =
                if decide (key ∈ all_cells) then Some " " else buttons g0 !! key.
Proof.
  intros (Hr & Hc & _).
  set (g1 := set_status_label
               ("Mines: " ++ pretty (number_mines (game g0))
                  ++ " | Status: Playing")%string g0).
  destruct (gfor_grid (texts_set g1 (λ _, Some " "))
    (λ row col g, (inl tt, set_buttons (<[(row, col) := " "]> (buttons g)) g)))
    with g1 as (g & Hrun & Hgame & Hstatus & Hbuttons).
  - by intros visited g (-> & _).
  - intros visited row col g _ Hg. eexists. split; [done|].
    by apply texts_set_step.
  - apply texts_set_init.
  - exists g. split_and!; [|done..].
    unfold _setup_ui. rewrite gbind_eq. unfold get_mines_count.
    rewrite run_call_attr, gbind_eq. unfold status_setText at 1.
    fold g1. rewrite gbind_eq, run_call_attr.
    change (rows (game g1)) with (rows (game g0)). by rewrite Hr.
Qed.

Lemma update_buttons_spec (b : list (list display)) g0 :
  gui_ok g0 → grid_shape b →
  ∃ g,
    gfor (PyList.range 8) (λ row,
      let+ ncols := call (attr cols) in
      gfor (PyList.range ncols) (λ col,
        let+ cell := subscript2 b row col in
        if decide (cell = Str "H") then button_setText (row, col) " "
        else if decide (cell = Str "F") then button_setText (row, col) "F"
        else if decide (cell = Str "*") then button_setText (row, col) "*"
        else button_setText (row, col) (display_str cell))) g0 = (inl tt, g) ∧
    texts_set g0 (λ key, button_text <$> PyList.getitem2 b key.1 key.2) all_cells g.
Proof.
  intros [(Hr & Hc & _) Hkeys] Hb.
  apply (gfor_grid
    (texts_set g0 (λ key, button_text <$> PyList.getitem2 b key.1 key.2))
    (λ row col,
       let+ cell := subscript2 b row col in
       if decide (cell = Str "H") then button_setText (row, col) " "
       else if decide (cell = Str "F") then button_setText (row, col) "F"
       else if decide (cell = Str "*") then button_setText (row, col) "*"
       else button_setText (row, col) (display_str cell))).
  - by intros visited g (-> & _).
  - intros visited row col g Hin Hg.
    destruct (getitem2_is_Some b row col Hb Hin) as [d Hd].
    assert (is_Some (buttons g !! (row, col))) as [old Hold].
    { destruct Hg as (_ & _ & ->). case_decide; [|by apply Hkeys].
      cbn [fst snd]. by rewrite Hd. }
    exists (set_buttons (<[(row, col) := button_text d]> (buttons g)) g). split.
    + rewrite gbind_eq. unfold subscript2. rewrite Hd. unfold button_text.
      repeat case_decide; simplify_eq; unfold button_setText; by rewrite Hold.
    + apply texts_set_step; [done|]. cbn [fst snd]. by rewrite Hd.
  - apply texts_set_init.
Qed.

Lemma update_board_spec g0 :
  gui_ok g0 →
  ∃ g, _update_board g0 = (inl tt, g) ∧
       game g = game g0 ∧
       buttons_show (game g0) g ∧
       (∀ key, key ∉ all_cells → buttons g !! key = buttons g0 !! key) ∧
       status_label g = phase_message (game g0).
Proof.
  intros Hok. pose proof Hok as [Hs Hkeys]. pose proof Hs as (Hr & Hc & _).
  destruct (get_board_display_cells (game g0) Hs) as (b & t & Hrun & _).
  destruct (get_board_display_lookup (game g0) Hs) as (b' & Hb' & Hshape & Hcells).
  rewrite Hrun in Hb'. cbn in Hb'. simplify_eq.
  destruct (update_buttons_spec b' g0 Hok Hshape)
    as (g1 & Hloop & Hgame & Hstatus & Hbuttons).
  set (g2 := set_status_label (phase_message (game g0)) g1).
  exists g2. split_and!.
  - unfold _update_board.
    rewrite gbind_eq, (run_call _ _ _ _ _ Hrun), set_game_same.
    rewrite gbind_eq, run_call_attr, Hr, gbind_eq, Hloop.
    rewrite gbind_eq. unfold get_game_state, get_mines_count.
    rewrite run_call_attr. unfold phase_message in g2. subst g2.
    rewrite Hgame. destruct (game_state (game g0)); repeat case_decide; try done.
    rewrite gbind_eq, run_call_attr, Hgame. done.
  - done.
  - intros r c Hin. destruct (Hcells r c Hin) as (d & Hd & Hcell).
    exists d. split; [done|]. cbn [buttons g2 set_status_label].
    rewrite Hbuttons, decide_True by (by apply elem_of_all_cells).
    cbn [fst snd]. by rewrite Hd.
  - intros key Hkey. cbn [buttons g2 set_status_label].
    by rewrite Hbuttons, decide_False.
  - done.
Qed.

(** ** The click handlers *)

Lemma command_outcome s cmd :
  board s → game_state s = PLAYING →
  (∃ msg t, run_command cmd s = (Raise (ValueError msg), s, t)) ∨
  (∃ s' t, run_command cmd s = (Return tt, s', t)).
Proof.
  intros Hs Hphase. destruct cmd as [row col|row col]; cbn [run_command].
  - destruct (reveal_cases s row col Hs)
      as [[? _]|[(_ & _ & ->)|[(_ & _ & _ & ->)|[(_ & _ & _ & ->)|
          (_ & _ & _ & g' & c & _ & _ & ->)]]]]; [done|by left; eauto..|].
    right. eauto.
  - destruct (flag_cases s row col Hs)
      as [[? _]|[(_ & _ & ->)|[(_ & _ & _ & ->)|
          (_ & _ & v & g' & _ & _ & _ & ->)]]]; [done|by left; eauto..|].
    right. eauto.
Qed.

Lemma step_terminal s cmd : board s → game_state s ≠ PLAYING → step s cmd = s.
Proof.
  intros Hs Hphase. unfold step. destruct cmd as [row col|row col]; cbn [run_command].
  - destruct (reveal_cases s row col Hs)
      as [[_ ->]|[(? & _)|[(? & _)|[(? & _)|(? & _)]]]]; done.
  - destruct (flag_cases s row col Hs)
      as [[_ ->]|[(? & _)|[(? & _)|(? & _)]]]; done.
Qed.

(** Both handlers are one guard around the command they forward. *)
Lemma handler_unfold c :
  handler c =
    let+ state := call get_game_state in
    if decide (state ≠ PLAYING) then gret tt else
    try_except
      (let+ _ := call (run_command (command_of c)) in _update_board)
      (λ e, status_setText (exn_str e)).
Proof. by destruct c. Qed.

Lemma handler_cases g c :
  gui_ok g →
  (game_state (game g) ≠ PLAYING ∧ handler c g = (inl tt, g))
  ∨ (game_state (game g) = PLAYING ∧
     ∃ msg t,
       run_command (command_of c) (game g) = (Raise (ValueError msg), game g, t) ∧
       handler c g = (inl tt, set_status_label msg g))
  ∨ (game_state (game g) = PLAYING ∧
     ∃ s' t g',
       run_command (command_of c) (game g) = (Return tt, s', t) ∧
       handler c g = (inl tt, g') ∧
       game g' = s' ∧ gui_ok g' ∧ buttons_show s' g' ∧
       (∀ key, key ∉ all_cells → buttons g' !! key = buttons g !! key) ∧
       status_label g' = phase_message s').
Proof.
  intros [Hs Hkeys]. rewrite handler_unfold, gbind_eq.
  unfold get_game_state. rewrite run_call_attr.
  destruct (decide (game_state (game g) = PLAYING)) as [Hphase|Hphase];
    [right|left].
  2:{ split; [done|]. by rewrite decide_True. }
  rewrite decide_False by (intros Hne; by apply Hne).
  destruct (command_outcome (game g) (command_of c) Hs Hphase)
    as [(msg & t & Hrun)|(s' & t & Hrun)]; [left|right]; (split; [done|]).
  - exists msg, t. split; [done|]. unfold try_except.
    by rewrite gbind_eq, (run_call_raise _ _ _ _ _ Hrun), set_game_same.
  - assert (board s') as Hs'.
    { pose proof (board_step (game g) (command_of c) Hs) as Hstep.
      unfold step in Hstep. by rewrite Hrun in Hstep. }
    assert (gui_ok (set_game s' g)) as Hok' by done.
    destruct (update_board_spec _ Hok') as (g' & Hupd & Hgame & Hshow & Hrest & Hstatus).
    exists s', t, g'. split_and!; [done| |done| |done..].
    + unfold try_except. by rewrite gbind_eq, (run_call _ _ _ _ _ Hrun), Hupd.
    + split; [by rewrite Hgame|]. intros r' c' Hin.
      destruct (Hshow r' c' Hin) as (d & _ & ->). eauto.
Qed.





(** ** A session *)

Lemma handler_inv g c :
  gui_ok g → buttons_show (game g) g →
  ∃ g', handler c g = (inl tt, g') ∧
        gui_ok g' ∧ buttons_show (game g') g' ∧
        game g' = step (game g) (command_of c) ∧
        ∀ key, key ∉ all_cells → buttons g' !! key = buttons g !! key.
Proof.
  intros Hok Hshow. pose proof Hok as [Hs _].
  destruct (handler_cases g c Hok)
    as [[Hover Hrun]|[(Hphase & msg & t & Hcmd & Hrun)|
        (Hphase & s' & t & g' & Hcmd & Hrun & Hgame & Hok' & Hshow' & Hrest & _)]].
  - exists g. split_and!; [done..| |done]. by rewrite step_terminal.
  - exists (set_status_label msg g). split_and!; [done..| |done].
    unfold step. by rewrite Hcmd.
  - exists g'. split_and!; [done..|by rewrite Hgame| |done].
    unfold step. by rewrite Hcmd.
Qed.

Lemma run_clicks_inv g cs :
  gui_ok g → buttons_show (game g) g →
  ∃ g', run_clicks cs g = (inl tt, g') ∧
        gui_ok g' ∧ buttons_show (game g') g' ∧
        game g' = play (game g) (command_of <$> cs) ∧
        ∀ key, key ∉ all_cells → buttons g' !! key = buttons g !! key.
Proof.
  revert g. induction cs as [|c cs IH]; intros g Hok Hshow.
  - by exists g.
  - destruct (handler_inv g c Hok Hshow) as (g1 & Hrun1 & Hok1 & Hshow1 & Hgame1 & Hrest1).
    destruct (IH g1 Hok1 Hshow1) as (g2 & Hrun2 & Hok2 & Hshow2 & Hgame2 & Hrest2).
    exists g2. split_and!; [|done..| |].
    + unfold run_clicks in *. cbn [gfor]. by rewrite gbind_eq, Hrun1.
    + rewrite Hgame2, Hgame1. done.
    + intros key Hkey. by rewrite Hrest2, Hrest1.
Qed.

Lemma gui_init_spec random_sample :
  sampler random_sample →
  ∃ g0, gui_init random_sample = (inl tt, g0) ∧
        game g0 = after (__init__ random_sample None) ∧
        gui_ok g0 ∧ buttons_show (game g0) g0 ∧
        status_label g0 = "Mines: 10 | Status: Playing" ∧
        ∀ key, key ∉ all_cells → buttons g0 !! key = None.
Proof.
  intros Hsampler.
  pose proof (sampler_proper_hazards _ Hsampler) as (_ & _ & Hmines).
  destruct (init_spec random_sample None Hmines)
    as (s0 & t & Hinit & Hs0 & _ & _ & Hn & Hcells & _).
  unfold gui_init. rewrite Hinit.
  destruct (setup_ui_spec (mkMinesweeperGUI s0 ∅ EmptyString) Hs0)
    as (g0 & Hrun & Hgame & Hstatus & Hbuttons).
  cbn [game buttons] in *.
  exists g0. split_and!; [done|by rewrite Hgame| | | |].
  - split; [by rewrite Hgame|]. intros r c Hin.
    rewrite Hbuttons, decide_True by (by apply elem_of_all_cells). eauto.
  - intros r c Hin. rewrite Hgame. destruct (Hcells r c Hin) as [Hhidden _].
    destruct (getitem2_is_Some (content_grid s0) r c) as [x Hx]; [apply Hs0|done|].
    destruct (get_cell_state_value s0 r c HIDDEN x Hs0 Hin Hhidden Hx) as [t' ->].
    exists (Str "H"). split; [done|].
    by rewrite Hbuttons, decide_True by (by apply elem_of_all_cells).
  - by rewrite Hstatus, Hn.
  - intros key Hkey. by rewrite Hbuttons, decide_False.
Qed.



Example test_window :
  status_label (run_clicks [LeftClick 7 7; RightClick 3 3; LeftClick 3 3]
                  (gui_init first_k).2).2 = "Cell is flagged, unflag first" ∧
  buttons (run_clicks [LeftClick 7 7; RightClick 3 3; LeftClick 3 3]
             (gui_init first_k).2).2 !! (7, 7) = Some "0" ∧
  buttons (run_clicks [LeftClick 7 7; RightClick 3 3; LeftClick 3 3]
             (gui_init first_k).2).2 !! (3, 3) = Some "F" ∧
  status_label (run_clicks [LeftClick 0 0; LeftClick 7 7]
                  (gui_init first_k).2).2 = "BOOM! You hit a mine. Game over!".
Proof. by vm_compute. Qed.
